(** * ComfyUi-webp-converter: the batch conversion engine of [app.py]

    A shallow embedding of [ConversionWorker] (the two workers
    [convert_single_image] and [convert_single_image_with_metadata], the
    two collecting loops, [run]) and of [ImageConverter.convert_images],
    with the properties of the engine stated and proved over it.

    Conventions.
    - Paths follow [posixpath]; a Python [str] is a Rocq [string].
    - The file system is the finite set of the path names that exist.
    - The image codec (PIL), the [json] parser and printer and the failures
      of the operating system are fields of an environment record [Env]:
      each call returns either the text of the exception it raises or its
      value.
    - A raised exception is the left injection of a sum and carries
      [str(e)].
    - The tasks of the pool are threads: each is a sequence of steps, one
      for every call that reads or writes what the threads share, and the
      order in which the threads take their steps (the schedule) is an
      argument of [run].  The workers [convert_single_image] and
      [convert_single_image_with_metadata] are a task that no other thread
      interrupts ([finish_alone]).  What is proved of the collecting loop
      holds for any results of the futures.
    - A [string] holds the bytes of the UTF-8 form of a Python [str]. *)

From Stdlib Require Import ZArith QArith Qround Qpower Lia Lqa List Bool Ascii String Sorted.
From stdpp Require Import base decidable option list sets gmap strings pretty.

#[local] Set Warnings "-register-all".
Local Open Scope string_scope.

(** ** Strings and [os.path] *)

Module Path.

(** [(p[:i], p[i:])] for [i = p.rfind(c) + 1]. *)
Fixpoint rsplit_after (c : ascii) (p : string) : string * string :=
  match p with
  | EmptyString => (EmptyString, EmptyString)
  | String a p' =>
      let '(h, t) := rsplit_after c p' in
      match h with
      | String _ _ => (String a h, t)
      | EmptyString =>
          if Ascii.eqb a c then (String a EmptyString, t)
          else (EmptyString, String a t)
      end
  end.

(** [(p[:d], p[d:])] for [d = p.rfind(c)], and [(p, "")] when [c] does not
    occur in [p]. *)
Fixpoint rsplit_before (c : ascii) (p : string) : string * string :=
  match p with
  | EmptyString => (EmptyString, EmptyString)
  | String a p' =>
      let '(pre, ext) := rsplit_before c p' in
      match ext with
      | String _ _ => (String a pre, ext)
      | EmptyString =>
          if Ascii.eqb a c then (EmptyString, String a p')
          else (String a pre, EmptyString)
      end
  end.

(** [p == c * len(p)] *)
Fixpoint all_char (c : ascii) (p : string) : bool :=
  match p with
  | EmptyString => true
  | String a p' => Ascii.eqb a c && all_char c p'
  end.

(** [p.rstrip(c)] *)
Fixpoint rstrip (c : ascii) (p : string) : string :=
  match p with
  | EmptyString => EmptyString
  | String a p' =>
      match rstrip c p' with
      | EmptyString => if Ascii.eqb a c then EmptyString else String a EmptyString
      | r => String a r
      end
  end.

Definition sep : ascii := "/"%char.
Definition extsep : ascii := "."%char.

(** [posixpath.split] *)
Definition split (p : string) : string * string :=
  let '(head, tail) := rsplit_after sep p in
  let head :=
    if negb (String.eqb head "") && negb (all_char sep head)
    then rstrip sep head else head in
  (head, tail).

(** [os.path.basename], [os.path.dirname] *)
Definition basename (p : string) : string := snd (rsplit_after sep p).
Definition dirname (p : string) : string := fst (split p).

(** [s.startswith(pre)], [s.endswith(suf)] *)
Fixpoint startswith (pre s : string) : bool :=
  match pre, s with
  | EmptyString, _ => true
  | String _ _, EmptyString => false
  | String a pre', String b s' => Ascii.eqb a b && startswith pre' s'
  end.

Fixpoint endswith (suf s : string) : bool :=
  String.eqb s suf ||
  match s with
  | EmptyString => false
  | String _ s' => endswith suf s'
  end.

(** [c in s] *)
Fixpoint contains (c : ascii) (s : string) : bool :=
  match s with
  | EmptyString => false
  | String a s' => Ascii.eqb a c || contains c s'
  end.

(** [posixpath.join(a, b)] *)
Definition join (a b : string) : string :=
  if startswith "/" b then b
  else if String.eqb a "" || endswith "/" a then a ++ b
  else a ++ "/" ++ b.

(** [genericpath._splitext(p, "/", None, ".")], that is [os.path.splitext]:
    the extension starts at the last dot of the last component, and
    leading dots of that component do not start an extension. *)
Definition splitext (p : string) : string * string :=
  let '(head, tail) := rsplit_after sep p in
  let '(pre, ext) := rsplit_before extsep tail in
  if negb (String.eqb ext "") && negb (all_char extsep pre)
  then (head ++ pre, ext) else (p, "").

(** [str.lower] on the ASCII letters.  No other character lowers to one of
    the characters of [".png"], the only use [lower] has here. *)
Definition lower_ascii (a : ascii) : ascii :=
  let n := nat_of_ascii a in
  if (65 <=? n)%nat && (n <=? 90)%nat then ascii_of_nat (n + 32) else a.

Fixpoint lower (s : string) : string :=
  match s with
  | EmptyString => EmptyString
  | String a s' => String (lower_ascii a) (lower s')
  end.

End Path.

(** ** Values of [json.loads] and Python's [==] on them *)

Module Json.

(** A Python [float]: [NaN], an infinity, or the finite value [m * 2^e]. *)
Inductive pyfloat : Type :=
  | FNaN
  | FInf (negative : bool)
  | FFinite (m e : Z).

Inductive json : Type :=
  | JNull                               (* None  *)
  | JBool (b : bool)                    (* bool  *)
  | JInt (z : Z)                        (* int   *)
  | JFloat (f : pyfloat)                (* float *)
  | JStr (s : string)                   (* str   *)
  | JArr (l : list json)                (* list  *)
  | JObj (kvs : list (string * json)).  (* dict, in insertion order *)

(** [d.get(k)] on the items of a dict. *)
Fixpoint assoc (k : string) (kvs : list (string * json)) : option json :=
  match kvs with
  | [] => None
  | (k', v) :: kvs' => if String.eqb k k' then Some v else assoc k kvs'
  end.

(** [d[k] = v] on an existing key keeps the key's position. *)
Fixpoint assoc_set (k : string) (v : json) (kvs : list (string * json))
  : list (string * json) :=
  match kvs with
  | [] => [(k, v)]
  | (k', v') :: kvs' =>
      if String.eqb k k' then (k', v) :: kvs' else (k', v') :: assoc_set k v kvs'
  end.

(** Numbers compare by value across [bool], [int] and [float].  The [NaN]
    of a parsed document is the one object [json.decoder.NaN], and the
    comparisons of [list.remove], [list.__eq__] and [dict.__eq__] take
    identical objects as equal. *)
Definition as_number (j : json) : option pyfloat :=
  match j with
  | JBool b => Some (FFinite (if b then 1 else 0) 0)
  | JInt z => Some (FFinite z 0)
  | JFloat f => Some f
  | _ => None
  end.

Definition float_eqb (x y : pyfloat) : bool :=
  match x, y with
  | FNaN, FNaN => true
  | FInf n1, FInf n2 => Bool.eqb n1 n2
  | FFinite m1 e1, FFinite m2 e2 =>
      let e := Z.min e1 e2 in
      (m1 * 2 ^ (e1 - e) =? m2 * 2 ^ (e2 - e))%Z
  | _, _ => false
  end.

Definition number_eqb (a b : json) : bool :=
  match as_number a, as_number b with
  | Some x, Some y => float_eqb x y
  | _, _ => false
  end.

(** [a == b] *)
Fixpoint py_eq (a b : json) {struct a} : bool :=
  match a with
  | JNull => match b with JNull => true | _ => false end
  | JStr s => match b with JStr t => String.eqb s t | _ => false end
  | JArr l =>
      match b with
      | JArr m =>
          (fix all2 (l m : list json) {struct l} : bool :=
             match l, m with
             | [], [] => true
             | x :: l', y :: m' => py_eq x y && all2 l' m'
             | _, _ => false
             end) l m
      | _ => false
      end
  | JObj kvs =>
      match b with
      | JObj kvs' =>
          Nat.eqb (length kvs) (length kvs') &&
          (fix all (l : list (string * json)) {struct l} : bool :=
             match l with
             | [] => true
             | (k, v) :: l' =>
                 match assoc k kvs' with
                 | Some v' => py_eq v v'
                 | None => false
                 end && all l'
             end) kvs
      | _ => false
      end
  | JBool _ | JInt _ | JFloat _ => number_eqb a b
  end.

(** What a Python statement does: it returns, it raises an exception, or the
    model ran out of fuel (which [filter_nodes_fuel] shows never happens). *)
Inductive outcome (A : Type) : Type :=
  | Returns (a : A)
  | Raises
  | OutOfFuel.
Arguments Returns {A} a.
Arguments Raises {A}.
Arguments OutOfFuel {A}.

(** [n['type']]: defined on a dict that has the key; [KeyError] or
    [TypeError] otherwise. *)
Definition subscript_type (n : json) : option json :=
  match n with
  | JObj kvs => assoc "type" kvs
  | _ => None
  end.

(** [n['type'] == tag] holds; [n['type']] is defined and differs. *)
Definition has_type (tag : string) (n : json) : Prop :=
  exists t, subscript_type n = Some t /\ py_eq t (JStr tag) = true.
Definition has_other_type (tag : string) (n : json) : Prop :=
  exists t, subscript_type n = Some t /\ py_eq t (JStr tag) = false.

(** [nodes.remove(n)] where [n] is the object at index [idx] of [nodes]:
    the first element that is [n] itself or equal to [n] goes.  The elements
    before [idx] are other objects and are compared with [==]. *)
Fixpoint list_remove (idx : nat) (n : json) (nodes : list json) {struct nodes}
  : list json :=
  match nodes with
  | [] => []
  | x :: nodes' =>
      match idx with
      | O => nodes'
      | S idx' => if py_eq x n then nodes' else x :: list_remove idx' n nodes'
      end
  end.

(** The loop of lines 134-136,
    [for n in nodes: if n['type'] == 'LoraInfo': nodes.remove(n)],
    on a list: the iterator holds the index [i] of the next element and
    stops when [i] is past the end of the list as it is then. *)
Fixpoint for_nodes (fuel i : nat) (nodes : list json) : outcome (list json) :=
  match nodes !! i with
  | None => Returns nodes
  | Some n =>
      match fuel with
      | O => OutOfFuel
      | S fuel' =>
          match subscript_type n with
          | None => Raises
          | Some t =>
              if py_eq t (JStr "LoraInfo")
              then for_nodes fuel' (S i) (list_remove i n nodes)
              else for_nodes fuel' (S i) nodes
          end
      end
  end.

(** The same loop on what [c.get('nodes')] returned: a [str] iterates over
    its characters and a dict over its keys, on which [n['type']] raises;
    [None] and numbers are not iterable. *)
Definition filter_nodes (nodes : json) : outcome json :=
  match nodes with
  | JArr l =>
      match for_nodes (length l) 0 l with
      | Returns l' => Returns (JArr l')
      | Raises => Raises
      | OutOfFuel => OutOfFuel
      end
  | JStr EmptyString => Returns nodes
  | JObj [] => Returns nodes
  | _ => Raises
  end.

(** Lines 132-137 after [json.loads]: [c.get('nodes')] needs [c] to be a
    dict; the list is filtered in place, so [c] holds the filtered list
    under the same key. *)
Definition filter_document (c : json) : outcome json :=
  match c with
  | JObj kvs =>
      match assoc "nodes" kvs with
      | None => Raises                     (* for n in None *)
      | Some nodes =>
          match filter_nodes nodes with
          | Returns nodes' => Returns (JObj (assoc_set "nodes" nodes' kvs))
          | Raises => Raises
          | OutOfFuel => OutOfFuel
          end
      end
  | _ => Raises                            (* c has no attribute get *)
  end.

End Json.

(** ** The percentage of [progress.emit]: double-precision arithmetic *)

Module Double.

Local Open Scope Q_scope.

(** Round to the nearest integer, ties to the even one. *)
Definition round_half_even (x : Q) : Z :=
  let q := Qfloor x in
  match Qcompare (x - inject_Z q) (1 # 2) with
  | Lt => q
  | Gt => (q + 1)%Z
  | Eq => if Z.even q then q else (q + 1)%Z
  end.

(** [floor (log2 x)] for [0 < x]. *)
Definition exponent (x : Q) : Z :=
  let e0 := (Z.log2 (Qnum x) - Z.log2 (Zpos (Qden x)))%Z in
  if Qle_bool (2 ^ e0) x then e0 else (e0 - 1)%Z.

(** The double nearest to [x], for [x] in the range of the normal doubles:
    53 significant bits, ties to even.  The values this program rounds lie
    between [1 / len(futures)] and [100]. *)
Definition round53 (x : Q) : Q :=
  if Qle_bool x 0 then 0
  else
    let ulp := 2 ^ (exponent x - 52) in
    inject_Z (round_half_even (x / ulp)) * ulp.

(** [a / b] on two positive [int]s: the correctly rounded quotient. *)
Definition truediv (a b : Z) : Q := round53 (inject_Z a / inject_Z b).

(** [x * 100] on a [float] and an [int]. *)
Definition mul_int (x : Q) (k : Z) : Q := round53 (x * inject_Z k).

(** [int(x)] for [0 <= x]. *)
Definition int_of (x : Q) : Z := Qfloor x.

(** [int((i + 1) / len(futures) * 100)] *)
Definition percent (i total : nat) : Z :=
  int_of (mul_int (truediv (Z.of_nat i + 1) (Z.of_nat total)) 100).

End Double.

(** ** [ConversionWorker] *)

Module Engine.

Import Path Json.

(** The libraries and the operating system the workers call.  A sum is
    [inl (str e)] when the call raises [e]; an [option string] is the
    [str e] of the exception the call raises, if it raises. *)
Record Env : Type := {
  Image : Type;
  (** [Image.open(img_path)] *)
  image_open : gset string -> string -> string + Image;
  (** [img.info.get("workflow")], the text chunk of a PNG *)
  info_workflow : Image -> option string;
  (** the [OSError] of [os.makedirs(output_dir, exist_ok=True)] *)
  makedirs_error : gset string -> string -> option string;
  (** the exception of [img.save(output_path, 'webp', quality=q)] *)
  save_error : gset string -> Image -> string -> Z -> option string;
  (** the exception of lines 143-148: [img.getexif()], [img.convert("RGB")]
      and [save] with the EXIF tag [0x010e] set to the given text *)
  save_exif_error : gset string -> Image -> string -> Z -> string -> option string;
  (** [json.loads(s)]; [None] when it raises *)
  json_loads : string -> option json;
  (** [json.dumps(c)] *)
  json_dumps : json -> string;
  (** [str] of the [UnboundLocalError] for the local [filename] *)
  unbound_filename : string
}.

(** One call of [save], as the codec receives it. *)
Record save_call : Type := {
  save_path : string;
  save_quality : Z;
  save_exif : option string       (* the text under tag [0x010e] *)
}.

(** What the EXIF writer of PIL stores for a text tag such as [0x010e]:
    the tag has type ASCII and the text is encoded with
    [value.encode("ascii", "replace")], which puts [?] for every character
    outside ASCII.  In UTF-8 such a character is one byte from [0xC0] up
    followed by bytes from [0x80] to [0xBF]. *)
Fixpoint encode_ascii_replace (s : string) : string :=
  match s with
  | EmptyString => EmptyString
  | String a s' =>
      if (nat_of_ascii a <? 128)%nat then String a (encode_ascii_replace s')
      else if (nat_of_ascii a <? 192)%nat then encode_ascii_replace s'
      else String "?" (encode_ascii_replace s')
  end.

(** [s.isascii()] *)
Fixpoint isascii (s : string) : bool :=
  match s with
  | EmptyString => true
  | String a s' => (nat_of_ascii a <? 128)%nat && isascii s'
  end.

(** The text that the file written by [call] holds under tag [0x010e]. *)
Definition embedded (call : save_call) : option string :=
  encode_ascii_replace <$> save_exif call.

(** What the workers of one batch share: the file system, the closure
    variable [renamed_files], and the calls of [save] that returned, in
    the order in which they returned. *)
Record state : Type := {
  fs : gset string;
  renamed_files : list string;
  saved : list save_call
}.

Definition set_fs (f : gset string -> gset string) (st : state) : state :=
  {| fs := f (fs st); renamed_files := renamed_files st; saved := saved st |}.

Record ConversionWorker : Type := {
  file_paths : list string;
  output_dir : string;
  quality : Z;
  keep_workflow : bool;
  use_same_folder : bool;
  cpu_count : nat
}.

(** A computation of a worker: it changes the shared state and returns a
    value or raises [Exception(msg)].  [None] is for a loop of the model
    that ran out of fuel. *)
Definition M (A : Type) : Type := state -> option ((string + A) * state).

Definition ret {A} (a : A) : M A := fun st => Some (inr a, st).
Definition raise {A} (msg : string) : M A := fun st => Some (inl msg, st).
Definition bind {A B} (m : M A) (k : A -> M B) : M B :=
  fun st =>
    match m st with
    | None => None
    | Some (inl e, st') => Some (inl e, st')
    | Some (inr a, st') => k a st'
    end.
(** [try: m except Exception as e: h e] *)
Definition try_except {A} (m : M A) (h : string -> M A) : M A :=
  fun st =>
    match m st with
    | None => None
    | Some (inl e, st') => h e st'
    | Some (inr a, st') => Some (inr a, st')
    end.
Definition get_fs : M (gset string) := fun st => Some (inr (fs st), st).
Definition out_of_fuel {A} : M A := fun _ => None.

Notation "'let*' x ':=' m 'in' k" := (bind m (fun x => k))
  (at level 10, x pattern, m at level 200, k at level 200).
Notation "m >> k" := (bind m (fun _ => k))
  (at level 100, k at level 200, right associativity).

(** [os.path.exists(p)] *)
Definition path_exists (files : gset string) (p : string) : bool :=
  bool_decide (p ∈ files).

(** The directories above [p], nearest first. *)
Fixpoint parents (fuel : nat) (p : string) : list string :=
  match fuel with
  | O => []
  | S fuel' =>
      let h := dirname p in
      if String.eqb h "" || String.eqb h p then [] else h :: parents fuel' h
  end.

Section WithEnv.

Context (E : Env).

(** [os.makedirs(d, exist_ok=True)]: the directory and the missing
    directories above it exist afterwards.  The empty path always raises
    [FileNotFoundError]. *)
Definition os_makedirs (d : string) : M unit :=
  fun st =>
    if String.eqb d "" then Some (inl "[Errno 2] No such file or directory: ''", st)
    else
      match makedirs_error E (fs st) d with
      | Some e => Some (inl e, st)
      | None =>
          Some (inr tt,
                set_fs (fun files => {[ d ]} ∪ list_to_set (parents (String.length d) d) ∪ files) st)
      end.

(** [renamed_files.append(r)] *)
Definition append_renamed (r : string) : M unit :=
  fun st =>
    Some (inr tt, {| fs := fs st; renamed_files := renamed_files st ++ [r];
                     saved := saved st |}).

(** [f"{base_name}_{counter}.webp"] *)
Definition numbered (base_name : string) (counter : nat) : string :=
  base_name ++ "_" ++ pretty counter ++ ".webp".

(** Lines 63-66: [while os.path.exists(output_path): ...], returning the
    [output_filename] and [output_path] the loop ends with. *)
Fixpoint rename_loop (fuel : nat) (files : gset string) (output_dir base_name : string)
    (output_filename output_path : string) (counter : nat) : option (string * string) :=
  if path_exists files output_path then
    match fuel with
    | O => None
    | S fuel' =>
        let output_filename := numbered base_name counter in
        let output_path := join output_dir output_filename in
        rename_loop fuel' files output_dir base_name output_filename output_path (S counter)
    end
  else Some (output_filename, output_path).

(** Lines 58-69 (and 112-123): the name that is free, with the entry of
    [renamed_files] when the first name was taken. *)
Definition resolve_output (filename output_dir output_filename output_path : string)
  : M (string * string) :=
  let* files := get_fs in
  if path_exists files output_path then
    let base_name := fst (splitext output_filename) in
    match rename_loop (S (size files)) files output_dir base_name
            output_filename output_path 1 with
    | None => out_of_fuel
    | Some (output_filename, output_path) =>
        append_renamed (filename ++ " -> " ++ output_filename) >>
        ret (output_filename, output_path)
    end
  else ret (output_filename, output_path).

(** Lines 44-69 (and 98-123), from [filename = ...] to the end of the
    collision check. *)
Definition choose_output (w : ConversionWorker) (img_path filename : string)
  : M (string * string) :=
  let output_dir :=
    if use_same_folder w then dirname img_path else output_dir w in
  let output_filename := fst (splitext filename) ++ ".webp" in
  let output_path := join output_dir output_filename in
  os_makedirs output_dir >>
  resolve_output filename output_dir output_filename output_path.

(** The state after a successful [save] of lines 143-148. *)
Definition after_save_exif (w : ConversionWorker) (p comment : string) (st : state) : state :=
  {| fs := {[ p ]} ∪ fs st;
     renamed_files := renamed_files st;
     saved := (saved st ++ [ {| save_path := p; save_quality := quality w;
                               save_exif := Some comment |} ])%list |}.

(** [img.save(output_path, 'webp', quality=self.quality)]; a [save] that
    raises leaves no file behind. *)
Definition save_webp (w : ConversionWorker) (img : Image E) (output_path : string) : M unit :=
  fun st =>
    match save_error E (fs st) img output_path (quality w) with
    | Some e => Some (inl e, st)
    | None =>
        Some (inr tt,
              {| fs := {[ output_path ]} ∪ fs st;
                 renamed_files := renamed_files st;
                 saved := saved st ++ [ {| save_path := output_path;
                                           save_quality := quality w;
                                           save_exif := None |} ] |})
    end.

(** Lines 143-148, with [comment] the text put under tag [0x010e]. *)
Definition save_webp_exif (w : ConversionWorker) (img : Image E)
    (output_path comment : string) : M unit :=
  fun st =>
    match save_exif_error E (fs st) img output_path (quality w) comment with
    | Some e => Some (inl e, st)
    | None => Some (inr tt, after_save_exif w output_path comment st)
    end.

(** Lines 41-75.  When [Image.open] raises, [filename] is not bound yet and
    the handler of line 75 raises [UnboundLocalError] in its turn. *)
Definition convert_single_image (w : ConversionWorker) (img_path : string) : M string :=
  fun st =>
    match image_open E (fs st) img_path with
    | inl _ => Some (inl (unbound_filename E), st)
    | inr img =>
        let filename := basename img_path in
        try_except
          (let* (_, output_path) := choose_output w img_path filename in
           save_webp w img output_path >>
           ret output_path)
          (fun e => raise ("Failed to convert " ++ filename ++ ": " ++ e))
          st
    end.

(** Lines 131-140: the [workflow] entry of [dict_of_info] after the inner
    [try]; the entry is replaced only when every step returned. *)
Definition filter_workflow (raw : option string) : outcome string :=
  match raw with
  | None => Raises                          (* json.loads(None) *)
  | Some s =>
      match json_loads E s with
      | None => Raises
      | Some c =>
          match filter_document c with
          | Returns c' => Returns (json_dumps E c')
          | Raises => Raises
          | OutOfFuel => OutOfFuel
          end
      end
  end.

(** The failures of the filter the specification names: the entry is
    absent, it is not valid JSON, or filtering the document raises. *)
Definition filter_fails (raw : option string) : Prop :=
  raw = None \/
  (exists s, raw = Some s /\ json_loads E s = None) \/
  (exists s c, raw = Some s /\ json_loads E s = Some c /\ filter_document c = Raises).

(** [dict_of_info.get("workflow", "")] at line 144. *)
Definition user_comment (raw : option string) : option string :=
  match filter_workflow raw with
  | Returns s => Some s
  | Raises => Some (default "" raw)
  | OutOfFuel => None
  end.

Definition newline : string := String (ascii_of_nat 10) EmptyString.

Definition png_only_message (filename : string) : string :=
  "Failed to convert " ++ filename ++ " with ComfyUI workflow." ++ newline ++
  "Consider using png files with workflow or uncheck keep ComfyUI workflow".

(** Lines 95-156. *)
Definition convert_single_image_with_metadata (w : ConversionWorker) (img_path : string)
  : M string :=
  fun st =>
    match image_open E (fs st) img_path with
    | inl _ => Some (inl (unbound_filename E), st)
    | inr img =>
        let filename := basename img_path in
        try_except
          (let* (_, output_path) := choose_output w img_path filename in
           if endswith ".png" (lower filename) then
             try_except
               (match user_comment (info_workflow E img) with
                | None => out_of_fuel
                | Some comment =>
                    save_webp_exif w img output_path ("Workflow:" ++ comment) >>
                    ret output_path
                end)
               (fun e => raise ("Failed to convert " ++ filename ++
                                " with ComfyUI workflow: " ++ e))
           else raise (png_only_message filename))
          (fun e => raise ("Failed to convert " ++ filename ++ ": " ++ e))
          st
    end.

(** The signals of the [QThread]. *)
Inductive signal : Type :=
  | progress (value : Z)
  | error_signal (msg : string)
  | finished_signal (renamed success : list string).

(** Lines 81-87 (and 162-168): the loop over the futures, from index [i];
    [total] is [len(futures)].  A future holds what its worker returned or
    raised.  The result is [success] and the signals in emission order. *)
Fixpoint collect (total i : nat) (futures : list (string + string))
  : list string * list signal :=
  match futures with
  | [] => ([], [])
  | future :: rest =>
      let '(success, signals) := collect total (S i) rest in
      match future with
      | inr result => (result :: success, progress (Double.percent i total) :: signals)
      | inl e => (success, error_signal e :: signals)
      end
  end.

(** *** The tasks as the threads of the pool run them *)

(** Where a task stands: each point is just before one call that reads or
    writes what the threads share, the file system and [renamed_files].
    Between two such calls a task works on its own variables only.  The
    line numbers are those of [convert_single_image]; the other worker has
    the same calls at lines 97, 110, 113, 117, 123 and 126-154. *)
Inductive pc : Type :=
  | AtOpen                               (* line 43: [Image.open] *)
  | AtMakedirs (img : Image E)           (* line 56: [os.makedirs] *)
  | AtIf (img : Image E)                 (* line 59: [os.path.exists] *)
  | AtWhile (img : Image E) (output_filename output_path : string) (counter : nat)
                                         (* line 63: [os.path.exists] *)
  | AtAppend (img : Image E) (output_filename output_path : string)
                                         (* line 69: [renamed_files.append] *)
  | AtSave (img : Image E) (output_path : string)
                                         (* line 72: [save] *)
  | Done (future : string + string).     (* returned, or raised *)

Definition is_done (c : pc) : bool :=
  match c with Done _ => true | _ => false end.

(** Line 72, and lines 126-154 when [metadata] is set: the last step of a
    task, before the handler of line 75 (line 156). *)
Definition save_step (metadata : bool) (w : ConversionWorker) (img : Image E)
    (filename output_path : string) : M unit :=
  if metadata then
    if endswith ".png" (lower filename) then
      try_except
        (match user_comment (info_workflow E img) with
         | None => out_of_fuel
         | Some comment => save_webp_exif w img output_path ("Workflow:" ++ comment)
         end)
        (fun e => raise ("Failed to convert " ++ filename ++
                         " with ComfyUI workflow: " ++ e))
    else raise (png_only_message filename)
  else save_webp w img output_path.

(** One step of the task of [img_path]: the call at [c], on the shared
    state as it is at that moment, and what the task does on its own up to
    its next call.  An exception ends the task through the handler of
    line 75 (line 156). *)
Definition thread_step (metadata : bool) (w : ConversionWorker) (img_path : string)
    (c : pc) (st : state) : option (pc * state) :=
  let filename := basename img_path in
  let output_dir := if use_same_folder w then dirname img_path else output_dir w in
  let first := fst (splitext filename) ++ ".webp" in
  let base_name := fst (splitext first) in
  let failed e := Done (inl ("Failed to convert " ++ filename ++ ": " ++ e)) in
  match c with
  | AtOpen =>
      match image_open E (fs st) img_path with
      | inl _ => Some (Done (inl (unbound_filename E)), st)
      | inr img => Some (AtMakedirs img, st)
      end
  | AtMakedirs img =>
      match os_makedirs output_dir st with
      | Some (inr _, st') => Some (AtIf img, st')
      | Some (inl e, st') => Some (failed e, st')
      | None => None
      end
  | AtIf img =>
      if path_exists (fs st) (join output_dir first)
      then Some (AtWhile img first (join output_dir first) 1, st)
      else Some (AtSave img (join output_dir first), st)
  | AtWhile img output_filename output_path counter =>
      if path_exists (fs st) output_path
      then Some (AtWhile img (numbered base_name counter)
                   (join output_dir (numbered base_name counter)) (S counter), st)
      else Some (AtAppend img output_filename output_path, st)
  | AtAppend img output_filename output_path =>
      match append_renamed (filename ++ " -> " ++ output_filename) st with
      | Some (_, st') => Some (AtSave img output_path, st')
      | None => None
      end
  | AtSave img output_path =>
      match save_step metadata w img filename output_path st with
      | Some (inr _, st') => Some (Done (inr output_path), st')
      | Some (inl e, st') => Some (failed e, st')
      | None => None
      end
  | Done future => Some (Done future, st)
  end.

(** The task of [img_path] from [c] to its end with no other thread in
    between, in at most [fuel] steps. *)
Fixpoint finish (fuel : nat) (metadata : bool) (w : ConversionWorker) (img_path : string)
    (c : pc) (st : state) : option ((string + string) * state) :=
  match c with
  | Done future => Some (future, st)
  | _ =>
      match fuel with
      | O => None
      | S fuel' =>
          match thread_step metadata w img_path c st with
          | Some (c', st') => finish fuel' metadata w img_path c' st'
          | None => None
          end
      end
  end.

(** More steps than a task has left when it runs alone: the loop of lines
    63-66 tests one name for each path that exists, at most, and one more;
    the other calls are six. *)
Definition patience (w : ConversionWorker) (img_path : string) (st : state) : nat :=
  let output_dir := if use_same_folder w then dirname img_path else output_dir w in
  size ({[ output_dir ]} ∪
        list_to_set (parents (String.length output_dir) output_dir) ∪ fs st) + 8.

(** [ThreadPoolExecutor(max_workers=self.cpu_count)] *)
Definition max_workers (w : ConversionWorker) : nat := cpu_count w.

(** The threads among [pcs] that are not done. *)
Fixpoint busy (pcs : list pc) : nat :=
  match pcs with
  | [] => 0
  | Done _ :: pcs' => busy pcs'
  | _ :: pcs' => S (busy pcs')
  end.

(** The workers take the tasks in the order of submission: task [i] has a
    worker once fewer than [max_workers] of the tasks before it are
    unfinished. *)
Definition has_worker (w : ConversionWorker) (pcs : list pc) (i : nat) : bool :=
  (busy (take i pcs) <? max_workers w)%nat.

(** The threads take steps in the order of [schedule], a list of indices
    into the tasks submitted.  An index that names no task, a task without
    a worker or a task that is done changes nothing. *)
Fixpoint pool_steps (metadata : bool) (w : ConversionWorker) (paths : list string)
    (schedule : list nat) (pcs : list pc) (st : state) : option (list pc * state) :=
  match schedule with
  | [] => Some (pcs, st)
  | i :: schedule' =>
      match paths !! i, pcs !! i with
      | Some img_path, Some c =>
          if has_worker w pcs i then
            match thread_step metadata w img_path c st with
            | Some (c', st') => pool_steps metadata w paths schedule' (<[i := c']> pcs) st'
            | None => None
            end
          else pool_steps metadata w paths schedule' pcs st
      | _, _ => pool_steps metadata w paths schedule' pcs st
      end
  end.

(** Leaving the [with] block waits for every task: the threads that are
    not done run to their end, one after the other. *)
Fixpoint drain (metadata : bool) (w : ConversionWorker) (paths : list string)
    (pcs : list pc) (st : state) : option (list (string + string) * state) :=
  match paths, pcs with
  | img_path :: paths', c :: pcs' =>
      match finish (patience w img_path st) metadata w img_path c st with
      | Some (future, st') =>
          match drain metadata w paths' pcs' st' with
          | Some (futures, st'') => Some (future :: futures, st'')
          | None => None
          end
      | None => None
      end
  | _, _ => Some ([], st)
  end.

(** Lines 78-79 (159-160), the pool at work: one task for each path; the
    threads interleave as [schedule] says, which can be any list, and then
    finish.  The result is what each future holds, in the order of
    submission, and the shared state at the end. *)
Definition run_tasks (metadata : bool) (w : ConversionWorker) (schedule : list nat)
    (paths : list string) (st : state) : option (list (string + string) * state) :=
  match pool_steps metadata w paths schedule (map (fun _ => AtOpen) paths) st with
  | Some (pcs, st') => drain metadata w paths pcs st'
  | None => None
  end.

(** [ends_with metadata w img_path c future]: the task of [img_path], now
    at [c], can end with [future], each of its steps taken on some state
    of what the threads share. *)
Inductive ends_with (metadata : bool) (w : ConversionWorker) (img_path : string)
  : pc -> string + string -> Prop :=
  | ends_done future : ends_with metadata w img_path (Done future) future
  | ends_step c st c' st' future :
      is_done c = false ->
      thread_step metadata w img_path c st = Some (c', st') ->
      ends_with metadata w img_path c' future ->
      ends_with metadata w img_path c future.

(** Lines 37-89 and 91-170 share everything but the task. *)
Definition convert_with (metadata : bool) (w : ConversionWorker) (schedule : list nat)
    (st : state) : option (list string * list string * list signal * state) :=
  match run_tasks metadata w schedule (file_paths w) st with
  | None => None
  | Some (futures, st') =>
      let '(success, signals) := collect (length futures) 0 futures in
      Some (renamed_files st', success, signals, st')
  end.

Definition convert_images_to_webp (w : ConversionWorker) :=
  convert_with false w.

Definition convert_images_to_webp_with_metadata (w : ConversionWorker) :=
  convert_with true w.

(** Lines 26-35: every signal of one run, in order. *)
Definition run (w : ConversionWorker) (schedule : list nat) (st : state)
  : option (list signal * state) :=
  match (if keep_workflow w then convert_images_to_webp_with_metadata w schedule st
         else convert_images_to_webp w schedule st) with
  | None => None
  | Some (renamed, success, signals, st') =>
      Some ((signals ++ [finished_signal renamed success])%list, st')
  end.

End WithEnv.

Arguments AtOpen {E}.
Arguments AtMakedirs {E} img.
Arguments AtIf {E} img.
Arguments AtWhile {E} img output_filename output_path counter.
Arguments AtAppend {E} img output_filename output_path.
Arguments AtSave {E} img output_path.
Arguments Done {E} future.
Arguments is_done {E} c.
Arguments busy {E} pcs.

(** The values of the [progress] signals and the texts of the
    [error_signal]s among [signals], in order. *)
Definition progress_values (signals : list signal) : list Z :=
  omap (fun s => match s with progress v => Some v | _ => None end) signals.

Definition error_messages (signals : list signal) : list string :=
  omap (fun s => match s with error_signal e => Some e | _ => None end) signals.

(** What the futures returned and what they raised, in order, and the
    indices, counted from [i], of the futures that returned. *)
Definition returned (futures : list (string + string)) : list string :=
  omap (fun f => match f with inr r => Some r | inl _ => None end) futures.

Definition raised (futures : list (string + string)) : list string :=
  omap (fun f => match f with inl e => Some e | inr _ => None end) futures.

Fixpoint returned_at (i : nat) (futures : list (string + string)) : list nat :=
  match futures with
  | [] => []
  | inr _ :: rest => i :: returned_at (S i) rest
  | inl _ :: rest => returned_at (S i) rest
  end.

(** The task [run] submits for each path, when no other thread takes a
    step between its own. *)
Definition task_of (E : Env) (w : ConversionWorker) : string -> M string :=
  if keep_workflow w then convert_single_image_with_metadata E w
  else convert_single_image E w.

(** The futures of the pool of [run]. *)
Definition futures_of (E : Env) (w : ConversionWorker) (schedule : list nat) (st : state)
  : option (list (string + string) * state) :=
  run_tasks E (keep_workflow w) w schedule (file_paths w) st.

(** The progress values as section 4.3 of the specification words them:
    one per completed task, failed or not, the [k]-th being
    [int(k / total * 100)]. *)
Definition spec_progress (total : nat) : list Z :=
  map (fun i => Double.percent i total) (seq 0 total).

End Engine.

(** ** What holds of a pool at every moment *)

Module Invariants.

Import Path Engine.

Section WithEnv.

Context (E : Env).

(** The paths returned by the threads that are done, in the order of
    submission. *)
Definition outputs (pcs : list (pc E)) : list string :=
  omap (fun c => match c with Done (inr output_path) => Some output_path | _ => None end) pcs.

(** The thread is past line 69: it has settled its output name. *)
Definition named (c : pc E) : bool :=
  match c with AtSave _ _ | Done _ => true | _ => false end.

(** A thread of a batch that started in [st0], the shared state being
    [st] now: the names it holds end in [.webp]; a path that passed the
    test of line 59 or of line 63 did not exist when the batch started;
    a path returned exists. *)
Definition sound (st0 st : state) (c : pc E) : Prop :=
  match c with
  | AtWhile _ output_filename output_path _ =>
      endswith ".webp" output_filename = true /\ endswith ".webp" output_path = true
  | AtAppend _ output_filename output_path =>
      endswith ".webp" output_filename = true /\ endswith ".webp" output_path = true /\
      (output_path ∉ fs st0)
  | AtSave _ output_path =>
      endswith ".webp" output_path = true /\ (output_path ∉ fs st0)
  | Done (inr output_path) =>
      endswith ".webp" output_path = true /\ (output_path ∉ fs st0) /\ output_path ∈ fs st
  | _ => True
  end.

(** A [save] of a batch that started in [st0]. *)
Definition batch_call (metadata : bool) (w : ConversionWorker) (st0 : state)
    (call : save_call) : Prop :=
  save_quality call = quality w /\
  (if metadata then exists text, save_exif call = Some ("Workflow:" ++ text)
   else save_exif call = None) /\
  (save_path call ∉ fs st0).

(** An entry that a task of [paths] appends to [renamed_files]. *)
Definition batch_entry (paths : list string) (entry : string) : Prop :=
  exists p fn, p ∈ paths /\ endswith ".webp" fn = true /\ entry = basename p ++ " -> " ++ fn.

(** The pool of a batch that started in [st0]. *)
Definition pool_inv (metadata : bool) (w : ConversionWorker) (paths : list string)
    (st0 : state) (pcs : list (pc E)) (st : state) : Prop :=
  fs st0 ⊆ fs st /\
  Forall (sound st0 st) pcs /\
  (exists calls,
     saved st = (saved st0 ++ calls)%list /\
     map save_path calls ≡ₚ outputs pcs /\
     Forall (batch_call metadata w st0) calls) /\
  (exists entries,
     renamed_files st = (renamed_files st0 ++ entries)%list /\
     length entries <= length (List.filter named pcs) /\
     Forall (batch_entry paths) entries).

End WithEnv.

End Invariants.

(** ** [ImageConverter]: what the window hands to the worker *)

Module Gui.

Import Engine.

(** The widgets and fields [convert_images] reads, and the spin box it does
    not read. *)
Record ImageConverter : Type := {
  checkbox : bool;                 (* 'Keep ComfyUI workflow' *)
  same_folder_checkbox : bool;     (* 'Save in same folder as original' *)
  cpu_spinbox : nat;               (* 'Number of threads:' *)
  quality_slider : Z;
  gui_file_paths : list string;
  gui_output_dir : string
}.

(** [ConversionWorker.__init__], lines 17-24; [hardware] is
    [multiprocessing.cpu_count()]. *)
Definition ConversionWorker_init (hardware : nat) (file_paths : list string)
    (output_dir : string) (quality : Z) (keep_workflow use_same_folder : bool)
  : ConversionWorker :=
  {| file_paths := file_paths; output_dir := output_dir; quality := quality;
     keep_workflow := keep_workflow; use_same_folder := use_same_folder;
     cpu_count := hardware |}.

(** Lines 287-322: the worker that is started, or [None] after one of the
    three warnings. *)
Definition convert_images (hardware : nat) (g : ImageConverter) : option ConversionWorker :=
  let quality := quality_slider g in
  if (quality <? 1)%Z || (100 <? quality)%Z then None
  else if bool_decide (gui_file_paths g = []) then None
  else if negb (same_folder_checkbox g) && String.eqb (gui_output_dir g) "" then None
  else Some (ConversionWorker_init hardware (gui_file_paths g) (gui_output_dir g)
               quality (checkbox g) (same_folder_checkbox g)).

End Gui.

(** ** A concrete environment, for running the engine on examples *)

Module Sample.

Import Path Json Engine.

Definition dq : string := String (ascii_of_nat 34) EmptyString.

(** [json.dumps] with its default separators, on documents whose strings
    need no escape; a float is written as its mantissa and exponent. *)
Fixpoint dumps (j : json) : string :=
  match j with
  | JNull => "null"
  | JBool b => if b then "true" else "false"
  | JInt z => pretty z
  | JFloat FNaN => "NaN"
  | JFloat (FInf n) => if n then "-Infinity" else "Infinity"
  | JFloat (FFinite m e) => pretty m ++ "e" ++ pretty e
  | JStr s => dq ++ s ++ dq
  | JArr l =>
      "[" ++
      (fix items (l : list json) : string :=
         match l with
         | [] => ""
         | [x] => dumps x
         | x :: l' => dumps x ++ ", " ++ items l'
         end) l ++ "]"
  | JObj kvs =>
      "{" ++
      (fix items (l : list (string * json)) : string :=
         match l with
         | [] => ""
         | [(k, v)] => dq ++ k ++ dq ++ ": " ++ dumps v
         | (k, v) :: l' => dq ++ k ++ dq ++ ": " ++ dumps v ++ ", " ++ items l'
         end) kvs ++ "}"
  end.

(** [json.loads] on the texts of the documents [docs]; it raises on any
    other text. *)
Definition loads (docs : list json) (s : string) : option json :=
  List.find (fun d => String.eqb (dumps d) s) docs.

(** An image is its file name and its [workflow] text chunk.  A file opens
    when it exists and its name does not end in [.broken]; directories
    named [readonly] refuse [makedirs] and, below them, [save]. *)
Definition env (docs : list json) (chunks : list (string * string)) : Env := {|
  Image := option string;
  image_open := fun files p =>
    if path_exists files p && negb (endswith ".broken" p)
    then inr (snd <$> List.find (fun kv => String.eqb (fst kv) p) chunks)
    else inl ("cannot identify image file '" ++ p ++ "'");
  info_workflow := fun img => img;
  makedirs_error := fun _ d =>
    if endswith "readonly" d then Some ("[Errno 13] Permission denied: '" ++ d ++ "'")
    else None;
  save_error := fun _ _ p _ =>
    if startswith "/readonly/" p then Some ("[Errno 13] Permission denied: '" ++ p ++ "'")
    else None;
  save_exif_error := fun _ _ p _ _ =>
    if startswith "/readonly/" p then Some ("[Errno 13] Permission denied: '" ++ p ++ "'")
    else None;
  json_loads := loads docs;
  json_dumps := dumps;
  unbound_filename :=
    "cannot access local variable 'filename' where it is not associated with a value"
|}.

Definition lora : json := JObj [("type", JStr "LoraInfo")].
Definition ksampler : json := JObj [("type", JStr "KSampler")].

Definition state_of (paths : list string) : state :=
  {| fs := list_to_set paths; renamed_files := []; saved := [] |}.

Definition worker (paths : list string) (out : string) (keep : bool) : ConversionWorker :=
  {| file_paths := paths; output_dir := out; quality := 87;
     keep_workflow := keep; use_same_folder := false; cpu_count := 8 |}.

(** What a computation returned or raised, with [renamed_files] and the
    files saved. *)
Definition observe {A} (r : option ((string + A) * state))
  : option ((string + A) * list string * list save_call) :=
  match r with
  | Some (x, st) => Some (x, renamed_files st, saved st)
  | None => None
  end.

(** A batch in metadata mode: a JPEG whose output name is taken, and a
    PNG whose [workflow] chunk is not JSON. *)
Definition env1 : Env := env [] [("/in/a.png", "not json")].
Definition worker1 : ConversionWorker := worker ["/in/X.jpg"; "/in/a.png"] "/out" true.
Definition state1 : state := state_of ["/in/X.jpg"; "/in/a.png"; "/out"; "/out/X.webp"].
(** [state1] after [os.makedirs("/out", exist_ok=True)]. *)
Definition state1_dirs : state :=
  set_fs (fun files => {[ "/out" ]} ∪ list_to_set (parents 4 "/out") ∪ files) state1.

(** A window with the spin box set to one thread. *)
Definition window : Gui.ImageConverter :=
  {| Gui.checkbox := false; Gui.same_folder_checkbox := false;
     Gui.cpu_spinbox := 1; Gui.quality_slider := 87;
     Gui.gui_file_paths := ["/in/a.png"]; Gui.gui_output_dir := "/out" |}.

(** A document with three nodes of type ['LoraInfo'], two of them in a
    row, and a document with one. *)
Definition adjacent_loras : json := JObj [("nodes", JArr [lora; ksampler; lora; lora])].
Definition one_lora : json := JObj [("nodes", JArr [ksampler; lora])].

End Sample.

(** ** What a filter may drop *)

Module Dropping.

Import Json.

(** [removes P l l']: [l'] is [l] with some elements that satisfy [P] taken
    out, the others in their order. *)
Inductive removes (P : json -> Prop) : list json -> list json -> Prop :=
  | removes_nil : removes P [] []
  | removes_keep x l l' : removes P l l' -> removes P (x :: l) (x :: l')
  | removes_drop x l l' : P x -> removes P l l' -> removes P (x :: l) l'.

End Dropping.

(** ** [ImageConverter]: the window, its slots and the signals it receives *)

Module Shell.

Import Path Engine Gui.

(** A [QMessageBox] that was shown: [warning] or [information], with its
    title and text. *)
Inductive icon : Type := Warning | Information.

Record message_box : Type := {
  box_icon : icon;
  box_title : string;
  box_text : string
}.

(** The window: the widgets and fields [convert_images] reads (as in
    [Gui.ImageConverter]), the texts of the labels, which buttons are
    enabled, the worker, and the message boxes shown so far, oldest
    first. *)
Record Window : Type := {
  widgets : ImageConverter;
  file_label : string;
  output_label : string;
  quality_label : string;
  progress_label : string;
  output_button_enabled : bool;
  output_label_enabled : bool;
  convert_button_enabled : bool;
  worker : option ConversionWorker;
  boxes : list message_box
}.

Definition set_widgets (f : ImageConverter -> ImageConverter) (win : Window) : Window :=
  {| widgets := f (widgets win);
     file_label := file_label win; output_label := output_label win;
     quality_label := quality_label win; progress_label := progress_label win;
     output_button_enabled := output_button_enabled win;
     output_label_enabled := output_label_enabled win;
     convert_button_enabled := convert_button_enabled win;
     worker := worker win; boxes := boxes win |}.

Definition set_file_paths (paths : list string) (g : ImageConverter) : ImageConverter :=
  {| checkbox := checkbox g; same_folder_checkbox := same_folder_checkbox g;
     cpu_spinbox := cpu_spinbox g; quality_slider := quality_slider g;
     gui_file_paths := paths; gui_output_dir := gui_output_dir g |}.

Definition set_output_dir (dir : string) (g : ImageConverter) : ImageConverter :=
  {| checkbox := checkbox g; same_folder_checkbox := same_folder_checkbox g;
     cpu_spinbox := cpu_spinbox g; quality_slider := quality_slider g;
     gui_file_paths := gui_file_paths g; gui_output_dir := dir |}.

Definition set_file_label (text : string) (win : Window) : Window :=
  {| widgets := widgets win;
     file_label := text; output_label := output_label win;
     quality_label := quality_label win; progress_label := progress_label win;
     output_button_enabled := output_button_enabled win;
     output_label_enabled := output_label_enabled win;
     convert_button_enabled := convert_button_enabled win;
     worker := worker win; boxes := boxes win |}.

Definition set_output_label (text : string) (win : Window) : Window :=
  {| widgets := widgets win;
     file_label := file_label win; output_label := text;
     quality_label := quality_label win; progress_label := progress_label win;
     output_button_enabled := output_button_enabled win;
     output_label_enabled := output_label_enabled win;
     convert_button_enabled := convert_button_enabled win;
     worker := worker win; boxes := boxes win |}.

Definition set_progress_label (text : string) (win : Window) : Window :=
  {| widgets := widgets win;
     file_label := file_label win; output_label := output_label win;
     quality_label := quality_label win; progress_label := text;
     output_button_enabled := output_button_enabled win;
     output_label_enabled := output_label_enabled win;
     convert_button_enabled := convert_button_enabled win;
     worker := worker win; boxes := boxes win |}.

Definition set_convert_enabled (b : bool) (win : Window) : Window :=
  {| widgets := widgets win;
     file_label := file_label win; output_label := output_label win;
     quality_label := quality_label win; progress_label := progress_label win;
     output_button_enabled := output_button_enabled win;
     output_label_enabled := output_label_enabled win;
     convert_button_enabled := b;
     worker := worker win; boxes := boxes win |}.

(** [QMessageBox.warning(self, title, text)] and
    [QMessageBox.information(self, title, text)] *)
Definition show_box (i : icon) (title text : string) (win : Window) : Window :=
  {| widgets := widgets win;
     file_label := file_label win; output_label := output_label win;
     quality_label := quality_label win; progress_label := progress_label win;
     output_button_enabled := output_button_enabled win;
     output_label_enabled := output_label_enabled win;
     convert_button_enabled := convert_button_enabled win;
     worker := worker win;
     boxes := boxes win ++ [ {| box_icon := i; box_title := title; box_text := text |} ] |}.

(** Lines 178-249; [hardware] is [multiprocessing.cpu_count()]. *)
Definition initUI (hardware : nat) : Window :=
  {| widgets := {| checkbox := false; same_folder_checkbox := false;
                   cpu_spinbox := hardware; quality_slider := 87;
                   gui_file_paths := []; gui_output_dir := "" |};
     file_label := "Select Images to Convert:";
     output_label := "Select Output Directory:";
     quality_label := "Enter WebP Quality (1-100): 87";
     progress_label := "";
     output_button_enabled := true;
     output_label_enabled := true;
     convert_button_enabled := true;
     worker := None;
     boxes := [] |}.

(** [Qt.Unchecked] and [Qt.Checked] *)
Definition Qt_Unchecked : Z := 0.
Definition Qt_Checked : Z := 2.

(** Lines 251-255. *)
Definition toggle_output_selection (state : Z) (win : Window) : Window :=
  let enabled := (state =? Qt_Unchecked)%Z in
  {| widgets := widgets win;
     file_label := file_label win; output_label := output_label win;
     quality_label := quality_label win; progress_label := progress_label win;
     output_button_enabled := enabled;
     output_label_enabled := enabled;
     convert_button_enabled := convert_button_enabled win;
     worker := worker win; boxes := boxes win |}.

(** Lines 257-259. *)
Definition update_quality_label (win : Window) : Window :=
  let current_value := quality_slider (widgets win) in
  {| widgets := widgets win;
     file_label := file_label win; output_label := output_label win;
     quality_label := "Enter WebP Quality (1-100): " ++ pretty current_value;
     progress_label := progress_label win;
     output_button_enabled := output_button_enabled win;
     output_label_enabled := output_label_enabled win;
     convert_button_enabled := convert_button_enabled win;
     worker := worker win; boxes := boxes win |}.

(** Lines 261-268; [chosen] is the list [QFileDialog.getOpenFileNames]
    returned, empty when the dialog was cancelled. *)
Definition select_images (chosen : list string) (win : Window) : Window :=
  let win := set_widgets (set_file_paths chosen) win in
  match chosen with
  | [] => win
  | _ :: _ => set_file_label ("Selected " ++ pretty (length chosen) ++ " image(s)") win
  end.

(** The extensions of line 277, and its test
    [file.lower().endswith(('.png', '.jpg', '.jpeg', '.bmp', '.tiff'))].
    [lower] on the ASCII letters decides the test as [str.lower] does: the
    one character outside ASCII whose lower case holds a letter of these
    extensions is U+0130, and it lowers to [i] followed by a combining dot,
    which completes none of the five suffixes. *)
Definition image_extensions : list string := [".png"; ".jpg"; ".jpeg"; ".bmp"; ".tiff"].

Definition is_image_name (file : string) : bool :=
  existsb (fun ext => endswith ext (lower file)) image_extensions.

(** Lines 270-280; [folder] is what [QFileDialog.getExistingDirectory]
    returned, empty when the dialog was cancelled, and [walk] is what
    [os.walk(folder)] yields: for each directory its path, its
    sub-directories and its files. *)
Definition select_folder (folder : string)
    (walk : list (string * list string * list string)) (win : Window) : Window :=
  if String.eqb folder "" then win
  else
    let paths :=
      flat_map (fun '(root, dirs, files) =>
                  map (fun file => join root file) (filter is_image_name files)) walk in
    set_file_label ("Selected " ++ pretty (length paths) ++
                    " image(s) from folder and subfolders")
      (set_widgets (set_file_paths paths) win).

(** Lines 282-285; [dir] is what [QFileDialog.getExistingDirectory]
    returned. *)
Definition select_output_directory (dir : string) (win : Window) : Window :=
  let win := set_widgets (set_output_dir dir) win in
  if String.eqb dir "" then win
  else set_output_label ("Selected Output Directory: " ++ dir) win.

(** Lines 287-322. *)
Definition convert_images (hardware : nat) (win : Window) : Window :=
  let g := widgets win in
  let quality := quality_slider g in
  if (quality <? 1)%Z || (100 <? quality)%Z then
    show_box Warning "Error" "Please enter a valid quality between 1 and 100." win
  else if bool_decide (gui_file_paths g = []) then
    show_box Warning "Error" "Please select at least one image file or folder." win
  else if negb (same_folder_checkbox g) && String.eqb (gui_output_dir g) "" then
    show_box Warning "Error" "Please select an output directory." win
  else
    {| widgets := g;
       file_label := file_label win; output_label := output_label win;
       quality_label := quality_label win;
       progress_label := "Converting...";
       output_button_enabled := output_button_enabled win;
       output_label_enabled := output_label_enabled win;
       convert_button_enabled := false;
       worker := Some (ConversionWorker_init hardware (gui_file_paths g) (gui_output_dir g)
                         quality (checkbox g) (same_folder_checkbox g));
       boxes := boxes win |}.

(** Lines 324-325. *)
Definition update_progress (value : Z) (win : Window) : Window :=
  set_progress_label ("Converting... " ++ pretty value ++ "%") win.

(** ["\n".join(lines)] *)
Fixpoint join_lines (lines : list string) : string :=
  match lines with
  | [] => ""
  | [line] => line
  | line :: rest => line ++ newline ++ join_lines rest
  end.

(** Lines 327-346. *)
Definition conversion_finished (renamed_files success : list string) (win : Window)
  : Window :=
  let win :=
    match renamed_files with
    | _ :: _ =>
        show_box Information "Process Completed"
          ("Converted " ++ pretty (length success) ++ " image(s)." ++ newline ++
           "The output directory contained files with identical names. " ++ newline ++
           "The following converted files have been renamed:" ++ newline ++
           join_lines renamed_files) win
    | [] =>
        show_box Information "Process Completed"
          ("Converted " ++ pretty (length success) ++ " image(s).") win
    end in
  set_widgets (set_file_paths [])
    (set_convert_enabled true
       (set_progress_label ""
          (set_file_label "Select Images to Convert:" win))).

(** Lines 348-351. *)
Definition conversion_error (error_message : string) (win : Window) : Window :=
  set_convert_enabled true
    (set_progress_label ""
       (show_box Warning "Error" ("Conversion failed: " ++ error_message) win)).

(** The slots of lines 319-321, by signal. *)
Definition on_signal (win : Window) (s : signal) : Window :=
  match s with
  | progress value => update_progress value win
  | error_signal msg => conversion_error msg win
  | finished_signal renamed success => conversion_finished renamed success win
  end.

(** What can happen to the window: the user ticks a check box, moves the
    slider or the spin box, closes one of the three dialogs, clicks
    'Convert to WebP', or a signal of the worker arrives. *)
Inductive event : Type :=
  | KeepWorkflowToggled (checked : bool)
  | SameFolderToggled (checked : bool)
  | SpinboxChanged (value : nat)
  | SliderMoved (value : Z)
  | ImagesChosen (chosen : list string)
  | FolderChosen (folder : string) (walk : list (string * list string * list string))
  | OutputChosen (dir : string)
  | ConvertClicked
  | SignalReceived (s : signal).

Definition set_checkbox (b : bool) (g : ImageConverter) : ImageConverter :=
  {| checkbox := b; same_folder_checkbox := same_folder_checkbox g;
     cpu_spinbox := cpu_spinbox g; quality_slider := quality_slider g;
     gui_file_paths := gui_file_paths g; gui_output_dir := gui_output_dir g |}.

Definition set_same_folder (b : bool) (g : ImageConverter) : ImageConverter :=
  {| checkbox := checkbox g; same_folder_checkbox := b;
     cpu_spinbox := cpu_spinbox g; quality_slider := quality_slider g;
     gui_file_paths := gui_file_paths g; gui_output_dir := gui_output_dir g |}.

Definition set_spinbox (n : nat) (g : ImageConverter) : ImageConverter :=
  {| checkbox := checkbox g; same_folder_checkbox := same_folder_checkbox g;
     cpu_spinbox := n; quality_slider := quality_slider g;
     gui_file_paths := gui_file_paths g; gui_output_dir := gui_output_dir g |}.

Definition set_slider (v : Z) (g : ImageConverter) : ImageConverter :=
  {| checkbox := checkbox g; same_folder_checkbox := same_folder_checkbox g;
     cpu_spinbox := cpu_spinbox g; quality_slider := v;
     gui_file_paths := gui_file_paths g; gui_output_dir := gui_output_dir g |}.

(** One event: the widget takes its new value, then the slot connected to
    it runs ([stateChanged] of the same-folder box to
    [toggle_output_selection], [valueChanged] of the slider to
    [update_quality_label]; the other check box and the spin box have no
    slot). *)
Definition step (hardware : nat) (win : Window) (ev : event) : Window :=
  match ev with
  | KeepWorkflowToggled b => set_widgets (set_checkbox b) win
  | SameFolderToggled b =>
      toggle_output_selection (if b then Qt_Checked else Qt_Unchecked)
        (set_widgets (set_same_folder b) win)
  | SpinboxChanged n => set_widgets (set_spinbox n) win
  | SliderMoved v => update_quality_label (set_widgets (set_slider v) win)
  | ImagesChosen chosen => select_images chosen win
  | FolderChosen folder walk => select_folder folder walk win
  | OutputChosen dir => select_output_directory dir win
  | ConvertClicked => convert_images hardware win
  | SignalReceived s => on_signal win s
  end.

(** A slider set up with [setRange(1, 100)] only reports values in that
    range. *)
Definition slider_in_range (ev : event) : Prop :=
  match ev with
  | SliderMoved v => (1 <= v <= 100)%Z
  | _ => True
  end.

(** What the three tests of [convert_images] decide. *)
Definition ready (g : ImageConverter) : Prop :=
  (1 <= quality_slider g <= 100)%Z /\
  gui_file_paths g <> [] /\
  (same_folder_checkbox g = true \/ gui_output_dir g <> "").

(** The warning box of [conversion_error]. *)
Definition error_box (msg : string) : message_box :=
  {| box_icon := Warning; box_title := "Error"; box_text := "Conversion failed: " ++ msg |}.

(** The text of the first warning of [convert_images]. *)
Definition quality_warning : string := "Please enter a valid quality between 1 and 100.".

End Shell.

(** ** More concrete inputs *)

Module SampleMore.

Import Path Json Engine Gui Shell Sample.

(** A worker in same-folder mode. *)
Definition same_folder_worker (keep : bool) : ConversionWorker :=
  {| file_paths := ["/in/X.png"]; output_dir := ""; quality := 87;
     keep_workflow := keep; use_same_folder := true; cpu_count := 8 |}.

(** A workflow with two nodes, none of type ['LoraInfo'], and the
    environment of a PNG that carries it. *)
Definition plain_workflow : json :=
  JObj [("nodes", JArr [ksampler; JObj [("type", JStr "VAEDecode"); ("id", JInt 7)]])].
Definition env2 : Env := env [plain_workflow] [("/in/a.png", dumps plain_workflow)].

(** What [os.walk] yields for a folder with one sub-directory. *)
Definition walk1 : list (string * list string * list string) :=
  [ ("/pics", ["old"], ["a.PNG"; "notes.txt"; "b.jpeg"]);
    ("/pics/old", [], ["c.tiff"; "d.webp"]) ].

(** A window with two images and an output directory chosen. *)
Definition window1 : Window :=
  select_output_directory "/out" (select_images ["/in/X.jpg"; "/in/a.png"] (initUI 8)).

(** Two inputs with one stem and one output directory, in plain mode, and
    a schedule on which each thread opens its image, makes the directory
    and tests [/out/X.webp] before either of them saves. *)
Definition racing_worker : ConversionWorker :=
  worker ["/in/X.png"; "/in/X.jpg"] "/out" false.
Definition racing_state : state := state_of ["/in/X.png"; "/in/X.jpg"].
Definition racing_schedule : list nat := [0; 0; 0; 1; 1; 1; 0; 1].

(** The same batch on a machine with one processor. *)
Definition single_worker : ConversionWorker :=
  {| file_paths := ["/in/X.png"; "/in/X.jpg"]; output_dir := "/out"; quality := 87;
     keep_workflow := false; use_same_folder := false; cpu_count := 1 |}.

(** What a pool ended with: the futures, [renamed_files] and the saves. *)
Definition pool_outcome (r : option (list (string + string) * state))
  : option (list (string + string) * list string * list save_call) :=
  match r with
  | Some (futures, st) => Some (futures, renamed_files st, saved st)
  | None => None
  end.

(** Where the threads of a pool stand, and whether [p] exists. *)
Definition standing {E : Env} (r : option (list (pc E) * state)) (p : string)
  : option (list (pc E) * bool) :=
  match r with
  | Some (pcs, st) => Some (pcs, path_exists (fs st) p)
  | None => None
  end.

(** A PNG whose [workflow] chunk is neither JSON nor ASCII: [caf] and the
    two bytes of U+00E9. *)
Definition accented : string :=
  "caf" ++ String (ascii_of_nat 195) (String (ascii_of_nat 169) EmptyString).
Definition env3 : Env := env [] [("/in/a.png", accented)].

(** A batch in metadata mode whose one input, a JPEG, does not exist. *)
Definition gone_worker : ConversionWorker := worker ["/in/gone.jpg"] "/out" true.

End SampleMore.

(** * Properties *)

(** ** Facts about strings, paths and the renaming loop *)

Module PathFacts.

Import Path Engine.

Lemma strlen_app (s t : string) : String.length (s ++ t) = String.length s + String.length t.
Proof. induction s as [|a s IH]; simpl; [done | by rewrite IH]. Qed.

Lemma app_inv_tail (t s1 s2 : string) : s1 ++ t = s2 ++ t -> s1 = s2.
Proof.
  revert s2. induction s1 as [|a s1 IH]; intros [|b s2] H; simpl in *.
  - done.
  - apply (f_equal String.length) in H. simpl in H. rewrite !strlen_app in H. simpl in H. lia.
  - apply (f_equal String.length) in H. simpl in H. rewrite !strlen_app in H. simpl in H. lia.
  - injection H as -> H. f_equal. by apply IH.
Qed.

Lemma numbered_inj b : Inj (=) (=) (numbered b).
Proof.
  intros j k H. unfold numbered in H.
  apply (inj (String.app b)) in H.
  apply (inj (String.app "_")) in H.
  apply app_inv_tail in H. by apply (inj pretty) in H.
Qed.

Lemma app_cons a (s t : string) : String a s ++ t = String a (s ++ t).
Proof. reflexivity. Qed.

Lemma startswith_numbered b k : startswith "/" (numbered b k) = startswith "/" b.
Proof.
  unfold numbered, startswith. destruct b as [|a b]; [reflexivity|].
  rewrite app_cons. cbn [startswith]. by destruct b.
Qed.

(** [join d] puts the same text before every numbered name. *)
Lemma join_numbered d b : exists pre, forall k, join d (numbered b k) = pre ++ numbered b k.
Proof.
  unfold join. destruct (startswith "/" b) eqn:Hb.
  - exists "". intros k. by rewrite startswith_numbered, Hb.
  - destruct (String.eqb d "" || endswith "/" d).
    + exists d. intros k. by rewrite startswith_numbered, Hb.
    + exists (d ++ "/"). intros k. rewrite startswith_numbered, Hb.
      clear. induction d as [|a d IH]; [done|]. rewrite !app_cons. by f_equal.
Qed.

Lemma join_numbered_inj d b : Inj (=) (=) (fun k => join d (numbered b k)).
Proof.
  destruct (join_numbered d b) as [pre Hpre]. intros j k H.
  rewrite !Hpre in H. apply (inj (String.app pre)) in H.
  by apply numbered_inj in H.
Qed.

Lemma path_exists_true files p : path_exists files p = true <-> p ∈ files.
Proof. unfold path_exists. apply bool_decide_eq_true. Qed.

Lemma path_exists_false files p : path_exists files p = false <-> p ∉ files.
Proof. unfold path_exists. apply bool_decide_eq_false. Qed.

(** When the loop runs out of fuel, every name it tried exists. *)
Lemma rename_loop_None fuel files d b fn p c :
  rename_loop fuel files d b fn p c = None ->
  forall k, c <= k < c + fuel -> join d (numbered b k) ∈ files.
Proof.
  revert fn p c. induction fuel as [|fuel IH]; intros fn p c H k Hk; [lia|].
  simpl in H. destruct (path_exists files p) eqn:Hp; [|done].
  destruct fuel as [|fuel].
  - assert (k = c) as -> by lia. simpl in H.
    destruct (path_exists files (join d (numbered b c))) eqn:Hc; [|done].
    by apply path_exists_true.
  - destruct (decide (k = c)) as [->|Hne].
    + remember (S fuel) as f. rewrite Heqf in H. simpl in H.
      destruct (path_exists files (join d (numbered b c))) eqn:Hc; [|done].
      by apply path_exists_true.
    + apply (IH _ _ _ H). lia.
Qed.

(** More fuel than there are files is enough. *)
Lemma rename_loop_total fuel files d b fn p c :
  size files < fuel -> is_Some (rename_loop fuel files d b fn p c).
Proof.
  intros Hfuel. destruct (rename_loop _ _ _ _ _ _ _) as [r|] eqn:H; [by eexists|].
  exfalso. pose proof (rename_loop_None _ _ _ _ _ _ _ H) as Hall.
  set (tried := (fun k => join d (numbered b k)) <$> seq c fuel).
  assert (NoDup tried) as Hnd.
  { apply NoDup_fmap_2; [apply join_numbered_inj | apply NoDup_seq]. }
  assert (tried ⊆+ elements files) as Hsub.
  { apply NoDup_submseteq; [done|]. intros x Hx.
    apply list_elem_of_fmap in Hx as (k & -> & Hk). apply elem_of_seq in Hk.
    apply elem_of_elements, Hall. lia. }
  apply submseteq_length in Hsub. unfold tried in Hsub.
  rewrite length_fmap, length_seq in Hsub.
  change (length (elements files)) with (size files) in Hsub. lia.
Qed.

(** What the loop returns: a name that does not exist, reached through
    names that all exist. *)
Lemma rename_loop_Some fuel files d b fn p c fn' p' :
  rename_loop fuel files d b fn p c = Some (fn', p') ->
  (p' ∉ files) /\
  ((fn' = fn /\ p' = p) \/
   (p ∈ files /\ exists k, c <= k /\ fn' = numbered b k /\ p' = join d fn' /\
       forall j, c <= j < k -> join d (numbered b j) ∈ files)).
Proof.
  revert fn p c. induction fuel as [|fuel IH]; intros fn p c H; simpl in H.
  - destruct (path_exists files p) eqn:Hp; [done|]. injection H as <- <-.
    apply path_exists_false in Hp. auto.
  - destruct (path_exists files p) eqn:Hp.
    + apply path_exists_true in Hp.
      apply IH in H as [Hfree [[-> ->]|(Hc & k & Hk & -> & -> & Hbelow)]].
      * split; [done|]. right. split; [done|]. exists c. repeat split; [lia|..]; try done. 
        intros j Hj. lia.
      * split; [done|]. right. split; [done|]. exists k. repeat split; [lia|..]; try done.
        intros j Hj. destruct (decide (j = c)) as [->|]; [done|]. apply Hbelow. lia.
    + injection H as <- <-. apply path_exists_false in Hp. auto.
Qed.

Lemma contains_app c s t : contains c (s ++ t) = contains c s || contains c t.
Proof.
  induction s as [|a s IH]; [done|]. rewrite app_cons. simpl. rewrite IH.
  by rewrite orb_assoc.
Qed.

Lemma rsplit_after_app c p : fst (rsplit_after c p) ++ snd (rsplit_after c p) = p.
Proof.
  induction p as [|a p IH]; [done|]. simpl.
  destruct (rsplit_after c p) as [h t]. cbn [fst snd] in IH.
  destruct h as [|b h].
  - change ("" ++ t) with t in IH. subst t. by destruct (Ascii.eqb a c).
  - cbn [fst snd]. rewrite app_cons. by rewrite IH.
Qed.

Lemma rsplit_after_tail c p : contains c (snd (rsplit_after c p)) = false.
Proof.
  induction p as [|a p IH]; [done|]. simpl.
  destruct (rsplit_after c p) as [h t] eqn:Hp. simpl in IH.
  destruct h as [|b h]; [|done].
  destruct (Ascii.eqb a c) eqn:Hac; simpl; [done|]. by rewrite Hac.
Qed.

Lemma rsplit_after_absent c s : contains c s = false -> rsplit_after c s = ("", s).
Proof.
  induction s as [|a s IH]; [done|]. simpl. intros [Ha Hs]%orb_false_elim.
  by rewrite (IH Hs), Ha.
Qed.

Lemma rsplit_before_app c s : fst (rsplit_before c s) ++ snd (rsplit_before c s) = s.
Proof.
  induction s as [|a s IH]; [done|]. simpl.
  destruct (rsplit_before c s) as [pre ext]. cbn [fst snd] in IH.
  destruct ext as [|b ext].
  - destruct (Ascii.eqb a c); [done|]. cbn [fst snd]. rewrite app_cons. by rewrite IH.
  - cbn [fst snd]. rewrite app_cons. by rewrite IH.
Qed.

Lemma rsplit_before_last c t u :
  contains c u = false -> rsplit_before c (t ++ String c u) = (t, String c u).
Proof.
  intros Hu. induction t as [|a t IH].
  - change ("" ++ String c u) with (String c u). simpl.
    assert (rsplit_before c u = (u, "")) as ->.
    { clear -Hu. induction u as [|a u IH]; [done|]. simpl in *.
      apply orb_false_elim in Hu as [Ha Hu]. by rewrite (IH Hu), Ha. }
    by rewrite Ascii.eqb_refl.
  - rewrite app_cons. simpl. by rewrite IH.
Qed.

(** The stem of a file name has no separator, and is made of dots only
    when the file name is. *)
Lemma splitext_name s :
  contains sep s = false ->
  contains sep (fst (splitext s)) = false /\
  (all_char extsep s = false -> all_char extsep (fst (splitext s)) = false).
Proof.
  intros Hs. unfold splitext. rewrite (rsplit_after_absent _ _ Hs).
  pose proof (rsplit_before_app extsep s) as Happ.
  destruct (rsplit_before extsep s) as [pre ext]. simpl in Happ.
  destruct (negb (String.eqb ext "") && negb (all_char extsep pre)) eqn:Hc; simpl.
  - apply andb_prop in Hc as [_ Hc%negb_true_iff]. split; [|done].
    rewrite <- Happ, contains_app in Hs. by apply orb_false_elim in Hs as [? _].
  - done.
Qed.

(** Line 60 finds the stem of line 52 again, unless the name of the input
    consists of dots only. *)
Lemma base_name_stem (img_path : string) :
  let filename := basename img_path in
  let stem := fst (splitext filename) in
  all_char extsep filename = false ->
  fst (splitext (stem ++ ".webp")) = stem.
Proof.
  intros filename stem Hdots.
  destruct (splitext_name filename (rsplit_after_tail sep img_path)) as [Hsep Hstem].
  specialize (Hstem Hdots). fold stem in Hsep, Hstem.
  unfold splitext. rewrite rsplit_after_absent.
  2:{ rewrite contains_app, Hsep. reflexivity. }
  change ".webp" with (String extsep "webp").
  rewrite rsplit_before_last by reflexivity.
  rewrite Hstem. reflexivity.
Qed.

(** Suffixes *)

Lemma endswith_refl suf : endswith suf suf = true.
Proof. destruct suf; cbn [endswith]; by rewrite String.eqb_refl. Qed.

Lemma endswith_app suf s t : endswith suf t = true -> endswith suf (s ++ t) = true.
Proof.
  intros H. induction s as [|a s IH]; [done|].
  rewrite app_cons. cbn [endswith]. rewrite IH. apply orb_true_r.
Qed.

Lemma join_app d f : exists pre, join d f = pre ++ f.
Proof.
  unfold join. destruct (startswith "/" f); [by exists ""|].
  destruct (String.eqb d "" || endswith "/" d); [by exists d|].
  exists (d ++ "/"). clear. induction d as [|a d IH]; [done|]. rewrite !app_cons. by f_equal.
Qed.

Lemma endswith_join suf d f : endswith suf f = true -> endswith suf (join d f) = true.
Proof. intros H. destruct (join_app d f) as [pre ->]. by apply endswith_app. Qed.

Lemma numbered_webp b k : endswith ".webp" (numbered b k) = true.
Proof.
  unfold numbered. do 3 apply endswith_app. apply endswith_refl.
Qed.

(** No digit is a separator. *)
End PathFacts.

(** ** Output names: collisions and [renamed_files] *)

Module Naming.

Import Path Json Engine PathFacts.

Section WithEnv.

Context (E : Env).

(** What [resolve_output] does, in full. *)
Lemma resolve_output_spec filename d fn p st :
  exists fn' p' st',
    resolve_output filename d fn p st = Some (inr (fn', p'), st') /\
    fs st' = fs st /\ saved st' = saved st /\ (p' ∉ fs st) /\
    (p ∉ fs st -> fn' = fn /\ p' = p /\ st' = st) /\
    (p ∈ fs st ->
       renamed_files st' = (renamed_files st ++ [(filename ++ " -> " ++ fn')%string])%list /\
       exists k, 1 <= k /\ fn' = numbered (fst (splitext fn)) k /\ p' = join d fn' /\
         forall j, 1 <= j < k -> join d (numbered (fst (splitext fn)) j) ∈ fs st).
Proof.
  unfold resolve_output, bind, get_fs. 
  destruct (path_exists (fs st) p) eqn:Hp.
  - apply path_exists_true in Hp.
    destruct (rename_loop_total (S (size (fs st))) (fs st) d (fst (splitext fn)) fn p 1)
      as [[fn' p'] Hloop]; [lia|].
    rewrite Hloop. simpl.
    apply rename_loop_Some in Hloop as [Hfree [[-> ->]|(_ & k & Hk & -> & -> & Hbelow)]];
      [done|].
    eexists _, _, _. split; [reflexivity|]. simpl.
    repeat split; try done. exists k. repeat split; try done.
  - apply path_exists_false in Hp. exists fn, p, st. unfold ret. repeat split; try done.
Qed.


Lemma os_makedirs_inv d st :
  (exists e, os_makedirs E d st = Some (inl e, st)) \/
  (exists st1, os_makedirs E d st = Some (inr tt, st1) /\
     d ∈ fs st1 /\ fs st ⊆ fs st1 /\
     renamed_files st1 = renamed_files st /\ saved st1 = saved st).
Proof.
  unfold os_makedirs. destruct (String.eqb d ""); [left; by eexists|].
  destruct (makedirs_error E (fs st) d); [left; by eexists|].
  right. eexists. split; [done|]. simpl. set_solver.
Qed.

Lemma choose_output_unfold w img_path filename st :
  choose_output E w img_path filename st =
    let d := if use_same_folder w then dirname img_path else output_dir w in
    let first := fst (splitext filename) ++ ".webp" in
    match os_makedirs E d st with
    | Some (inr _, st1) => resolve_output filename d first (join d first) st1
    | Some (inl e, st1) => Some (inl e, st1)
    | None => None
    end.
Proof.
  unfold choose_output, bind. by destruct (os_makedirs _ _ _) as [[[e|[]] st1]|].
Qed.

(** [choose_output] raises, or returns a path that does not exist; it
    removes no file and saves none. *)
Lemma choose_output_cases w img_path filename st :
  (exists e st2, choose_output E w img_path filename st = Some (inl e, st2)) \/
  (exists fn p st2,
     choose_output E w img_path filename st = Some (inr (fn, p), st2) /\
     (p ∉ fs st2) /\ fs st ⊆ fs st2 /\ saved st2 = saved st).
Proof.
  rewrite choose_output_unfold. cbv zeta.
  set (d := if use_same_folder w then dirname img_path else output_dir w).
  set (first := fst (splitext filename) ++ ".webp").
  destruct (os_makedirs_inv d st) as [[e ->]|(st1 & -> & _ & Hsub & _ & Hsaved)].
  - left. by eexists _, _.
  - destruct (resolve_output_spec filename d first (join d first) st1)
      as (fn & p & st2 & -> & Hfs & Hsv & Hfree & _).
    right. exists fn, p, st2. rewrite Hfs, Hsv. done.
Qed.

(** A task that returns has saved one file, under the path it returns, and
    that path did not exist when the task started. *)
Lemma task_saves_fresh w img_path st out st' :
  task_of E w img_path st = Some (inr out, st') ->
  (out ∉ fs st) /\ fs st ⊆ fs st' /\
  exists call, saved st' = (saved st ++ [call])%list /\ save_path call = out.
Proof.
  unfold task_of, convert_single_image, convert_single_image_with_metadata.
  destruct (keep_workflow w);
    (destruct (image_open E (fs st) img_path) as [e|img]; [done|]);
    unfold try_except, bind;
    (destruct (choose_output_cases w img_path (basename img_path) st)
      as [(e & st2 & ->)|(fn & p & st2 & -> & Hfree & Hsub & Hsaved)]; [done|]).
  - destruct (endswith _ _); [|done].
    destruct (user_comment E (info_workflow E img)) as [comment|]; [|done].
    unfold save_webp_exif, ret.
    destruct (save_exif_error _ _ _ _ _ _); [done|]. intros [= <- <-]. simpl.
    split; [set_solver|]. split; [set_solver|]. eexists. by rewrite Hsaved.
  - unfold save_webp, ret.
    destruct (save_error _ _ _ _ _); [done|]. intros [= <- <-]. simpl.
    split; [set_solver|]. split; [set_solver|]. eexists. by rewrite Hsaved.
Qed.

(** The output path of one input, for a task that no other thread
    interrupts between the check and the write ([Race] has two tasks that
    interleave there).  Once [os.makedirs] has returned (in state
    [st1]), lines 52-69 return the first name, [stem.webp] in the output
    directory, when no such path exists; otherwise they return
    [base_name_k.webp] for the least [k >= 1] whose path does not exist.
    The path returned never exists, and nothing else changes in the file
    system; when [os.makedirs] raises, no path is chosen.  So a task that
    returns has written one file, at a path that did not exist, and every
    path that existed still does. *)
Lemma output_path_resolution (w : ConversionWorker) (img_path : string) (st : state) :
  let filename := basename img_path in
  let d := if use_same_folder w then dirname img_path else output_dir w in
  let first := fst (splitext filename) ++ ".webp" in
  let base_name := fst (splitext first) in
  match os_makedirs E d st with
  | Some (inr _, st1) =>
      exists fn p st2,
        choose_output E w img_path filename st = Some (inr (fn, p), st2) /\
        fs st2 = fs st1 /\ p = join d fn /\ (p ∉ fs st1) /\
        (join d first ∉ fs st1 -> fn = first) /\
        (join d first ∈ fs st1 ->
           exists k, 1 <= k /\ fn = numbered base_name k /\
             forall j, 1 <= j < k -> join d (numbered base_name j) ∈ fs st1)
  | Some (inl e, st1) =>
      choose_output E w img_path filename st = Some (inl e, st) /\ st1 = st
  | None => False
  end /\
  (forall out st',
     task_of E w img_path st = Some (inr out, st') ->
     (out ∉ fs st) /\ fs st ⊆ fs st' /\
     exists call, saved st' = (saved st ++ [call])%list /\ save_path call = out).
Proof.
  intros filename d first base_name. split; [|apply task_saves_fresh].
  rewrite choose_output_unfold. cbv zeta.
  fold filename d first.
  destruct (os_makedirs_inv d st) as [[e ->]|(st1 & -> & _)]; [done|].
  destruct (resolve_output_spec filename d first (join d first) st1)
    as (fn & p & st2 & -> & Hfs & _ & Hfree & Hno & Hyes).
  exists fn, p, st2. repeat split; try done.
  - destruct (decide (join d first ∈ fs st1)) as [Hin|Hout].
    + by destruct (Hyes Hin) as (_ & k & _ & _ & -> & _).
    + destruct (Hno Hout) as (-> & -> & _). done.
  - intros Hout. by destruct (Hno Hout) as (-> & _).
  - intros Hin. destruct (Hyes Hin) as (_ & k & Hk & -> & _ & Hbelow). by exists k.
Qed.

(** [choose_output] always returns or raises, and saves nothing. *)
Lemma choose_output_total w img_path filename st :
  exists r st', choose_output E w img_path filename st = Some (r, st') /\
    saved st' = saved st /\ fs st ⊆ fs st'.
Proof.
  rewrite choose_output_unfold. cbv zeta.
  set (d := if use_same_folder w then dirname img_path else output_dir w).
  set (first := fst (splitext filename) ++ ".webp").
  destruct (os_makedirs_inv d st) as [[e ->]|(st1 & -> & _ & Hsub & _ & Hsaved)].
  - by eexists _, _.
  - destruct (resolve_output_spec filename d first (join d first) st1)
      as (fn & p & st2 & -> & Hfs & Hsv & _).
    eexists _, _. split; [done|]. rewrite Hsv, Hfs. done.
Qed.

(** C4, as the code has it.  Once [os.makedirs] has returned, lines 58-69
    append exactly one entry to [renamed_files] when the first name is
    taken, and none otherwise; the entry is the name of the input file
    (not the first output name), [" -> "], and the name chosen.  When
    [os.makedirs] raises, nothing is appended. *)
Theorem rename_record_appended (w : ConversionWorker) (img_path : string) (st : state) :
  let filename := basename img_path in
  let d := if use_same_folder w then dirname img_path else output_dir w in
  let first := fst (splitext filename) ++ ".webp" in
  match os_makedirs E d st with
  | Some (inr _, st1) =>
      exists fn p st2,
        choose_output E w img_path filename st = Some (inr (fn, p), st2) /\
        (join d first ∉ fs st1 ->
           fn = first /\ renamed_files st2 = renamed_files st) /\
        (join d first ∈ fs st1 ->
           fn <> first /\
           renamed_files st2 =
             (renamed_files st ++ [(filename ++ " -> " ++ fn)%string])%list)
  | Some (inl e, st1) =>
      choose_output E w img_path filename st = Some (inl e, st)
  | None => False
  end.
Proof.
  intros filename d first. rewrite choose_output_unfold. cbv zeta.
  fold filename d first.
  destruct (os_makedirs_inv d st) as [[e ->]|(st1 & -> & _ & _ & Hren & _)]; [done|].
  destruct (resolve_output_spec filename d first (join d first) st1)
    as (fn & p & st2 & -> & Hfs & _ & Hfree & Hno & Hyes).
  exists fn, p, st2. split; [done|]. split.
  - intros Hout. destruct (Hno Hout) as (-> & _ & ->). done.
  - intros Hin. destruct (Hyes Hin) as (-> & k & _ & _ & Hp & _).
    rewrite Hren. split; [|done]. intros ->. by subst p.
Qed.

(** The worker of the metadata mode on a name that does not end in
    [.png], once the image is open. *)
Lemma metadata_worker_not_png w img_path st img :
  endswith ".png" (lower (basename img_path)) = false ->
  image_open E (fs st) img_path = inr img ->
  convert_single_image_with_metadata E w img_path st =
    match choose_output E w img_path (basename img_path) st with
    | Some (inr _, st2) =>
        Some (inl ("Failed to convert " ++ basename img_path ++ ": " ++
                   png_only_message (basename img_path)), st2)
    | Some (inl e, st2) =>
        Some (inl ("Failed to convert " ++ basename img_path ++ ": " ++ e), st2)
    | None => None
    end.
Proof.
  intros Hpng Hopen. unfold convert_single_image_with_metadata.
  rewrite Hopen. unfold try_except, bind.
  destruct (choose_output _ _ _ _ _) as [[[e|[fn p]] st2]|]; [done| |done].
  by rewrite Hpng.
Qed.

(** C10.  In metadata mode, on an input that opens and whose name does not
    end in [.png], the effects of lines 98-123 are there when the format
    check raises: once [os.makedirs] has returned the output directory
    exists, an entry is in [renamed_files] when the first name was taken,
    the worker raises the PNG-only message, and no file is saved. *)
Theorem not_png_side_effects (w : ConversionWorker) (img_path : string) (st st1 : state)
    (img : Image E) :
  let filename := basename img_path in
  let d := if use_same_folder w then dirname img_path else output_dir w in
  let first := fst (splitext filename) ++ ".webp" in
  endswith ".png" (lower filename) = false ->
  image_open E (fs st) img_path = inr img ->
  os_makedirs E d st = Some (inr tt, st1) ->
  exists st2,
    convert_single_image_with_metadata E w img_path st =
      Some (inl ("Failed to convert " ++ filename ++ ": " ++ png_only_message filename), st2) /\
    d ∈ fs st2 /\ fs st2 = fs st1 /\ saved st2 = saved st /\
    (join d first ∉ fs st1 -> renamed_files st2 = renamed_files st) /\
    (join d first ∈ fs st1 ->
       exists fn, fn <> first /\ (join d fn ∉ fs st1) /\
         renamed_files st2 =
           (renamed_files st ++ [(filename ++ " -> " ++ fn)%string])%list).
Proof.
  intros filename d first Hpng Hopen Hmk.
  rewrite (metadata_worker_not_png _ _ _ _ Hpng Hopen). fold filename.
  rewrite choose_output_unfold. cbv zeta. fold d first. rewrite Hmk.
  destruct (os_makedirs_inv d st) as [[e He]|(st1' & Hmk' & Hd & _ & Hren & Hsaved)];
    [congruence|].
  assert (st1' = st1) as -> by congruence.
  destruct (resolve_output_spec filename d first (join d first) st1)
    as (fn & p & st2 & -> & Hfs & Hsv & Hfree & Hno & Hyes).
  exists st2. split; [done|]. rewrite Hfs, Hsv. repeat split; try done.
  - intros Hout. destruct (Hno Hout) as (_ & _ & ->). done.
  - intros Hin. destruct (Hyes Hin) as (-> & k & _ & _ & Hp & _).
    exists fn. rewrite Hren. subst p. repeat split; try done. by intros ->.
Qed.

End WithEnv.

End Naming.

(** ** The percentage is monotone *)

Module DoubleFacts.

Import Double.

Local Open Scope Q_scope.

Lemma pow2_pos (z : Z) : 0 < 2 ^ z.
Proof. apply Qpower_0_lt. reflexivity. Qed.

Lemma pow2_plus (n m : Z) : 2 ^ (n + m) == 2 ^ n * 2 ^ m.
Proof. apply Qpower_plus. discriminate. Qed.

Lemma pow2_le (n m : Z) : (n <= m)%Z -> 2 ^ n <= 2 ^ m.
Proof. intros H. apply Qpower_le_compat_l; [exact H | discriminate]. Qed.

Lemma pow2_inject (n : Z) : (0 <= n)%Z -> inject_Z (2 ^ n) == 2 ^ n.
Proof. intros H. rewrite Zpower_Qpower by exact H. reflexivity. Qed.

Lemma floor_bounds (x : Q) : inject_Z (Qfloor x) <= x /\ x < inject_Z (Qfloor x) + 1.
Proof.
  split; [apply Qfloor_le|].
  pose proof (Qlt_floor x) as H. rewrite inject_Z_plus in H. exact H.
Qed.

Lemma round_half_even_bounds (x : Q) :
  (Qfloor x <= round_half_even x <= Qfloor x + 1)%Z.
Proof.
  unfold round_half_even.
  destruct (Qcompare _ _); [destruct (Z.even _)| |]; lia.
Qed.

Lemma round_half_even_mono (x y : Q) : x <= y -> (round_half_even x <= round_half_even y)%Z.
Proof.
  intros Hxy.
  pose proof (Qfloor_resp_le _ _ Hxy) as Hq.
  pose proof (round_half_even_bounds x) as Hx.
  pose proof (round_half_even_bounds y) as Hy.
  destruct (Z.eq_dec (Qfloor x) (Qfloor y)) as [Heq|Hne]; [|lia].
  unfold round_half_even in *. rewrite <- Heq in *.
  set (q := Qfloor x) in *.
  destruct (Qcompare (x - inject_Z q) (1 # 2)) eqn:Cx;
    destruct (Qcompare (y - inject_Z q) (1 # 2)) eqn:Cy;
    try (destruct (Z.even q)); try lia; exfalso;
    first [apply Qeq_alt in Cx | apply Qlt_alt in Cx | apply Qgt_alt in Cx];
    first [apply Qeq_alt in Cy | apply Qlt_alt in Cy | apply Qgt_alt in Cy];
    lra.
Qed.

(** [exponent x] is the binary exponent of [x]. *)
Lemma exponent_spec (x : Q) : 0 < x -> 2 ^ exponent x <= x /\ x < 2 ^ (exponent x + 1).
Proof.
  intros Hx. destruct x as [a b]. 
  assert (0 < a)%Z as Ha. { unfold Qlt in Hx. simpl in Hx. lia. }
  unfold exponent. cbn [Qnum Qden].
  set (la := Z.log2 a). set (lb := Z.log2 (Z.pos b)).
  assert (0 <= la)%Z as Hla0 by apply Z.log2_nonneg.
  assert (0 <= lb)%Z as Hlb0 by apply Z.log2_nonneg.
  destruct (Z.log2_spec a Ha) as [Ha1 Ha2]. fold la in Ha1, Ha2.
  destruct (Z.log2_spec (Z.pos b) (Pos2Z.is_pos b)) as [Hb1 Hb2]. fold lb in Hb1, Hb2.
  set (x := a # b) in *.
  assert (x * inject_Z (Z.pos b) == inject_Z a) as Hxb.
  { unfold x. rewrite (Qmake_Qdiv a b). field. discriminate. }
  assert (2 ^ la <= inject_Z a) as HA1.
  { rewrite <- pow2_inject by lia. rewrite <- Zle_Qle. exact Ha1. }
  assert (inject_Z a < 2 ^ (la + 1)) as HA2.
  { rewrite <- pow2_inject by lia. rewrite <- Zlt_Qlt. exact Ha2. }
  assert (2 ^ lb <= inject_Z (Z.pos b)) as HB1.
  { rewrite <- pow2_inject by lia. rewrite <- Zle_Qle. exact Hb1. }
  assert (inject_Z (Z.pos b) < 2 ^ (lb + 1)) as HB2.
  { rewrite <- pow2_inject by lia. rewrite <- Zlt_Qlt. exact Hb2. }
  assert (2 ^ (la - lb - 1) < x) as Hlow.
  { assert (2 ^ la == 2 ^ (la - lb - 1) * 2 ^ (lb + 1)) as Hp.
    { rewrite <- pow2_plus. apply Qpower_comp; [reflexivity | lia]. } 
    pose proof (pow2_pos (la - lb - 1)). pose proof (pow2_pos (lb + 1)).
    nra. }
  assert (x < 2 ^ (la - lb + 1)) as Hhigh.
  { assert (2 ^ (la + 1) == 2 ^ (la - lb + 1) * 2 ^ lb) as Hp.
    { rewrite <- pow2_plus. apply Qpower_comp; [reflexivity | lia]. } 
    pose proof (pow2_pos (la - lb + 1)). pose proof (pow2_pos lb).
    nra. }
  destruct (Qle_bool (2 ^ (la - lb)) x) eqn:Hc.
  - apply Qle_bool_iff in Hc. split; [exact Hc | exact Hhigh].
  - split; [apply Qlt_le_weak; exact Hlow|].
    replace (la - lb - 1 + 1)%Z with (la - lb)%Z by lia.
    apply Qnot_le_lt. intros Hle. apply Qle_bool_iff in Hle. congruence.
Qed.

Lemma round53_pos (x : Q) :
  0 < x -> round53 x = inject_Z (round_half_even (x / 2 ^ (exponent x - 52))) * 2 ^ (exponent x - 52).
Proof.
  intros Hx. unfold round53. destruct (Qle_bool x 0) eqn:Hc; [|reflexivity].
  apply Qle_bool_iff in Hc. lra.
Qed.

(** The rounded value stays in the binade of [x], its upper end included. *)
Lemma round53_binade (x : Q) :
  0 < x -> 2 ^ exponent x <= round53 x /\ round53 x <= 2 ^ (exponent x + 1).
Proof.
  intros Hx. rewrite (round53_pos x Hx).
  destruct (exponent_spec x Hx) as [Hlo Hhi].
  set (e := exponent x) in *. set (ulp := 2 ^ (e - 52)).
  assert (0 < ulp) as Hulp by apply pow2_pos.
  set (t := x / ulp).
  assert (t * ulp == x) as Ht. { unfold t. field. lra. }
  assert (2 ^ e == inject_Z (2 ^ 52) * ulp) as He.
  { rewrite pow2_inject by lia. unfold ulp. rewrite <- pow2_plus.
    apply Qpower_comp; [reflexivity | lia]. }
  assert (2 ^ (e + 1) == inject_Z (2 * 2 ^ 52) * ulp) as He1.
  { rewrite pow2_plus, He. rewrite inject_Z_mult. change (2 ^ 1) with 2.
    change (inject_Z 2) with 2. ring. }
  assert (inject_Z (2 ^ 52) <= t) as Ht1 by nra.
  assert (t < inject_Z (2 * 2 ^ 52)) as Ht2 by nra.
  pose proof (round_half_even_bounds t) as [Hr1 Hr2].
  assert (2 ^ 52 <= Qfloor t)%Z as Hf1.
  { rewrite <- (Qfloor_Z (2 ^ 52)). apply Qfloor_resp_le. exact Ht1. }
  assert (Qfloor t < 2 * 2 ^ 52)%Z as Hf2.
  { rewrite Zlt_Qlt. destruct (floor_bounds t) as [Hfl _]. lra. }
  assert (inject_Z (2 ^ 52) <= inject_Z (round_half_even t)) as Hq1.
  { rewrite <- Zle_Qle. lia. }
  assert (inject_Z (round_half_even t) <= inject_Z (2 * 2 ^ 52)) as Hq2.
  { rewrite <- Zle_Qle. lia. }
  rewrite He, He1. split; nra.
Qed.

Lemma round53_nonneg (x : Q) : 0 <= round53 x.
Proof.
  destruct (Qlt_le_dec 0 x) as [Hx|Hx].
  - destruct (round53_binade x Hx) as [H _]. pose proof (pow2_pos (exponent x)). lra.
  - unfold round53. apply Qle_bool_iff in Hx. rewrite Hx. lra.
Qed.

Lemma round53_mono (x y : Q) : x <= y -> round53 x <= round53 y.
Proof.
  intros Hxy. destruct (Qlt_le_dec 0 x) as [Hx|Hx].
  2:{ unfold round53 at 1. apply Qle_bool_iff in Hx. rewrite Hx. apply round53_nonneg. }
  assert (0 < y) as Hy by lra.
  destruct (exponent_spec x Hx) as [Hxlo Hxhi].
  destruct (exponent_spec y Hy) as [Hylo Hyhi].
  assert (exponent x <= exponent y)%Z as He.
  { assert (exponent x < exponent y + 1)%Z; [|lia].
    apply (Qpower_lt_compat_l_inv 2); [lra | reflexivity]. }
  destruct (Z.eq_dec (exponent x) (exponent y)) as [Heq|Hne].
  - rewrite (round53_pos x Hx), (round53_pos y Hy), <- Heq.
    set (ulp := 2 ^ (exponent x - 52)).
    assert (0 < ulp) as Hulp by apply pow2_pos.
    apply Qmult_le_compat_r; [|lra].
    rewrite <- Zle_Qle. apply round_half_even_mono.
    apply Qmult_le_compat_r; [exact Hxy|]. apply Qlt_le_weak, Qinv_lt_0_compat, Hulp.
  - destruct (round53_binade x Hx) as [_ Hxr].
    destruct (round53_binade y Hy) as [Hyr _].
    assert (2 ^ (exponent x + 1) <= 2 ^ exponent y) as Hp by (apply pow2_le; lia).
    lra.
Qed.

(** The percentage grows with the index. *)
Lemma percent_mono (total i j : nat) : (i <= j)%nat -> (percent i total <= percent j total)%Z.
Proof.
  intros Hij. unfold percent, int_of, mul_int, truediv.
  apply Qfloor_resp_le, round53_mono.
  apply Qmult_le_compat_r; [|discriminate].
  apply round53_mono.
  apply Qmult_le_compat_r.
  - rewrite <- Zle_Qle. lia.
  - destruct total as [|n]; [discriminate|].
    apply Qlt_le_weak, Qinv_lt_0_compat. 
    change 0 with (inject_Z 0). rewrite <- Zlt_Qlt. lia.
Qed.

End DoubleFacts.

(** ** The metadata mode: the filter of the workflow and the saved comment *)

Module Metadata.

Import Path Json Engine PathFacts Naming.

Lemma length_list_remove idx n nodes : length (list_remove idx n nodes) <= length nodes.
Proof.
  revert idx. induction nodes as [|x nodes IH]; intros idx; simpl; [lia|].
  destruct idx as [|idx]; [lia|]. destruct (py_eq x n); simpl; [lia|].
  specialize (IH idx). lia.
Qed.

(** The loop ends within [len(nodes)] iterations. *)
Lemma for_nodes_fuel fuel i nodes :
  length nodes <= i + fuel -> for_nodes fuel i nodes <> OutOfFuel.
Proof.
  revert i nodes. induction fuel as [|fuel IH]; intros i nodes Hlen; simpl.
  - rewrite lookup_ge_None_2 by lia. done.
  - destruct (nodes !! i) as [n|]; [|done].
    destruct (subscript_type n) as [t|]; [|done].
    destruct (py_eq t (JStr "LoraInfo")).
    + apply IH. pose proof (length_list_remove i n nodes). lia.
    + apply IH. lia.
Qed.

Lemma filter_nodes_fuel nodes : filter_nodes nodes <> OutOfFuel.
Proof.
  destruct nodes as [| | | |s|l|kvs]; simpl; try done.
  - by destruct s.
  - assert (for_nodes (length l) 0 l <> OutOfFuel) as H by (apply for_nodes_fuel; lia).
    by destruct (for_nodes _ _ _).
  - by destruct kvs.
Qed.

Lemma filter_document_fuel c : filter_document c <> OutOfFuel.
Proof.
  destruct c as [| | | | | |kvs]; simpl; try done.
  destruct (assoc "nodes" kvs) as [nodes|]; [|done].
  pose proof (filter_nodes_fuel nodes). by destruct (filter_nodes nodes).
Qed.

Section WithEnv.
Context (E : Env).

Lemma filter_workflow_fuel raw : filter_workflow E raw <> OutOfFuel.
Proof.
  unfold filter_workflow. destruct raw as [s|]; [|done].
  destruct (json_loads E s) as [c|]; [|done].
  pose proof (filter_document_fuel c). by destruct (filter_document c).
Qed.

Lemma user_comment_total raw : is_Some (user_comment E raw).
Proof.
  unfold user_comment. pose proof (filter_workflow_fuel raw).
  destruct (filter_workflow E raw); by eauto.
Qed.

Lemma filter_fails_raises raw : filter_fails E raw <-> filter_workflow E raw = Raises.
Proof.
  unfold filter_fails, filter_workflow. split.
  - intros [->|[(s & -> & ->)|(s & c & -> & -> & ->)]]; done.
  - intros H. destruct raw as [s|]; [|by left]. right.
    destruct (json_loads E s) as [c|] eqn:Hc; [|left; by exists s].
    destruct (filter_document c) eqn:Hf; try done. right. by exists s, c.
Qed.


(** The worker of the metadata mode on a name that ends in [.png], once
    the image is open. *)
Lemma metadata_worker_png w img_path st img :
  endswith ".png" (lower (basename img_path)) = true ->
  image_open E (fs st) img_path = inr img ->
  convert_single_image_with_metadata E w img_path st =
    let filename := basename img_path in
    match choose_output E w img_path filename st with
    | Some (inr (_, p), st2) =>
        match user_comment E (info_workflow E img) with
        | None => None
        | Some comment =>
            match save_exif_error E (fs st2) img p (quality w) ("Workflow:" ++ comment) with
            | None => Some (inr p, after_save_exif w p ("Workflow:" ++ comment) st2)
            | Some e =>
                Some (inl ("Failed to convert " ++ filename ++ ": " ++
                           ("Failed to convert " ++ filename ++
                            " with ComfyUI workflow: " ++ e)), st2)
            end
        end
    | Some (inl e, st2) => Some (inl ("Failed to convert " ++ filename ++ ": " ++ e), st2)
    | None => None
    end.
Proof.
  intros Hpng Hopen. unfold convert_single_image_with_metadata.
  rewrite Hopen. unfold try_except, bind. cbv zeta.
  destruct (choose_output _ _ _ _ _) as [[[e|[fn p]] st2]|]; [done| |done].
  rewrite Hpng. destruct (user_comment E (info_workflow E img)) as [comment|]; [|done].
  unfold save_webp_exif, ret.
  by destruct (save_exif_error _ _ _ _ _ _).
Qed.

(** What the EXIF writer keeps of a text. *)
Lemma encode_ascii_replace_length s :
  String.length (encode_ascii_replace s) <= String.length s.
Proof.
  induction s as [|a s IH]; [done|]. cbn [encode_ascii_replace].
  destruct (nat_of_ascii a <? 128)%nat; [simpl; lia|].
  destruct (nat_of_ascii a <? 192)%nat; simpl; lia.
Qed.

Lemma encode_ascii_replace_app s t :
  encode_ascii_replace (s ++ t) = encode_ascii_replace s ++ encode_ascii_replace t.
Proof.
  induction s as [|a s IH]; [done|]. rewrite app_cons. cbn [encode_ascii_replace].
  rewrite IH. destruct (nat_of_ascii a <? 128)%nat; [by rewrite app_cons|].
  destruct (nat_of_ascii a <? 192)%nat; [done|by rewrite app_cons].
Qed.

(** The writer keeps a text as it is exactly when the text is ASCII. *)
Lemma encode_ascii_replace_id s : encode_ascii_replace s = s <-> isascii s = true.
Proof.
  induction s as [|a s IH]; [done|]. cbn [encode_ascii_replace isascii].
  destruct (nat_of_ascii a <? 128)%nat eqn:Ha; simpl.
  - rewrite <- IH. split; [by intros [= ?]|by intros ->].
  - split; [|done]. destruct (nat_of_ascii a <? 192)%nat eqn:Hb.
    + intros H. pose proof (encode_ascii_replace_length s) as Hlen.
      rewrite H in Hlen. simpl in Hlen. lia.
    + intros [= <- _]. done.
Qed.

(** C9, as the code has it.  In metadata mode, on an input that opens and
    whose name ends in [.png]: when the [workflow] entry is absent, is not
    valid JSON, or the filter raises (for one, the document has no
    [nodes]), the comment of line 144 is the raw entry, or the empty text
    when there is none; the worker goes on to save, and it raises only when
    that [save], or [os.makedirs] before it, raises.  The one call of
    [save] is given ["Workflow:"] and the raw entry under tag [0x010e];
    what the file then holds under the tag is that text as the EXIF writer
    encodes it, which is the raw entry exactly when the raw entry is
    ASCII. *)
Theorem filter_failure_keeps_raw (w : ConversionWorker) (img_path : string) (st : state)
    (img : Image E) :
  let filename := basename img_path in
  let raw := info_workflow E img in
  let text := "Workflow:" ++ default "" raw in
  endswith ".png" (lower filename) = true ->
  image_open E (fs st) img_path = inr img ->
  filter_fails E raw ->
  user_comment E raw = Some (default "" raw) /\
  match choose_output E w img_path filename st with
  | Some (inr (_, p), st2) =>
      match save_exif_error E (fs st2) img p (quality w) text with
      | None =>
          exists st' call,
            convert_single_image_with_metadata E w img_path st = Some (inr p, st') /\
            fs st' = {[ p ]} ∪ fs st2 /\
            renamed_files st' = renamed_files st2 /\
            saved st' = (saved st2 ++ [call])%list /\
            call = {| save_path := p; save_quality := quality w;
                      save_exif := Some ("Workflow:" ++ default "" raw) |} /\
            embedded call = Some ("Workflow:" ++ encode_ascii_replace (default "" raw)) /\
            (embedded call = Some ("Workflow:" ++ default "" raw) <->
             isascii (default "" raw) = true)
      | Some e =>
          convert_single_image_with_metadata E w img_path st =
            Some (inl ("Failed to convert " ++ filename ++ ": " ++
                       ("Failed to convert " ++ filename ++
                        " with ComfyUI workflow: " ++ e)), st2)
      end
  | Some (inl e, st2) =>
      convert_single_image_with_metadata E w img_path st =
        Some (inl ("Failed to convert " ++ filename ++ ": " ++ e), st2) /\
      os_makedirs E (if use_same_folder w then dirname img_path else output_dir w) st =
        Some (inl e, st2)
  | None => False
  end.
Proof.
  intros filename raw text Hpng Hopen Hfail.
  apply filter_fails_raises in Hfail.
  assert (user_comment E raw = Some (default "" raw)) as Hcomment.
  { unfold user_comment. by rewrite Hfail. }
  split; [done|].
  rewrite (metadata_worker_png _ _ _ _ Hpng Hopen). cbv zeta. fold filename raw.
  rewrite Hcomment. fold text.
  rewrite choose_output_unfold. cbv zeta.
  set (d := if use_same_folder w then dirname img_path else output_dir w).
  set (first := fst (splitext filename) ++ ".webp").
  destruct (os_makedirs_inv E d st) as [[e ->]|(st1 & -> & _)]; [done|].
  destruct (resolve_output_spec filename d first (join d first) st1)
    as (fn & p & st2 & -> & _).
  destruct (save_exif_error _ _ _ _ _ _); [done|].
  eexists _, _. split; [reflexivity|]. cbn [after_save_exif fs renamed_files saved].
  split; [done|]. split; [done|]. split; [reflexivity|]. split; [reflexivity|].
  assert (encode_ascii_replace text = "Workflow:" ++ encode_ascii_replace (default "" raw))
    as Henc by (unfold text; by rewrite encode_ascii_replace_app).
  unfold embedded. cbn [save_exif fmap option_fmap option_map]. fold text. rewrite Henc.
  split; [done|]. rewrite <- encode_ascii_replace_id. split.
  - intros [= H]. exact H.
  - by intros ->.
Qed.

(** A document without [nodes], and one that is not an object, make the
    filter raise. *)
Lemma filter_document_no_nodes kvs :
  assoc "nodes" kvs = None -> filter_document (JObj kvs) = Raises.
Proof. intros H. simpl. by rewrite H. Qed.

Lemma filter_document_not_object c :
  (forall kvs, c <> JObj kvs) -> filter_document c = Raises.
Proof. intros H. destruct c; try done. by destruct (H kvs). Qed.

(** Both workers always finish: they return a path or raise. *)
Lemma convert_single_image_total w img_path st :
  exists r st', convert_single_image E w img_path st = Some (r, st').
Proof.
  unfold convert_single_image.
  destruct (image_open E (fs st) img_path) as [e|img]; [by eexists _, _|].
  unfold try_except, bind.
  destruct (choose_output_total E w img_path (basename img_path) st)
    as ([e|[fn p]] & st2 & -> & _); [by eexists _, _|].
  unfold save_webp, ret.
  destruct (save_error _ _ _ _ _); by eexists _, _.
Qed.

Lemma convert_single_image_with_metadata_total w img_path st :
  exists r st', convert_single_image_with_metadata E w img_path st = Some (r, st').
Proof.
  unfold convert_single_image_with_metadata.
  destruct (image_open E (fs st) img_path) as [e|img]; [by eexists _, _|].
  unfold try_except, bind.
  destruct (choose_output_total E w img_path (basename img_path) st)
    as ([e|[fn p]] & st2 & -> & _); [by eexists _, _|].
  destruct (endswith _ _); [|by eexists _, _].
  destruct (user_comment_total (info_workflow E img)) as [comment ->].
  unfold save_webp_exif, ret.
  destruct (save_exif_error _ _ _ _ _ _); by eexists _, _.
Qed.

End WithEnv.

End Metadata.

(** ** The tasks as threads: a task alone, and the tasks of a pool *)

Module Threads.

Import Path Json Engine Invariants PathFacts Naming Metadata.

Section WithEnv.
Context (E : Env).

(** The last step of a task always returns or raises. *)
Lemma save_step_total metadata w img filename out st :
  exists r st', save_step E metadata w img filename out st = Some (r, st').
Proof.
  unfold save_step. destruct metadata.
  - destruct (endswith _ _); [|by eexists _, _].
    unfold try_except.
    destruct (user_comment_total E (info_workflow E img)) as [comment ->].
    unfold save_webp_exif. destruct (save_exif_error _ _ _ _ _ _); by eexists _, _.
  - unfold save_webp. destruct (save_error _ _ _ _ _); by eexists _, _.
Qed.

(** A thread can always take its step. *)
Lemma thread_step_total metadata w p c st :
  exists c' st', thread_step E metadata w p c st = Some (c', st').
Proof.
  destruct c as [|img|img|img fn out k|img fn out|img out|r]; simpl.
  - destruct (image_open _ _ _); by eexists _, _.
  - destruct (os_makedirs_inv E (if use_same_folder w then dirname p else output_dir w) st)
      as [[e ->]|(st1 & -> & _)]; by eexists _, _.
  - destruct (path_exists _ _); by eexists _, _.
  - destruct (path_exists _ _); by eexists _, _.
  - by eexists _, _.
  - destruct (save_step_total metadata w img (basename p) out st) as ([e|[]] & st' & ->);
      by eexists _, _.
  - by eexists _, _.
Qed.

Lemma finish_done fuel metadata w p r st :
  finish E fuel metadata w p (Done r) st = Some (r, st).
Proof. by destruct fuel. Qed.

Lemma finish_S fuel metadata w p c st :
  is_done c = false ->
  finish E (S fuel) metadata w p c st =
    match thread_step E metadata w p c st with
    | Some (c', st') => finish E fuel metadata w p c' st'
    | None => None
    end.
Proof. by destruct c. Qed.

Lemma finish_O metadata w p c st :
  is_done c = false -> finish E 0 metadata w p c st = None.
Proof. by destruct c. Qed.

(** More fuel does not change what a task ends with. *)
Lemma finish_more fuel fuel' metadata w p c st r :
  finish E fuel metadata w p c st = Some r -> fuel <= fuel' ->
  finish E fuel' metadata w p c st = Some r.
Proof.
  revert fuel' c st. induction fuel as [|fuel IH]; intros fuel' c st H Hle;
    (destruct (is_done c) eqn:Hc;
      [destruct c; try done; by rewrite finish_done in *|]).
  - by rewrite finish_O in H.
  - destruct fuel' as [|fuel']; [lia|]. rewrite finish_S in * by done.
    destruct (thread_step _ _ _ _ _ _) as [[c' st']|]; [|done].
    apply IH; [done|lia].
Qed.

(** *** A task that runs alone *)

Lemma finish_save fuel metadata w p img out st :
  finish E (S fuel) metadata w p (AtSave img out) st =
    match save_step E metadata w img (basename p) out st with
    | Some (inr _, st') => Some (inr out, st')
    | Some (inl e, st') => Some (inl ("Failed to convert " ++ basename p ++ ": " ++ e), st')
    | None => None
    end.
Proof.
  rewrite finish_S by done. cbn [thread_step].
  destruct (save_step _ _ _ _ _ _ _) as [[[e|[]] st']|]; try done; apply finish_done.
Qed.

Lemma finish_save_total fuel metadata w p img out st :
  exists r st', finish E (S fuel) metadata w p (AtSave img out) st = Some (r, st').
Proof.
  rewrite finish_save.
  destruct (save_step_total metadata w img (basename p) out st) as ([e|[]] & st' & ->);
    by eexists _, _.
Qed.

(** The loop of lines 63-66, one test at a time, ends where [rename_loop]
    does. *)
Lemma finish_while n metadata w p img st fn out k fn' out' fuel r :
  rename_loop n (fs st) (if use_same_folder w then dirname p else output_dir w)
    (fst (splitext (fst (splitext (basename p)) ++ ".webp"))) fn out k = Some (fn', out') ->
  finish E fuel metadata w p (AtAppend img fn' out') st = Some r ->
  finish E (S n + fuel) metadata w p (AtWhile img fn out k) st = Some r.
Proof.
  revert fn out k. induction n as [|n IH]; intros fn out k Hloop Hrest;
    cbn [rename_loop] in Hloop; cbn [Nat.add]; rewrite finish_S by done; cbn [thread_step];
    destruct (path_exists (fs st) out); try done.
  - injection Hloop as -> ->. eapply finish_more; [exact Hrest|lia].
  - by apply IH.
  - injection Hloop as -> ->. eapply finish_more; [exact Hrest|lia].
Qed.

Lemma finish_append fuel metadata w p img fn out st :
  finish E (S fuel) metadata w p (AtAppend img fn out) st =
    finish E fuel metadata w p (AtSave img out)
      {| fs := fs st; renamed_files := renamed_files st ++ [basename p ++ " -> " ++ fn];
         saved := saved st |}.
Proof. by rewrite finish_S. Qed.

(** From the test of line 59 on, a task alone does what [resolve_output]
    does, and saves. *)
Lemma finish_if fuel metadata w p img st1 fn out st2 :
  let d := if use_same_folder w then dirname p else output_dir w in
  let first := fst (splitext (basename p)) ++ ".webp" in
  resolve_output (basename p) d first (join d first) st1 = Some (inr (fn, out), st2) ->
  size (fs st1) + 5 <= fuel ->
  finish E fuel metadata w p (AtIf img) st1 = finish E 1 metadata w p (AtSave img out) st2.
Proof.
  intros d first Hres Hfuel.
  destruct (finish_save_total 0 metadata w p img out st2) as (r & st' & Hsave).
  rewrite Hsave. destruct fuel as [|fuel]; [lia|]. rewrite finish_S by done.
  cbn [thread_step]. fold d first.
  unfold resolve_output, bind, get_fs in Hres.
  destruct (path_exists (fs st1) (join d first)) eqn:Hex.
  - destruct (rename_loop (S (size (fs st1))) (fs st1) d (fst (splitext first)) first
                (join d first) 1) as [[fn' out']|] eqn:Hloop; [|done].
    injection Hres as <- <- <-.
    eapply finish_more; [|instantiate (1 := S (S (size (fs st1))) + 2); lia].
    eapply finish_while; [exact Hloop|].
    rewrite finish_append. exact Hsave.
  - injection Hres as <- <- <-. eapply finish_more; [exact Hsave|lia].
Qed.

Lemma size_made (d : string) (files : gset string) :
  size files <= size ({[ d ]} ∪ list_to_set (parents (String.length d) d) ∪ files).
Proof. apply subseteq_size. set_solver. Qed.

(** From line 56 on. *)
Lemma finish_makedirs fuel metadata w p img st :
  let d := if use_same_folder w then dirname p else output_dir w in
  let first := fst (splitext (basename p)) ++ ".webp" in
  size ({[ d ]} ∪ list_to_set (parents (String.length d) d) ∪ fs st) + 6 <= fuel ->
  finish E fuel metadata w p (AtMakedirs img) st =
    match os_makedirs E d st with
    | Some (inr _, st1) =>
        match resolve_output (basename p) d first (join d first) st1 with
        | Some (inr (_, out), st2) => finish E 1 metadata w p (AtSave img out) st2
        | _ => None
        end
    | Some (inl e, st1) =>
        Some (inl ("Failed to convert " ++ basename p ++ ": " ++ e), st1)
    | None => None
    end.
Proof.
  intros d first Hfuel. destruct fuel as [|fuel]; [lia|]. rewrite finish_S by done.
  cbn [thread_step]. fold d.
  destruct (os_makedirs E d st) as [[[e|[]] st1]|] eqn:Hmk; [apply finish_done| |done].
  destruct (resolve_output_spec (basename p) d first (join d first) st1)
    as (fn & out & st2 & Hres & _).
  rewrite Hres. apply (finish_if fuel metadata w p img st1 fn out st2 Hres).
  unfold os_makedirs in Hmk. destruct (String.eqb d ""); [done|].
  destruct (makedirs_error E (fs st) d); [done|]. injection Hmk as <-. simpl. lia.
Qed.

(** The workers of lines 41-75 and 95-156 are the task from its first
    call to its end, no other thread in between. *)
Lemma finish_plain w p st :
  finish E (patience w p st) false w p AtOpen st = convert_single_image E w p st.
Proof.
  unfold patience. set (d := if use_same_folder w then dirname p else output_dir w).
  rewrite Nat.add_succ_r, finish_S by done. cbn [thread_step].
  unfold convert_single_image.
  destruct (image_open E (fs st) p) as [e|img]; [apply finish_done|].
  rewrite finish_makedirs by (fold d; lia). fold d.
  unfold try_except, bind. rewrite choose_output_unfold. cbv zeta. fold d.
  destruct (os_makedirs E d st) as [[[e|[]] st1]|]; try done.
  destruct (resolve_output_spec (basename p) d (fst (splitext (basename p)) ++ ".webp")
              (join d (fst (splitext (basename p)) ++ ".webp")) st1)
    as (fn & out & st2 & -> & _).
  rewrite finish_save. unfold save_step, save_webp, ret.
  by destruct (save_error _ _ _ _ _).
Qed.

Lemma finish_metadata w p st :
  finish E (patience w p st) true w p AtOpen st =
    convert_single_image_with_metadata E w p st.
Proof.
  unfold patience. set (d := if use_same_folder w then dirname p else output_dir w).
  rewrite Nat.add_succ_r, finish_S by done. cbn [thread_step].
  unfold convert_single_image_with_metadata.
  destruct (image_open E (fs st) p) as [e|img]; [apply finish_done|].
  rewrite finish_makedirs by (fold d; lia). fold d.
  unfold try_except, bind. rewrite choose_output_unfold. cbv zeta. fold d.
  destruct (os_makedirs E d st) as [[[e|[]] st1]|]; try done.
  destruct (resolve_output_spec (basename p) d (fst (splitext (basename p)) ++ ".webp")
              (join d (fst (splitext (basename p)) ++ ".webp")) st1)
    as (fn & out & st2 & -> & _).
  rewrite finish_save. unfold save_step, try_except, raise.
  destruct (endswith ".png" (lower (basename p))); [|done].
  destruct (user_comment E (info_workflow E img)) as [comment|]; [|done].
  unfold save_webp_exif, ret.
  by destruct (save_exif_error _ _ _ _ _ _).
Qed.

Lemma finish_alone w p st :
  finish E (patience w p st) (keep_workflow w) w p AtOpen st = task_of E w p st.
Proof.
  unfold task_of. destruct (keep_workflow w); [apply finish_metadata|apply finish_plain].
Qed.

(** Wherever a task stands, alone it reaches its end within [patience]. *)
Lemma finish_total metadata w p c st :
  exists r st', finish E (patience w p st) metadata w p c st = Some (r, st').
Proof.
  unfold patience. set (d := if use_same_folder w then dirname p else output_dir w).
  set (first := fst (splitext (basename p)) ++ ".webp").
  pose proof (size_made d (fs st)) as Hsize.
  set (n := size ({[ d ]} ∪ list_to_set (parents (String.length d) d) ∪ fs st)) in *.
  assert (forall img st0 fuel, size ({[ d ]} ∪ list_to_set (parents (String.length d) d) ∪ fs st0)
                               + 6 <= fuel ->
            exists r st', finish E fuel metadata w p (AtMakedirs img) st0 = Some (r, st'))
    as Hmk.
  { intros img st0 fuel Hfuel. rewrite finish_makedirs by (fold d; lia). fold d first.
    destruct (os_makedirs_inv E d st0) as [[e ->]|(st1 & -> & _)]; [by eexists _, _|].
    destruct (resolve_output_spec (basename p) d first (join d first) st1)
      as (fn & out & st2 & -> & _).
    apply finish_save_total. }
  destruct c as [|img|img|img fn out k|img fn out|img out|r].
  - rewrite Nat.add_succ_r, finish_S by done. cbn [thread_step].
    destruct (image_open E (fs st) p) as [e|img].
    + rewrite finish_done. by eexists _, _.
    + apply Hmk. fold n. lia.
  - apply Hmk. fold n. lia.
  - destruct (resolve_output_spec (basename p) d first (join d first) st)
      as (fn & out & st2 & Hres & _).
    rewrite (finish_if _ metadata w p img st fn out st2 Hres) by lia.
    apply finish_save_total.
  - destruct (rename_loop_total (S (size (fs st))) (fs st) d (fst (splitext first)) fn out k)
      as [[fn' out'] Hloop]; [lia|].
    destruct (finish_save_total 0 metadata w p img out'
                {| fs := fs st; renamed_files := renamed_files st ++ [basename p ++ " -> " ++ fn'];
                   saved := saved st |}) as (r & st' & Hsave).
    exists r, st'. eapply finish_more; [|instantiate (1 := S (S (size (fs st))) + 2); lia].
    eapply finish_while; [exact Hloop|]. by rewrite finish_append.
  - rewrite Nat.add_succ_r, finish_append, Nat.add_succ_r. apply finish_save_total.
  - rewrite Nat.add_succ_r. apply finish_save_total.
  - rewrite finish_done. by eexists _, _.
Qed.

(** A step on the way does not change where a task alone ends. *)
Lemma finish_step metadata w p c st c' st' :
  thread_step E metadata w p c st = Some (c', st') ->
  finish E (patience w p st') metadata w p c' st' =
    finish E (patience w p st) metadata w p c st.
Proof.
  intros Hstep. destruct (is_done c) eqn:Hc.
  { destruct c; try done. injection Hstep as <- <-. by rewrite !finish_done. }
  destruct (finish_total metadata w p c st) as (r & st1 & H).
  destruct (finish_total metadata w p c' st') as (r' & st1' & H').
  rewrite H, H'.
  unfold patience in H at 1. rewrite Nat.add_succ_r, finish_S, Hstep in H by done.
  pose proof (finish_more _ (patience w p st' + patience w p st) _ _ _ _ _ _ H) as H1.
  pose proof (finish_more _ (patience w p st' + patience w p st) _ _ _ _ _ _ H') as H2.
  rewrite <- H1, <- H2; [done|lia|unfold patience; lia].
Qed.

(** *** The pool *)

(** The pool always fills its futures, whatever the schedule, and what
    every step of a thread preserves holds of the futures in the end. *)
Lemma pool_steps_inv (I : list (pc E) -> state -> Prop) metadata w (paths : list string)
    schedule pcs st :
  (forall pcs st i p c c' st',
     I pcs st -> paths !! i = Some p -> pcs !! i = Some c -> is_done c = false ->
     thread_step E metadata w p c st = Some (c', st') -> I (<[i := c']> pcs) st') ->
  I pcs st ->
  exists pcs' st',
    pool_steps E metadata w paths schedule pcs st = Some (pcs', st') /\
    I pcs' st' /\ length pcs' = length pcs.
Proof.
  intros Hstep. revert pcs st.
  induction schedule as [|i schedule IH]; intros pcs st HI; cbn [pool_steps].
  { by eexists _, _. }
  destruct (paths !! i) as [p|] eqn:Hp; [|by apply IH].
  destruct (pcs !! i) as [c|] eqn:Hc; [|by apply IH].
  destruct (has_worker E w pcs i); [|by apply IH].
  destruct (thread_step_total metadata w p c st) as (c' & st' & Hs). rewrite Hs.
  destruct (IH (<[i := c']> pcs) st') as (pcs' & st'' & Hrun & HI' & Hlen).
  - destruct (is_done c) eqn:Hd; [|by eapply Hstep].
    destruct c; try done. injection Hs as <- <-. by rewrite list_insert_id.
  - exists pcs', st''. rewrite length_insert in Hlen. done.
Qed.

Lemma finish_inv (I : list (pc E) -> state -> Prop) metadata w (paths : list string) p
    pre post fuel c st r st' :
  (forall pcs st i p c c' st',
     I pcs st -> paths !! i = Some p -> pcs !! i = Some c -> is_done c = false ->
     thread_step E metadata w p c st = Some (c', st') -> I (<[i := c']> pcs) st') ->
  paths !! length pre = Some p ->
  I (pre ++ c :: post)%list st ->
  finish E fuel metadata w p c st = Some (r, st') ->
  I (pre ++ Done r :: post)%list st'.
Proof.
  intros Hstep Hp. revert c st. induction fuel as [|fuel IH]; intros c st HI Hfin;
    (destruct (is_done c) eqn:Hc;
      [destruct c; try done; rewrite finish_done in Hfin; by injection Hfin as <- <-|]).
  - by rewrite finish_O in Hfin.
  - rewrite finish_S in Hfin by done.
    destruct (thread_step E metadata w p c st) as [[c' st1]|] eqn:Hs; [|done].
    apply (IH c' st1); [|done].
    pose proof (Hstep (pre ++ c :: post)%list st (length pre) p c c' st1 HI Hp) as H.
    rewrite list_lookup_middle, insert_app_r_alt, Nat.sub_diag in H by done.
    by apply H.
Qed.

Lemma drain_inv (I : list (pc E) -> state -> Prop) metadata w (paths : list string) :
  (forall pcs st i p c c' st',
     I pcs st -> paths !! i = Some p -> pcs !! i = Some c -> is_done c = false ->
     thread_step E metadata w p c st = Some (c', st') -> I (<[i := c']> pcs) st') ->
  forall before rest results pcs st,
    paths = (before ++ rest)%list -> length before = length results ->
    length rest = length pcs ->
    I (map Done results ++ pcs)%list st ->
    exists futures st',
      drain E metadata w rest pcs st = Some (futures, st') /\
      length futures = length rest /\
      I (map Done (results ++ futures))%list st'.
Proof.
  intros Hstep before rest. revert before.
  induction rest as [|p rest IH]; intros before results pcs st Hpaths Hlen Hlen' HI.
  { destruct pcs; [|done]. exists [], st. by rewrite !app_nil_r in *. }
  destruct pcs as [|c pcs]; [done|]. cbn [drain].
  destruct (finish_total metadata w p c st) as (r & st1 & Hfin). rewrite Hfin.
  assert (I (map Done results ++ Done r :: pcs)%list st1) as HI1.
  { eapply finish_inv; [exact Hstep| |exact HI|exact Hfin].
    rewrite length_map, <- Hlen, Hpaths. by apply list_lookup_middle. }
  destruct (IH (before ++ [p])%list (results ++ [r])%list pcs st1)
    as (futures & st' & Hdrain & Hlf & HI').
  - by rewrite <- app_assoc.
  - rewrite !length_app. simpl. lia.
  - simpl in Hlen'. lia.
  - by rewrite map_app, <- app_assoc.
  - rewrite Hdrain. exists (r :: futures), st'. split; [done|]. split; [simpl; lia|].
    by rewrite <- app_assoc in HI'.
Qed.

Lemma run_tasks_inv (I : list (pc E) -> state -> Prop) metadata w schedule
    (paths : list string) st :
  (forall pcs st i p c c' st',
     I pcs st -> paths !! i = Some p -> pcs !! i = Some c -> is_done c = false ->
     thread_step E metadata w p c st = Some (c', st') -> I (<[i := c']> pcs) st') ->
  I (map (fun _ => AtOpen) paths) st ->
  exists futures st',
    run_tasks E metadata w schedule paths st = Some (futures, st') /\
    length futures = length paths /\
    I (map Done futures) st'.
Proof.
  intros Hstep HI. unfold run_tasks.
  destruct (pool_steps_inv I metadata w paths schedule _ st Hstep HI)
    as (pcs & st1 & -> & HI1 & Hlen).
  rewrite length_map in Hlen.
  destruct (drain_inv I metadata w paths Hstep [] paths [] pcs st1)
    as (futures & st' & Hdrain & Hlf & HI'); try done.
  by exists futures, st'.
Qed.

Lemma run_tasks_total metadata w schedule paths st :
  exists futures st',
    run_tasks E metadata w schedule paths st = Some (futures, st') /\
    Forall2 (fun p f => ends_with E metadata w p AtOpen f) paths futures.
Proof.
  destruct (run_tasks_inv
              (fun pcs _ => Forall2 (fun p c => forall f, ends_with E metadata w p c f ->
                                                          ends_with E metadata w p AtOpen f)
                              paths pcs)
              metadata w schedule paths st) as (futures & st' & Hrun & _ & Hall).
  - intros pcs st0 i p c c' st1 Hall Hp Hc Hd Hs.
    rewrite <- (list_insert_id paths i p Hp). apply Forall2_insert; [done|].
    intros f Hf. apply (Forall2_lookup_lr _ _ _ _ _ _ Hall Hp Hc).
    by eapply ends_step.
  - induction paths; by constructor.
  - exists futures, st'. split; [done|].
    clear Hrun. revert futures Hall. induction paths as [|p paths IH]; intros futures Hall;
      destruct futures as [|f futures]; inversion Hall; subst; constructor; [|by apply IH].
    match goal with H : forall f0, _ -> _ |- _ => apply H end. constructor.
Qed.

(** *** What the pool keeps *)

Lemma outputs_insert (pcs : list (pc E)) i c c' :
  pcs !! i = Some c -> outputs E [c] = [] ->
  outputs E (<[i := c']> pcs) ≡ₚ (outputs E [c'] ++ outputs E pcs)%list.
Proof.
  intros Hc Hnone. pose proof (lookup_lt_Some _ _ _ Hc) as Hlt.
  rewrite insert_take_drop by done.
  rewrite <- (take_drop_middle pcs i c Hc) at 3.
  unfold outputs in *. rewrite !omap_app.
  change (c' :: drop (S i) pcs) with ([c'] ++ drop (S i) pcs)%list.
  change (c :: drop (S i) pcs) with ([c] ++ drop (S i) pcs)%list.
  rewrite !omap_app, Hnone. cbn [app].
  rewrite !app_assoc. apply Permutation_app_tail, Permutation_app_comm.
Qed.

Lemma named_insert (pcs : list (pc E)) i c c' :
  pcs !! i = Some c ->
  length (List.filter (named E) (<[i := c']> pcs)) + (if named E c then 1 else 0) =
    length (List.filter (named E) pcs) + (if named E c' then 1 else 0).
Proof.
  revert i. induction pcs as [|x pcs IH]; intros i Hc; [done|].
  destruct i as [|i]; simpl in *.
  - injection Hc as ->. destruct (named E c), (named E c'); simpl; lia.
  - specialize (IH i Hc). destruct (named E x); simpl; lia.
Qed.

Lemma named_length (pcs : list (pc E)) : length (List.filter (named E) pcs) <= length pcs.
Proof. induction pcs as [|x pcs IH]; simpl; [done|]. destruct (named E x); simpl; lia. Qed.

(** Everything the last step of a task can do. *)
Lemma save_step_inv metadata w img filename out st r st' :
  save_step E metadata w img filename out st = Some (r, st') ->
  match r with
  | inl _ => st' = st
  | inr _ =>
      fs st' = {[ out ]} ∪ fs st /\ renamed_files st' = renamed_files st /\
      exists call,
        saved st' = (saved st ++ [call])%list /\
        save_path call = out /\ save_quality call = quality w /\
        (if metadata then exists text, save_exif call = Some ("Workflow:" ++ text)
         else save_exif call = None)
  end.
Proof.
  unfold save_step. destruct metadata.
  - destruct (endswith _ _); [|by intros [= <- <-]].
    unfold try_except.
    destruct (user_comment E (info_workflow E img)) as [comment|]; [|done].
    unfold save_webp_exif, raise.
    destruct (save_exif_error _ _ _ _ _ _); intros [= <- <-]; [done|]. simpl.
    split; [done|]. split; [done|]. eexists. repeat split; try done. by exists comment.
  - unfold save_webp. destruct (save_error _ _ _ _ _); intros [= <- <-]; [done|]. simpl.
    split; [done|]. split; [done|]. eexists. by repeat split.
Qed.

Lemma sound_mono st0 st st' (c : pc E) :
  fs st ⊆ fs st' -> sound E st0 st c -> sound E st0 st' c.
Proof.
  intros Hsub. destruct c as [|img|img|img fn out k|img fn out|img out|[e|out]]; try done.
  simpl. intros (? & ? & ?). repeat split; try done. by apply Hsub.
Qed.

(** Every step of every thread keeps [pool_inv]. *)
Lemma pool_inv_step metadata w paths st0 pcs st i p c c' st' :
  pool_inv E metadata w paths st0 pcs st ->
  paths !! i = Some p -> pcs !! i = Some c -> is_done c = false ->
  thread_step E metadata w p c st = Some (c', st') ->
  pool_inv E metadata w paths st0 (<[i := c']> pcs) st'.
Proof.
  intros (Hsub & Hsound & (calls & Hsaved & Hperm & Hcalls) & (entries & Hren & Hlen & Hshape))
    Hp Hc Hd Hs.
  pose proof (named_insert pcs i c c' Hc) as Hnamed.
  assert (outputs E [c] = []) as Hnone by (by destruct c).
  pose proof (outputs_insert pcs i c c' Hc Hnone) as Hout.
  set (d := if use_same_folder w then dirname p else output_dir w) in *.
  (* the steps that leave the shared state and the futures as they are *)
  assert (forall c'', st' = st -> c' = c'' -> outputs E [c''] = [] ->
            (named E c = true -> named E c'' = true) -> sound E st0 st c'' ->
            pool_inv E metadata w paths st0 (<[i := c']> pcs) st') as Hquiet.
  { intros c'' -> -> Hnone' Hnm Hsd. split; [done|]. split; [by apply Forall_insert|].
    split.
    - exists calls. split; [done|]. split; [|done].
      by rewrite Hout, Hnone'.
    - exists entries. split; [done|]. split; [|done].
      destruct (named E c), (named E c''); lia. }
  destruct c as [|img|img|img fn out k|img fn out|img out|r]; try done;
    cbn [thread_step] in Hs; fold d in Hs.
  - destruct (image_open E (fs st) p) as [e|img]; injection Hs as <- <-;
      by eapply Hquiet.
  - destruct (os_makedirs_inv E d st) as [[e He]|(st1 & He & _ & Hsub1 & Hren1 & Hsv1)];
      rewrite He in Hs; injection Hs as <- <-; [by eapply Hquiet|].
    split; [by etrans|]. split.
    { apply Forall_insert; [|done]. eapply Forall_impl; [exact Hsound|].
      intros c0. by apply sound_mono. }
    split.
    + exists calls. rewrite Hsv1. split; [done|]. split; [|done]. by rewrite Hout.
    + exists entries. rewrite Hren1. split; [done|]. split; [|done]. simpl in Hnamed. lia.
  - destruct (path_exists (fs st) _) eqn:Hex; injection Hs as <- <-.
    + eapply Hquiet; try done. simpl. split; [apply endswith_app, endswith_refl|].
      apply endswith_join, endswith_app, endswith_refl.
    + apply path_exists_false in Hex.
      split; [done|]. split.
      { apply Forall_insert; [done|]. simpl.
        split; [apply endswith_join, endswith_app, endswith_refl|]. intros ?. by apply Hex, Hsub. }
      split.
      * exists calls. split; [done|]. split; [|done]. by rewrite Hout.
      * exists entries. split; [done|]. split; [|done]. simpl in Hnamed. lia.
  - apply (Forall_lookup_1 _ _ _ _ Hsound) in Hc as Hsd. simpl in Hsd.
    destruct Hsd as [Hfn Hw].
    destruct (path_exists (fs st) out) eqn:Hex; injection Hs as <- <-.
    + eapply Hquiet; try done. simpl. split; [apply numbered_webp|].
      apply endswith_join, numbered_webp.
    + apply path_exists_false in Hex. eapply Hquiet; try done. simpl.
      split; [done|]. split; [done|]. intros ?. by apply Hex, Hsub.
  - apply (Forall_lookup_1 _ _ _ _ Hsound) in Hc as Hsd. simpl in Hsd.
    destruct Hsd as (Hfn & Hw & Hfresh).
    unfold append_renamed in Hs. injection Hs as <- <-.
    split; [done|]. split.
    { apply Forall_insert; [|done]. eapply Forall_impl; [exact Hsound|].
      intros c0. by apply sound_mono. }
    split.
    + exists calls. split; [done|]. split; [|done]. by rewrite Hout.
    + exists (entries ++ [(basename p ++ " -> " ++ fn)%string])%list. cbn [renamed_files].
      rewrite Hren, <- app_assoc. split; [done|]. split.
      * rewrite length_app. simpl in *. lia.
      * apply Forall_app. split; [done|]. constructor; [|done].
        exists p, fn. split; [by eapply list_elem_of_lookup_2|done].
  - apply (Forall_lookup_1 _ _ _ _ Hsound) in Hc as Hsd. simpl in Hsd.
    destruct Hsd as (Hw & Hfresh).
    destruct (save_step E metadata w img (basename p) out st) as [[[e|[]] st1]|] eqn:Hsave;
      [| |done]; injection Hs as <- <-; apply save_step_inv in Hsave.
    + subst st1. by eapply Hquiet.
    + destruct Hsave as (Hfs & Hren1 & call & Hsv1 & Hpath & Hq & Hexif).
      assert (fs st ⊆ fs st1) as Hsub1 by (rewrite Hfs; apply union_subseteq_r).
      split; [by etrans|]. split.
      { apply Forall_insert.
        - eapply Forall_impl; [exact Hsound|]. intros c0. by apply sound_mono.
        - simpl. split; [done|]. split; [done|]. rewrite Hfs.
          by apply elem_of_union_l, elem_of_singleton. }
      split.
      * exists (calls ++ [call])%list. rewrite Hsv1, Hsaved, <- app_assoc.
        split; [done|]. split.
        -- rewrite map_app, Hout. simpl. rewrite Hpath, Hperm.
           by rewrite Permutation_app_comm.
        -- apply Forall_app. split; [done|]. constructor; [|done].
           split; [done|]. split; [done|]. by rewrite Hpath.
      * exists entries. rewrite Hren1. split; [done|]. split; [|done]. simpl in Hnamed. lia.
Qed.

Lemma outputs_done futures : outputs E (map Done futures) = returned futures.
Proof.
  induction futures as [|[e|r] futures IH]; [done|..].
  - exact IH.
  - change (outputs E (map Done (inr r :: futures))) with (r :: outputs E (map Done futures)).
    by rewrite IH.
Qed.

Lemma named_done (futures : list (string + string)) :
  length (List.filter (named E) (map Done futures)) = length futures.
Proof. induction futures as [|f futures IH]; simpl; [done|]. by rewrite IH. Qed.

(** What a whole pool does to the shared state, whatever the schedule. *)
Lemma run_tasks_effects metadata w schedule paths st :
  exists futures st',
    run_tasks E metadata w schedule paths st = Some (futures, st') /\
    length futures = length paths /\
    fs st ⊆ fs st' /\
    Forall (fun out => (out ∉ fs st) /\ out ∈ fs st' /\ endswith ".webp" out = true)
      (returned futures) /\
    (exists calls,
       saved st' = (saved st ++ calls)%list /\
       map save_path calls ≡ₚ returned futures /\
       Forall (batch_call metadata w st) calls) /\
    (exists entries,
       renamed_files st' = (renamed_files st ++ entries)%list /\
       length entries <= length paths /\
       Forall (batch_entry paths) entries).
Proof.
  destruct (run_tasks_inv (pool_inv E metadata w paths st) metadata w schedule paths st)
    as (futures & st' & Hrun & Hlen & Hsub & Hsound & (calls & Hsaved & Hperm & Hcalls)
        & (entries & Hren & Hle & Hshape)).
  - intros. by eapply pool_inv_step.
  - split; [done|]. split.
    { induction paths; by constructor. }
    split.
    + exists []. rewrite app_nil_r. split; [done|]. split; [|done].
      replace (outputs E (map (fun _ => AtOpen) paths)) with (@nil string); [done|].
      unfold outputs. by induction paths.
    + exists []. rewrite app_nil_r. split; [done|]. split; [simpl; lia|done].
  - exists futures, st'. split; [done|]. split; [done|]. split; [done|].
    rewrite outputs_done in Hperm. rewrite named_done in Hle.
    split.
    { clear -Hsound. unfold returned.
      induction futures as [|[e|r] futures IH]; simpl in *; [done|..];
        inversion Hsound; subst; [by apply IH|].
      constructor; [|by apply IH]. simpl in *. tauto. }
    split; [by exists calls|]. exists entries. split; [done|]. split; [lia|done].
Qed.

(** *** A pool of one worker *)

Lemma busy_0_cons (c : pc E) pcs : busy (c :: pcs) = 0 -> is_done c = true /\ busy pcs = 0.
Proof. by destruct c. Qed.

(** A step of the first thread that is not done does not change what
    the pool ends with when its threads then finish in turn. *)
Lemma drain_step metadata w paths pcs st i p c c' st' :
  busy (take i pcs) = 0 -> paths !! i = Some p -> pcs !! i = Some c ->
  thread_step E metadata w p c st = Some (c', st') ->
  drain E metadata w paths (<[i := c']> pcs) st' = drain E metadata w paths pcs st.
Proof.
  revert paths pcs. induction i as [|i IH]; intros paths pcs Hbusy Hp Hc Hs;
    destruct paths as [|q paths]; try done; destruct pcs as [|c0 pcs]; try done;
    simpl in Hp, Hc.
  - injection Hp as ->. injection Hc as ->. cbn [drain list_insert insert].
    change (<[0 := c']> (c :: pcs)) with (c' :: pcs). cbn [drain].
    by rewrite (finish_step metadata w p c st c' st' Hs).
  - change (<[S i := c']> (c0 :: pcs)) with (c0 :: <[i := c']> pcs).
    cbn [take] in Hbusy. apply busy_0_cons in Hbusy as [Hd Hbusy].
    destruct c0; try done. cbn [drain]. rewrite !finish_done.
    by rewrite (IH paths pcs Hbusy Hp Hc Hs).
Qed.

(** With one worker the schedule does not matter: a task takes its first
    step only when the tasks before it are done. *)
Lemma one_worker metadata w schedule paths st :
  max_workers w <= 1 ->
  run_tasks E metadata w schedule paths st = run_tasks E metadata w [] paths st.
Proof.
  intros Hone. unfold run_tasks. cbn [pool_steps].
  generalize (map (fun _ : string => @AtOpen E) paths). intros pcs.
  revert pcs st. induction schedule as [|i schedule IH]; intros pcs st; cbn [pool_steps];
    [done|].
  destruct (paths !! i) as [p|] eqn:Hp; [|by apply IH].
  destruct (pcs !! i) as [c|] eqn:Hc; [|by apply IH].
  destruct (has_worker E w pcs i) eqn:Hw; [|by apply IH].
  destruct (thread_step_total metadata w p c st) as (c' & st' & Hs). rewrite Hs, IH.
  apply (drain_step metadata w paths pcs st i p c c' st'); try done.
  unfold has_worker in Hw. apply Nat.ltb_lt in Hw. lia.
Qed.

End WithEnv.

End Threads.

(** ** The batch: outcomes, signals and progress *)

Module Batch.

Import Path Json Engine PathFacts Naming Metadata Threads.

Lemma collect_success total i futures :
  fst (collect total i futures) = returned futures.
Proof.
  revert i. induction futures as [|[e|r] rest IH]; intros i; simpl; [done|..];
    specialize (IH (S i)); destruct (collect total (S i) rest) as [success signals];
    simpl in *; by rewrite IH.
Qed.

Lemma collect_errors total i futures :
  error_messages (snd (collect total i futures)) = raised futures.
Proof.
  revert i. induction futures as [|[e|r] rest IH]; intros i; simpl; [done|..];
    specialize (IH (S i)); destruct (collect total (S i) rest) as [success signals];
    simpl in *; by rewrite IH.
Qed.

Lemma collect_progress total i futures :
  progress_values (snd (collect total i futures)) =
    map (fun k => Double.percent k total) (returned_at i futures).
Proof.
  revert i. induction futures as [|[e|r] rest IH]; intros i; simpl; [done|..];
    specialize (IH (S i)); destruct (collect total (S i) rest) as [success signals];
    simpl in *; by rewrite IH.
Qed.

(** Only [progress] and [error_signal] come out of the loop, one per future. *)
Lemma collect_length total i futures :
  length (snd (collect total i futures)) = length futures.
Proof.
  revert i. induction futures as [|[e|r] rest IH]; intros i; simpl; [done|..];
    specialize (IH (S i)); destruct (collect total (S i) rest) as [success signals];
    simpl in *; by rewrite IH.
Qed.

Lemma returned_raised_length futures :
  length (returned futures) + length (raised futures) = length futures.
Proof.
  induction futures as [|[e|r] rest IH]; simpl; [done|..]; unfold returned, raised in *;
    simpl; lia.
Qed.

Lemma returned_at_length i futures : length (returned_at i futures) = length (returned futures).
Proof.
  revert i. induction futures as [|[e|r] rest IH]; intros i; simpl; [done|..].
  - apply IH.
  - unfold returned. simpl. f_equal. apply IH.
Qed.

Lemma returned_at_bounds i futures :
  Forall (fun k => i <= k < i + length futures) (returned_at i futures).
Proof.
  revert i. induction futures as [|[e|r] rest IH]; intros i; simpl; [done|..].
  - eapply Forall_impl; [apply IH|]. simpl. intros k Hk. lia.
  - constructor; [lia|]. eapply Forall_impl; [apply IH|]. simpl. intros k Hk. lia.
Qed.

Lemma returned_at_sorted i futures : StronglySorted lt (returned_at i futures).
Proof.
  revert i. induction futures as [|[e|r] rest IH]; intros i; simpl; [constructor|..].
  - apply IH.
  - constructor; [apply IH|].
    eapply Forall_impl; [apply returned_at_bounds|]. simpl. intros k Hk. lia.
Qed.

(** The values of a monotone function on increasing indices do not decrease. *)
Lemma map_sorted (f : nat -> Z) (l : list nat) :
  (forall i j, i <= j -> (f i <= f j)%Z) ->
  StronglySorted lt l -> StronglySorted Z.le (map f l).
Proof.
  intros Hf. induction 1 as [|k l Hl IH Hk]; simpl; constructor; [done|].
  apply Forall_map. eapply Forall_impl; [exact Hk|]. simpl. intros j Hj. apply Hf. lia.
Qed.

Section WithEnv.
Context (E : Env).

Lemma task_of_total w p st : exists r st', task_of E w p st = Some (r, st').
Proof.
  unfold task_of. destruct (keep_workflow w).
  - apply convert_single_image_with_metadata_total.
  - apply convert_single_image_total.
Qed.

(** The pool of a run fills every future, whatever the schedule. *)
Lemma futures_of_total w schedule st :
  exists futures st',
    futures_of E w schedule st = Some (futures, st') /\
    Forall2 (fun p f => ends_with E (keep_workflow w) w p AtOpen f) (file_paths w) futures.
Proof. apply run_tasks_total. Qed.

Lemma run_unfold w schedule st :
  run E w schedule st =
    match futures_of E w schedule st with
    | None => None
    | Some (futures, st') =>
        Some ((snd (collect (length futures) 0 futures) ++
               [finished_signal (renamed_files st') (fst (collect (length futures) 0 futures))])%list,
              st')
    end.
Proof.
  unfold run, futures_of, convert_images_to_webp_with_metadata, convert_images_to_webp,
    convert_with.
  destruct (keep_workflow w);
    destruct (run_tasks _ _ _ _ _ _) as [[futures st']|]; try done;
    by destruct (collect _ _ _).
Qed.

(** C1.  In every run, whatever the order in which the threads of the pool
    take their steps, each input path is submitted once, in order, and its
    task finishes whatever the other tasks did; each future then yields
    exactly one outcome: its result is appended to [success] or its
    exception is emitted as one [error_signal].  So [success] and the error
    signals together are as many as the inputs, and [finished_signal]
    closes the run.  The second part says the same of the loop alone, for
    any results the futures may hold. *)
Theorem every_input_one_outcome (w : ConversionWorker) (schedule : list nat) (st : state) :
  (exists futures st' signals success,
     futures_of E w schedule st = Some (futures, st') /\
     Forall2 (fun p f => ends_with E (keep_workflow w) w p AtOpen f)
       (file_paths w) futures /\
     run E w schedule st =
       Some ((signals ++ [finished_signal (renamed_files st') success])%list, st') /\
     success = returned futures /\
     error_messages signals = raised futures /\
     length signals = length (file_paths w) /\
     length success + length (error_messages signals) = length (file_paths w)) /\
  (forall futures : list (string + string),
     fst (collect (length futures) 0 futures) = returned futures /\
     error_messages (snd (collect (length futures) 0 futures)) = raised futures /\
     length (snd (collect (length futures) 0 futures)) = length futures /\
     length (returned futures) + length (raised futures) = length futures).
Proof.
  split.
  - destruct (futures_of_total w schedule st) as (futures & st' & Hrun & Hall).
    exists futures, st', (snd (collect (length futures) 0 futures)),
      (fst (collect (length futures) 0 futures)).
    rewrite run_unfold, Hrun, collect_success, collect_errors, collect_length.
    pose proof (Forall2_length _ _ _ Hall) as Hlen.
    repeat split; try done. rewrite returned_raised_length. done.
  - intros futures.
    rewrite collect_success, collect_errors, collect_length, returned_raised_length.
    done.
Qed.


Lemma progress_values_app s1 s2 :
  progress_values (s1 ++ s2) = (progress_values s1 ++ progress_values s2)%list.
Proof. apply omap_app. Qed.

Lemma elem_of_returned_at i futures k :
  k ∈ returned_at i futures <-> i <= k /\ exists r, futures !! (k - i) = Some (inr r).
Proof.
  revert i. induction futures as [|[e|r] rest IH]; intros i; simpl.
  - rewrite elem_of_nil. split; [done|]. by intros (_ & r & ?).
  - rewrite IH. split.
    + intros (Hk & r & Hr). split; [lia|]. exists r.
      replace (k - i) with (S (k - S i)) by lia. done.
    + intros (Hk & r & Hr). destruct (k - i) as [|n] eqn:Hn; [done|].
      split; [lia|]. exists r. replace (k - S i) with n by lia. done.
  - rewrite elem_of_cons, IH. split.
    + intros [->|(Hk & r' & Hr)].
      * split; [lia|]. exists r. by rewrite Nat.sub_diag.
      * split; [lia|]. exists r'. replace (k - i) with (S (k - S i)) by lia. done.
    + intros (Hk & r' & Hr). destruct (k - i) as [|n] eqn:Hn.
      * left. lia.
      * right. split; [lia|]. exists r'. replace (k - S i) with n by lia. done.
Qed.

(** C6, as the code has it.  The loop emits [progress] once for each task
    that returned and never for a task that raised; the value for the task
    at index [i] is [int((i + 1) / len(futures) * 100)] in double
    arithmetic, with [i] the position among all the inputs.  This holds
    whatever the schedule of the threads; the second part says the same of
    the loop alone, for any results of the futures. *)
Theorem progress_once_per_success (w : ConversionWorker) (schedule : list nat) (st : state) :
  (exists futures st' signals,
     futures_of E w schedule st = Some (futures, st') /\
     run E w schedule st = Some (signals, st') /\
     progress_values signals =
       map (fun i => Double.percent i (length (file_paths w))) (returned_at 0 futures) /\
     (forall i, i ∈ returned_at 0 futures <-> exists r, futures !! i = Some (inr r)) /\
     length (progress_values signals) = length (returned futures)) /\
  (forall futures : list (string + string),
     progress_values (snd (collect (length futures) 0 futures)) =
       map (fun i => Double.percent i (length futures)) (returned_at 0 futures) /\
     (forall i, i ∈ returned_at 0 futures <-> exists r, futures !! i = Some (inr r))).
Proof.
  assert (forall futures : list (string + string),
            forall i, i ∈ returned_at 0 futures <-> exists r, futures !! i = Some (inr r))
    as Hat.
  { intros futures i. rewrite elem_of_returned_at, Nat.sub_0_r. split; [by intros [_ ?]|].
    intros ?. split; [lia|done]. }
  split.
  - destruct (futures_of_total w schedule st) as (futures & st' & Hrun & Hall).
    pose proof (Forall2_length _ _ _ Hall) as Hlen.
    eexists futures, st', _. rewrite run_unfold, Hrun. split; [done|]. split; [done|].
    rewrite progress_values_app, collect_progress. simpl. rewrite app_nil_r, Hlen.
    split; [done|]. split; [apply Hat|].
    by rewrite length_map, returned_at_length.
  - intros futures. split; [apply collect_progress | apply Hat].
Qed.

(** C7.  The values of the [progress] signals of a run, in the order of
    emission, never decrease, whatever the schedule of the threads; and so
    for the loop alone, whatever the futures hold. *)
Theorem progress_never_decreases (w : ConversionWorker) (schedule : list nat) (st : state) :
  (exists signals st',
     run E w schedule st = Some (signals, st') /\
     StronglySorted Z.le (progress_values signals)) /\
  (forall (total i : nat) (futures : list (string + string)),
     StronglySorted Z.le (progress_values (snd (collect total i futures)))).
Proof.
  assert (forall (total i : nat) (futures : list (string + string)),
            StronglySorted Z.le (progress_values (snd (collect total i futures))))
    as Hloop.
  { intros total i futures. rewrite collect_progress.
    apply map_sorted; [|apply returned_at_sorted].
    intros j k Hjk. by apply DoubleFacts.percent_mono. }
  split; [|exact Hloop].
  destruct (futures_of_total w schedule st) as (futures & st' & Hrun & _).
  eexists _, st'. rewrite run_unfold, Hrun. split; [done|].
  rewrite progress_values_app. simpl. rewrite app_nil_r. apply Hloop.
Qed.

(** Where the task of a name that does not end in [.png] can end, in
    metadata mode, from each of its points. *)
Lemma not_png_ends w p c f :
  let d := if use_same_folder w then dirname p else output_dir w in
  let advice :=
    "Failed to convert " ++ basename p ++ ": " ++
    "Failed to convert " ++ basename p ++ " with ComfyUI workflow." ++ newline ++
    "Consider using png files with workflow or uncheck keep ComfyUI workflow" in
  let after_open :=
    (exists st1 e, os_makedirs E d st1 = Some (inl e, st1) /\
       f = inl ("Failed to convert " ++ basename p ++ ": " ++ e)) \/
    f = inl advice in
  endswith ".png" (lower (basename p)) = false ->
  ends_with E true w p c f ->
  match c with
  | AtOpen =>
      (exists files e, image_open E files p = inl e /\ f = inl (unbound_filename E)) \/
      (exists files img, image_open E files p = inr img /\ after_open)
  | AtMakedirs _ => after_open
  | Done f' => f = f'
  | _ => f = inl advice
  end.
Proof.
  intros d advice after_open Hpng Hends.
  induction Hends as [f|c st c' st' f Hd Hs Hends IH]; [done|].
  destruct c as [|img|img|img fn out k|img fn out|img out|r]; try done;
    cbn [thread_step] in Hs; fold d in Hs.
  - destruct (image_open E (fs st) p) as [e|img] eqn:Hopen; injection Hs as <- <-.
    + left. by exists (fs st), e.
    + right. by exists (fs st), img.
  - destruct (os_makedirs_inv E d st) as [[e He]|(st1 & He & _)];
      rewrite He in Hs; injection Hs as <- <-.
    + left. by exists st, e.
    + by right.
  - by destruct (path_exists _ _); injection Hs as <- <-.
  - by destruct (path_exists _ _); injection Hs as <- <-.
  - by injection Hs as <- <-.
  - unfold save_step in Hs. rewrite Hpng in Hs. by injection Hs as <- <-.
Qed.

(** C5.  In metadata mode, whatever the schedule of the threads, the task
    of an input whose name does not end in [.png] (whatever the case of the
    letters) never returns a path: its future holds an exception, the loop
    reports it with [error_signal], [success] holds the results of the
    other tasks only, and the run ends with [finished_signal].  When the
    image opened, the reason names the file and the cause: the error of
    [os.makedirs], or the advice to use PNG files.  When [Image.open]
    raised, the handler of line 156 formats its message with [filename],
    which is not bound yet: the reason is the text of that
    [UnboundLocalError], the same for every file and every cause. *)
Theorem not_png_failure_reasons (w : ConversionWorker) (schedule : list nat) (st : state) :
  keep_workflow w = true ->
  exists futures st' signals,
    run E w schedule st =
      Some ((signals ++ [finished_signal (renamed_files st') (returned futures)])%list, st') /\
    error_messages signals = raised futures /\
    Forall2 (fun p f =>
               endswith ".png" (lower (basename p)) = false ->
               (exists files e,
                  image_open E files p = inl e /\ f = inl (unbound_filename E)) \/
               (exists files img,
                  image_open E files p = inr img /\
                  ((exists st1 e,
                      os_makedirs E (if use_same_folder w then dirname p else output_dir w) st1 =
                        Some (inl e, st1) /\
                      f = inl ("Failed to convert " ++ basename p ++ ": " ++ e)) \/
                   f = inl ("Failed to convert " ++ basename p ++ ": " ++
                            "Failed to convert " ++ basename p ++ " with ComfyUI workflow." ++
                            newline ++
                            "Consider using png files with workflow or uncheck keep ComfyUI workflow"))))
      (file_paths w) futures.
Proof.
  intros Hkeep.
  destruct (futures_of_total w schedule st) as (futures & st' & Hrun & Hall).
  exists futures, st', (snd (collect (length futures) 0 futures)).
  rewrite run_unfold, Hrun, collect_success, collect_errors.
  split; [done|]. split; [done|].
  eapply Forall2_impl; [exact Hall|]. intros p f Hends Hpng. rewrite Hkeep in Hends.
  exact (not_png_ends w p AtOpen f Hpng Hends).
Qed.

End WithEnv.

End Batch.

(** ** The loop that removes the nodes of type ['LoraInfo'] *)

Module Filter.

Import Json.

(** Only a [str] equals a [str]. *)
Lemma py_eq_str t s : py_eq t (JStr s) = true -> t = JStr s.
Proof.
  destruct t; simpl; unfold number_eqb; simpl; try done.
  intros H. apply String.eqb_eq in H. by subst.
Qed.

(** Equal dicts have equal values under every key of the first. *)
Lemma py_eq_obj_assoc kvs kvs' k v :
  py_eq (JObj kvs) (JObj kvs') = true ->
  assoc k kvs = Some v ->
  exists v', assoc k kvs' = Some v' /\ py_eq v v' = true.
Proof.
  simpl. intros [_ Hall]%andb_prop. revert Hall.
  induction kvs as [|[k0 v0] kvs IH]; [done|]. 
  intros [H0 Hall]%andb_prop. simpl.
  destruct (String.eqb k k0) eqn:Hk.
  - apply String.eqb_eq in Hk as ->. intros [= ->].
    destruct (assoc k0 kvs') as [v'|]; [|done]. by exists v'.
  - by apply IH.
Qed.

(** A node of another type is not equal to a node of type [tag]. *)
Lemma py_eq_other_type tag x n :
  has_other_type tag x -> has_type tag n -> py_eq x n = false.
Proof.
  intros (t & Ht & Hne) (tn & Htn & Heq).
  destruct (py_eq x n) eqn:Hxn; [|done]. exfalso.
  destruct x as [| | | | | |kvs]; try done. destruct n as [| | | | | |kvs']; try done.
  simpl in Ht, Htn.
  destruct (py_eq_obj_assoc _ _ _ _ Hxn Ht) as (t' & Ht' & Htt').
  assert (t' = tn) as -> by congruence.
  apply py_eq_str in Heq. subst tn. congruence.
Qed.

Lemma list_remove_middle tag pre n post :
  Forall (has_other_type tag) pre -> has_type tag n ->
  list_remove (length pre) n (pre ++ n :: post)%list = (pre ++ post)%list.
Proof.
  intros Hpre Hn. induction Hpre as [|x pre Hx Hpre IH]; simpl; [done|].
  rewrite (py_eq_other_type tag x n Hx Hn). by rewrite IH.
Qed.

(** The loop leaves a list alone from the first index on from which no
    node has type ['LoraInfo']. *)
Lemma for_nodes_no_lora fuel i nodes :
  (forall k x, i <= k -> nodes !! k = Some x -> has_other_type "LoraInfo" x) ->
  length nodes <= i + fuel ->
  for_nodes fuel i nodes = Returns nodes.
Proof.
  revert i. induction fuel as [|fuel IH]; intros i Hall Hlen; simpl.
  - rewrite lookup_ge_None_2 by lia. done.
  - destruct (nodes !! i) as [n|] eqn:Hn; [|done].
    destruct (Hall i n ltac:(lia) Hn) as (t & -> & ->).
    apply IH; [|lia]. intros k x Hk. apply Hall. lia.
Qed.

(** One node of type ['LoraInfo'] among nodes of other types: the loop
    removes it and nothing else. *)
Lemma for_nodes_single fuel i pre n post :
  Forall (has_other_type "LoraInfo") pre ->
  has_type "LoraInfo" n ->
  Forall (has_other_type "LoraInfo") post ->
  i <= length pre ->
  length (pre ++ n :: post)%list <= i + fuel ->
  for_nodes fuel i (pre ++ n :: post)%list = Returns (pre ++ post)%list.
Proof.
  intros Hpre Hn Hpost. revert i.
  induction fuel as [|fuel IH]; intros i Hi Hlen.
  { rewrite length_app in Hlen. simpl in Hlen. lia. }
  simpl. destruct (decide (i = length pre)) as [->|Hne].
  - rewrite list_lookup_middle by done.
    destruct Hn as (t & Ht & Heq). rewrite Ht, Heq.
    rewrite (list_remove_middle "LoraInfo") by (done || by exists t).
    apply for_nodes_no_lora.
    + intros k x _ Hk. apply list_elem_of_lookup_2 in Hk.
      apply elem_of_app in Hk as [Hk|Hk].
      * by apply (proj1 (Forall_forall _ _) Hpre).
      * by apply (proj1 (Forall_forall _ _) Hpost).
    + rewrite length_app in *. simpl in Hlen. lia.
  - rewrite lookup_app_l by lia.
    destruct (pre !! i) as [x|] eqn:Hx.
    2:{ apply lookup_ge_None in Hx. lia. }
    apply list_elem_of_lookup_2 in Hx.
    destruct (proj1 (Forall_forall _ _) Hpre x Hx) as (t & -> & ->).
    apply IH; lia.
Qed.

Lemma assoc_set_same k v kvs : assoc k kvs = Some v -> assoc_set k v kvs = kvs.
Proof.
  induction kvs as [|[k0 v0] kvs IH]; [done|]. simpl.
  destruct (String.eqb k k0) eqn:Hk.
  - by intros [= ->].
  - intros H. by rewrite IH.
Qed.

(** The part of C2 the code keeps.  When the node list of the document
    holds exactly one node of type ['LoraInfo'], among nodes that have
    other types, the filter returns the document with that node gone and
    nothing else changed. *)
Lemma filter_document_single kvs pre n post :
  assoc "nodes" kvs = Some (JArr (pre ++ n :: post)%list) ->
  Forall (has_other_type "LoraInfo") pre ->
  has_type "LoraInfo" n ->
  Forall (has_other_type "LoraInfo") post ->
  filter_document (JObj kvs) =
    Returns (JObj (assoc_set "nodes" (JArr (pre ++ post)%list) kvs)).
Proof.
  intros Hnodes Hpre Hn Hpost. simpl. rewrite Hnodes. simpl.
  rewrite (for_nodes_single _ 0 pre n post) by (done || lia). done.
Qed.

(** C2 at the failing input.  Two nodes of type ['LoraInfo'] in a row:
    removing the first moves the second to the index the iterator has
    already passed, so the second stays in the document that is saved. *)
Theorem adjacent_lora_node_survives :
  filter_document (JObj [("nodes", JArr [Sample.lora; Sample.lora])]) =
    Returns (JObj [("nodes", JArr [Sample.lora])]) /\
  has_type "LoraInfo" Sample.lora.
Proof.
  split; [reflexivity|]. exists (JStr "LoraInfo"). split; reflexivity.
Qed.

End Filter.

(** ** The size of the pool *)

Module Pool.

Import Engine.

(** C8, in general: whatever the spin box shows, the pool of the worker
    that [convert_images] starts has [multiprocessing.cpu_count()]
    threads. *)
Lemma pool_size_is_cpu_count (hardware : nat) (g : Gui.ImageConverter) (w : ConversionWorker) :
  Gui.convert_images hardware g = Some w -> max_workers w = hardware.
Proof.
  unfold Gui.convert_images. intros H.
  repeat match type of H with (if ?c then _ else _) = _ => destruct c; [done|] end.
  by injection H as <-.
Qed.

(** C8 at the failing input: the spin box asks for one thread on a machine
    with eight, and the pool gets eight. *)
Theorem spinbox_value_not_used :
  Gui.cpu_spinbox Sample.window = 1 /\
  (max_workers <$> Gui.convert_images 8 Sample.window) = Some 8.
Proof. split; reflexivity. Qed.

End Pool.

(** ** Two threads and one name *)

Module Race.

Import Path Json Engine Sample SampleMore.

(** C3 at the failing input: [X.png] and [X.jpg] converted in one batch
    into [/out], which holds no [X.webp].  One after the other, the tasks
    write [X.webp] and [X_1.webp].  On [racing_schedule] both tasks test
    [/out/X.webp] before either has saved: when the first has saved, the
    second stands before its own [save] with the same path, which exists
    by now, and it writes there too.  Both futures hold [/out/X.webp], no
    entry goes to [renamed_files], and the two calls of [save] have one
    path: the file of the first task is replaced. *)
Theorem same_stem_tasks_write_one_path :
  pool_outcome (futures_of (env [] []) racing_worker [] racing_state) =
    Some ([inr "/out/X.webp"; inr "/out/X_1.webp"], ["X.jpg -> X_1.webp"],
          [ {| save_path := "/out/X.webp"; save_quality := 87; save_exif := None |};
            {| save_path := "/out/X_1.webp"; save_quality := 87; save_exif := None |} ]) /\
  standing (pool_steps (env [] []) false racing_worker (file_paths racing_worker)
              (take 7 racing_schedule)
              (map (fun _ => AtOpen) (file_paths racing_worker)) racing_state)
    "/out/X.webp" =
    Some ([Done (inr "/out/X.webp"); @AtSave (env [] []) None "/out/X.webp"], true) /\
  pool_outcome (futures_of (env [] []) racing_worker racing_schedule racing_state) =
    Some ([inr "/out/X.webp"; inr "/out/X.webp"], [],
          [ {| save_path := "/out/X.webp"; save_quality := 87; save_exif := None |};
            {| save_path := "/out/X.webp"; save_quality := 87; save_exif := None |} ]) /\
  (fst <$> run (env [] []) racing_worker racing_schedule racing_state) =
    Some [progress 50; progress 100;
          finished_signal [] ["/out/X.webp"; "/out/X.webp"]].
Proof. repeat split; vm_compute; reflexivity. Qed.

End Race.

(** ** The engine at work on concrete inputs *)

Module Examples.

Import Path Json Engine Sample SampleMore.

(** [os.path] *)
Example split1 : split "/a/b/c.png" = ("/a/b", "c.png"). Proof. reflexivity. Qed.
Example split2 : split "c.png" = ("", "c.png"). Proof. reflexivity. Qed.
Example split3 : split "/c.png" = ("/", "c.png"). Proof. reflexivity. Qed.
Example split4 : split "//a//c.png" = ("//a", "c.png"). Proof. reflexivity. Qed.
Example split5 : split "a/b/" = ("a/b", ""). Proof. reflexivity. Qed.
Example se1 : splitext "a.b.png" = ("a.b", ".png"). Proof. reflexivity. Qed.
Example se2 : splitext ".png" = (".png", ""). Proof. reflexivity. Qed.
Example se3 : splitext "..png" = ("..png", ""). Proof. reflexivity. Qed.
Example se4 : splitext "x" = ("x", ""). Proof. reflexivity. Qed.
Example se5 : splitext "d.d/x" = ("d.d/x", ""). Proof. reflexivity. Qed.
Example se6 : splitext "d.d/.x.y" = ("d.d/.x", ".y"). Proof. reflexivity. Qed.
Example se7 : splitext "....webp" = ("....webp", ""). Proof. reflexivity. Qed.
Example se8 : splitext "a." = ("a", "."). Proof. reflexivity. Qed.
Example j1 : join "/a" "b" = "/a/b". Proof. reflexivity. Qed.
Example j2 : join "/a/" "b" = "/a/b". Proof. reflexivity. Qed.
Example j3 : join "" "b" = "b". Proof. reflexivity. Qed.
Example j4 : join "/a" "/b" = "/b". Proof. reflexivity. Qed.
Example l1 : lower "X.PnG" = "x.png". Proof. reflexivity. Qed.
Example e1 : endswith ".png" "x.png" = true. Proof. reflexivity. Qed.
Example e2 : endswith ".png" "png" = false. Proof. reflexivity. Qed.
Example p1 : pretty 12%nat = "12". Proof. reflexivity. Qed.

(** [int((i + 1) / total * 100)] in double arithmetic: the truncation is
    not always the exact quotient ([29 / 100 * 100] is below [29]). *)
Example percent_last : Double.percent 6 7 = 100%Z. Proof. vm_compute. reflexivity. Qed.
Example percent_third : Double.percent 0 3 = 33%Z. Proof. vm_compute. reflexivity. Qed.
Example percent_29 : Double.percent 28 100 = 28%Z. Proof. vm_compute. reflexivity. Qed.
Example percent_57 : Double.percent 56 100 = 56%Z. Proof. vm_compute. reflexivity. Qed.

(** The filter on one node of type ['LoraInfo'], and on three of them:
    the last one stays. *)
Example filter_one :
  filter_document one_lora = Returns (JObj [("nodes", JArr [ksampler])]).
Proof. reflexivity. Qed.

Example filter_adjacent :
  filter_document adjacent_loras = Returns (JObj [("nodes", JArr [ksampler; lora])]).
Proof. reflexivity. Qed.

(** Plain mode, the name taken twice. *)
Example plain_renamed :
  observe (convert_single_image (env [] []) (worker [] "/out" false) "/in/X.png"
             (state_of ["/in/X.png"; "/out/X.webp"; "/out/X_1.webp"])) =
    Some (inr "/out/X_2.webp", ["X.png -> X_2.webp"],
          [ {| save_path := "/out/X_2.webp"; save_quality := 87; save_exif := None |} ]).
Proof. vm_compute. reflexivity. Qed.

(** A file that does not open: the handler of line 75 fails on [filename]. *)
Example plain_unreadable :
  observe (convert_single_image (env [] []) (worker [] "/out" false) "/in/X.broken"
             (state_of ["/in/X.broken"])) =
    Some (inl (unbound_filename (env [] [])), [], []).
Proof. vm_compute. reflexivity. Qed.

(** Metadata mode on the PNG of the failing input of C2: what is saved
    under tag [0x010e] still has a node of type ['LoraInfo']. *)
Example metadata_adjacent :
  observe (convert_single_image_with_metadata
             (env [adjacent_loras] [("/in/a.png", dumps adjacent_loras)])
             (worker [] "/out" true) "/in/a.png" (state_of ["/in/a.png"])) =
    Some (inr "/out/a.webp", [],
          [ {| save_path := "/out/a.webp"; save_quality := 87;
               save_exif :=
                 Some ("Workflow:" ++ dumps (JObj [("nodes", JArr [ksampler; lora])])) |} ]).
Proof. vm_compute. reflexivity. Qed.

(** C4 as the specification words it fails: with [X.webp] taken, the entry
    of [renamed_files] for the input [X.png] starts with the name of the
    input, not with [X.webp]. *)
Lemma rename_record_names_the_input :
  observe (choose_output (env [] []) (worker [] "/out" false) "/in/X.png" "X.png"
             (state_of ["/in/X.png"; "/out"; "/out/X.webp"])) =
    Some (inr ("X_1.webp", "/out/X_1.webp"), ["X.png -> X_1.webp"], []) /\
  ["X.png -> X_1.webp"] <> ["X.webp -> X_1.webp"].
Proof. split; [vm_compute; reflexivity | discriminate]. Qed.

(** C6 as the specification words it fails: a batch of one input that
    fails emits no [progress] at all, where the specification has one value
    for every completed task. *)
Lemma failed_task_emits_no_progress :
  (progress_values <$> (fst <$> run env1 (worker ["/in/X.jpg"] "/out" true) [] state1)) = Some [] /\
  (error_messages <$> (fst <$> run env1 (worker ["/in/X.jpg"] "/out" true) [] state1)) =
    Some ["Failed to convert X.jpg: " ++ png_only_message "X.jpg"] /\
  spec_progress 1 = [100%Z] /\
  (progress_values <$> (fst <$> run env1 (worker ["/in/X.jpg"] "/out" true) [] state1)) <>
    Some (spec_progress 1).
Proof.
  assert ((progress_values <$> (fst <$> run env1 (worker ["/in/X.jpg"] "/out" true) [] state1))
          = Some []) as H by (vm_compute; reflexivity).
  rewrite H. split; [reflexivity|]. split; [vm_compute; reflexivity|].
  split; [vm_compute; reflexivity | discriminate].
Qed.

(** C9 as the specification words it fails: the [workflow] chunk of the
    PNG is [caf] and U+00E9, which is not JSON.  The filter fails, the task
    returns, and [save] is given the raw chunk after ["Workflow:"]; but the
    file holds [?] where the chunk has U+00E9. *)
Lemma non_ascii_workflow_is_not_kept :
  filter_fails env3 (Some accented) /\
  observe (convert_single_image_with_metadata env3 (worker [] "/out" true) "/in/a.png"
             (state_of ["/in/a.png"])) =
    Some (inr "/out/a.webp", [],
          [ {| save_path := "/out/a.webp"; save_quality := 87;
               save_exif := Some ("Workflow:" ++ accented) |} ]) /\
  embedded {| save_path := "/out/a.webp"; save_quality := 87;
              save_exif := Some ("Workflow:" ++ accented) |} = Some "Workflow:caf?" /\
  Some "Workflow:caf?" <> Some ("Workflow:" ++ accented).
Proof.
  split; [right; left; exists accented; split; reflexivity|].
  split; [vm_compute; reflexivity|]. split; [reflexivity|discriminate].
Qed.

End Examples.

(** ** The theorems that have hypotheses, at concrete inputs *)

Module Witnesses.

Import Path Json Engine Sample SampleMore.

(** C10 on the JPEG of [worker1]: the image opens, [/out] is made, and the
    first name [X.webp] is taken. *)
Lemma not_png_side_effects_witness :
  endswith ".png" (lower (basename "/in/X.jpg")) = false /\
  image_open env1 (fs state1) "/in/X.jpg" = inr None /\
  os_makedirs env1 "/out" state1 = Some (inr tt, state1_dirs) /\
  exists st2,
    convert_single_image_with_metadata env1 worker1 "/in/X.jpg" state1 =
      Some (inl ("Failed to convert " ++ "X.jpg" ++ ": " ++ png_only_message "X.jpg"), st2) /\
    "/out" ∈ fs st2 /\ fs st2 = fs state1_dirs /\ saved st2 = saved state1 /\
    (join "/out" "X.webp" ∉ fs state1_dirs -> renamed_files st2 = renamed_files state1) /\
    (join "/out" "X.webp" ∈ fs state1_dirs ->
       exists fn, fn <> "X.webp" /\ (join "/out" fn ∉ fs state1_dirs) /\
         renamed_files st2 =
           (renamed_files state1 ++ [("X.jpg" ++ " -> " ++ fn)%string])%list).
Proof.
  split; [reflexivity|]. split; [vm_compute; reflexivity|]. split; [reflexivity|].
  apply (Naming.not_png_side_effects env1 worker1 "/in/X.jpg" state1 state1_dirs None);
    [reflexivity | vm_compute; reflexivity | reflexivity].
Defined.

(** C9 on the PNG of [worker1], whose [workflow] chunk is not JSON. *)
Lemma filter_failure_keeps_raw_witness :
  endswith ".png" (lower (basename "/in/a.png")) = true /\
  image_open env1 (fs state1) "/in/a.png" = inr (Some "not json") /\
  filter_fails env1 (Some "not json") /\
  user_comment env1 (Some "not json") = Some "not json" /\
  match choose_output env1 worker1 "/in/a.png" "a.png" state1 with
  | Some (inr (_, p), st2) =>
      match save_exif_error env1 (fs st2) (Some "not json") p 87 ("Workflow:" ++ "not json") with
      | None =>
          exists st' call,
            convert_single_image_with_metadata env1 worker1 "/in/a.png" state1 =
              Some (inr p, st') /\
            fs st' = {[ p ]} ∪ fs st2 /\
            renamed_files st' = renamed_files st2 /\
            saved st' = (saved st2 ++ [call])%list /\
            call = {| save_path := p; save_quality := 87;
                      save_exif := Some ("Workflow:" ++ "not json") |} /\
            embedded call = Some ("Workflow:" ++ encode_ascii_replace "not json") /\
            (embedded call = Some ("Workflow:" ++ "not json") <-> isascii "not json" = true)
      | Some e =>
          convert_single_image_with_metadata env1 worker1 "/in/a.png" state1 =
            Some (inl ("Failed to convert " ++ "a.png" ++ ": " ++
                       ("Failed to convert " ++ "a.png" ++
                        " with ComfyUI workflow: " ++ e)), st2)
      end
  | Some (inl e, st2) =>
      convert_single_image_with_metadata env1 worker1 "/in/a.png" state1 =
        Some (inl ("Failed to convert " ++ "a.png" ++ ": " ++ e), st2) /\
      os_makedirs env1 "/out" state1 = Some (inl e, st2)
  | None => False
  end.
Proof.
  assert (image_open env1 (fs state1) "/in/a.png" = inr (Some "not json")) as Hopen
    by (vm_compute; reflexivity).
  assert (filter_fails env1 (Some "not json")) as Hfail.
  { right. left. exists "not json". split; reflexivity. }
  split; [reflexivity|]. split; [exact Hopen|]. split; [exact Hfail|].
  exact (Metadata.filter_failure_keeps_raw env1 worker1 "/in/a.png" state1
           (Some "not json") eq_refl Hopen Hfail).
Defined.

(** C5 at the failing input: a JPEG that does not open, in metadata mode.
    The one signal before [finished_signal] carries the text of the
    [UnboundLocalError]. *)
Lemma not_png_failure_reasons_witness :
  keep_workflow gone_worker = true /\
  endswith ".png" (lower (basename "/in/gone.jpg")) = false /\
  (fst <$> run (env [] []) gone_worker [] (state_of [])) =
    Some [error_signal
            "cannot access local variable 'filename' where it is not associated with a value";
          finished_signal [] []] /\
  exists futures st' signals,
    run (env [] []) gone_worker [] (state_of []) =
      Some ((signals ++ [finished_signal (renamed_files st') (returned futures)])%list, st') /\
    error_messages signals = raised futures /\
    Forall2 (fun p f =>
               endswith ".png" (lower (basename p)) = false ->
               (exists files e,
                  image_open (env [] []) files p = inl e /\
                  f = inl (unbound_filename (env [] []))) \/
               (exists files img,
                  image_open (env [] []) files p = inr img /\
                  ((exists st1 e,
                      os_makedirs (env [] [])
                        (if use_same_folder gone_worker then dirname p
                         else output_dir gone_worker) st1 = Some (inl e, st1) /\
                      f = inl ("Failed to convert " ++ basename p ++ ": " ++ e)) \/
                   f = inl ("Failed to convert " ++ basename p ++ ": " ++
                            "Failed to convert " ++ basename p ++ " with ComfyUI workflow." ++
                            newline ++
                            "Consider using png files with workflow or uncheck keep ComfyUI workflow"))))
      (file_paths gone_worker) futures.
Proof.
  split; [reflexivity|]. split; [reflexivity|]. split; [vm_compute; reflexivity|].
  exact (Batch.not_png_failure_reasons (env [] []) gone_worker [] (state_of []) eq_refl).
Defined.

End Witnesses.

(** * More of the program *)

(** ** Tasks and runs: where the output goes and what a run leaves behind *)

Module TaskFacts.

Import Path Json Engine Invariants PathFacts Naming Metadata Threads Batch.

(** *** Suffixes and separators *)

Lemma contains_pretty_N_go c x s :
  (forall d, pretty_N_char d <> c) ->
  contains c (pretty_N_go x s) = contains c s.
Proof.
  intros Hc. revert s. induction (N.lt_wf_0 x) as [x _ IH]; intros s.
  assert (x = 0 \/ 0 < x)%N as [->|Hx] by lia; [by rewrite pretty_N_go_0|].
  rewrite pretty_N_go_step by done. rewrite IH by (by apply N.div_lt).
  cbn [contains]. destruct (Ascii.eqb (pretty_N_char (x `mod` 10)) c) eqn:Heq; [|done].
  apply Ascii.eqb_eq in Heq. by destruct (Hc (x `mod` 10)%N).
Qed.

Lemma contains_pretty_nat c (k : nat) :
  (forall d, pretty_N_char d <> c) -> contains c (pretty k) = false.
Proof.
  intros Hc. unfold pretty, pretty_nat, pretty, pretty_N.
  destruct (decide (N.of_nat k = 0%N)).
  - cbn [contains]. destruct (Ascii.eqb "0" c) eqn:Heq; [|done].
    apply Ascii.eqb_eq in Heq. by destruct (Hc 0%N).
  - by rewrite contains_pretty_N_go.
Qed.

Lemma digit_not_sep d : pretty_N_char d <> sep.
Proof. unfold pretty_N_char. by repeat case_match. Qed.

Lemma contains_numbered b k : contains sep b = false -> contains sep (numbered b k) = false.
Proof.
  intros Hb. unfold numbered. rewrite !contains_app, Hb.
  rewrite (contains_pretty_nat sep k digit_not_sep). reflexivity.
Qed.

(** [rsplit_after] on a text whose part after the last [c] is known. *)
Lemma rsplit_after_last c x f :
  contains c f = false ->
  rsplit_after c (x ++ String c f) = (x ++ String c "", f).
Proof.
  intros Hf. induction x as [|a x IH].
  - change ("" ++ String c f) with (String c f). simpl.
    rewrite (rsplit_after_absent c f Hf). by rewrite Ascii.eqb_refl.
  - rewrite !app_cons. simpl. rewrite IH. by destruct x.
Qed.

Lemma endswith_inv suf s : endswith suf s = true -> exists x, s = x ++ suf.
Proof.
  induction s as [|a s IH]; cbn [endswith].
  - rewrite orb_false_r. intros H%String.eqb_eq. exists "". by subst.
  - intros [H%String.eqb_eq|H]%orb_prop.
    + exists "". by subst.
    + destruct (IH H) as [x ->]. exists (String a x). by rewrite app_cons.
Qed.

Lemma startswith_sep_absent f : contains sep f = false -> startswith "/" f = false.
Proof.
  destruct f as [|a f]; [done|]. cbn [contains startswith].
  intros [Ha _]%orb_false_elim. rewrite Ascii.eqb_sym. unfold sep in Ha. by rewrite Ha.
Qed.

(** The file name comes back from a joined path. *)
Lemma rsplit_after_join d f :
  contains sep f = false ->
  exists D, rsplit_after sep (join d f) = (D, f) /\
    (D = "" /\ d = "" \/ D = d /\ endswith "/" d = true \/
     D = d ++ "/" /\ d <> "" /\ endswith "/" d = false).
Proof.
  intros Hf. unfold join. rewrite (startswith_sep_absent f Hf).
  destruct (String.eqb d "") eqn:Hd.
  - apply String.eqb_eq in Hd as ->. exists "". split; [|by left].
    by apply rsplit_after_absent.
  - apply String.eqb_neq in Hd. cbn [orb].
    destruct (endswith "/" d) eqn:Hend.
    + exists d. split; [|right; by left].
      destruct (endswith_inv _ _ Hend) as [x ->].
      replace ((x ++ "/") ++ f) with (x ++ String sep f).
      * by apply rsplit_after_last.
      * clear. induction x as [|a x IH]; [done|]. rewrite !app_cons. by f_equal.
    + exists (d ++ "/"). split; [|right; by right].
      replace (d ++ "/" ++ f) with (d ++ String sep f) by done.
      by apply rsplit_after_last.
Qed.

Lemma basename_join d f : contains sep f = false -> basename (join d f) = f.
Proof.
  intros Hf. unfold basename. by destruct (rsplit_after_join d f Hf) as (D & -> & _).
Qed.

Lemma rstrip_app_sep c s : rstrip c (s ++ String c "") = rstrip c s.
Proof.
  induction s as [|a s IH].
  - change ("" ++ String c "") with (String c ""). cbn [rstrip]. by rewrite Ascii.eqb_refl.
  - rewrite app_cons. cbn [rstrip]. by rewrite IH.
Qed.

Lemma rstrip_all c s : all_char c s = true -> rstrip c s = "".
Proof.
  induction s as [|a s IH]; [done|]. cbn [all_char rstrip].
  intros [Ha Hs]%andb_prop. by rewrite (IH Hs), Ha.
Qed.

(** A text that is not made of [c] alone keeps a last character other than
    [c] after [rstrip]. *)
Lemma rstrip_not_all c s :
  all_char c s = false ->
  rstrip c s <> "" /\ all_char c (rstrip c s) = false /\
  endswith (String c "") (rstrip c s) = false /\ rstrip c (rstrip c s) = rstrip c s.
Proof.
  induction s as [|a s IH]; [done|]. cbn [all_char rstrip]. intros H.
  destruct (all_char c s) eqn:Hs.
  - rewrite andb_true_r in H. rewrite (rstrip_all c s Hs), H.
    cbn [all_char rstrip endswith]. rewrite H.
    repeat split; try done.
    destruct (String.eqb (String a "") (String c "")) eqn:Heq; [|done].
    apply String.eqb_eq in Heq. injection Heq as ->. by rewrite Ascii.eqb_refl in H.
  - destruct (IH eq_refl) as (Hne & Hall & Hend & Hidem).
    destruct (rstrip c s) as [|b r] eqn:Hr; [done|].
    split; [done|]. split; [|split].
    + change (all_char c (String a (String b r))) with
        (Ascii.eqb a c && all_char c (String b r)).
      rewrite Hall. apply andb_false_r.
    + change (endswith (String c "") (String a (String b r))) with
        (String.eqb (String a (String b r)) (String c "") ||
         endswith (String c "") (String b r)).
      rewrite Hend, orb_false_r. apply String.eqb_neq. by intros [=].
    + change (rstrip c (String a (String b r))) with
        (match rstrip c (String b r) with
         | "" => if Ascii.eqb a c then "" else String a ""
         | r' => String a r'
         end).
      by rewrite Hidem.
Qed.

(** What [os.path.dirname] returns: slashes only, or a text that does not
    end in a slash. *)
Lemma dirname_shape p :
  all_char sep (dirname p) = true \/
  (dirname p <> "" /\ all_char sep (dirname p) = false /\
   endswith "/" (dirname p) = false /\ rstrip sep (dirname p) = dirname p).
Proof.
  unfold dirname, split. destruct (rsplit_after sep p) as [h t]. cbn [fst].
  destruct (String.eqb h "") eqn:Hh.
  - apply String.eqb_eq in Hh as ->. by left.
  - cbn [negb andb]. destruct (all_char sep h) eqn:Hall; [by left|].
    right. cbn [negb]. by apply rstrip_not_all.
Qed.

Lemma endswith_all_sep d : d <> "" -> all_char sep d = true -> endswith "/" d = true.
Proof.
  induction d as [|a d IH]; [done|]. intros _. cbn [all_char endswith].
  intros [Ha Hd]%andb_prop. apply Ascii.eqb_eq in Ha as ->.
  destruct d as [|b d]; [done|]. rewrite (IH ltac:(done) Hd). apply orb_true_r.
Qed.

Lemma all_char_app c s t : all_char c (s ++ t) = all_char c s && all_char c t.
Proof.
  induction s as [|a s IH]; [done|]. rewrite app_cons. cbn [all_char].
  by rewrite IH, andb_assoc.
Qed.

(** Joining a name to a directory that [dirname] gave and splitting the
    result gives both back. *)
Lemma dirname_join p f :
  dirname p <> "" -> contains sep f = false -> dirname (join (dirname p) f) = dirname p.
Proof.
  intros Hd Hf. pose proof (dirname_shape p) as Hshape.
  remember (dirname p) as d eqn:Heqd. clear Heqd.
  destruct (rsplit_after_join d f Hf) as (D & HD & Hcase).
  unfold dirname, split. rewrite HD. cbn [fst].
  destruct Hcase as [[_ ?]|[[HDd Hend]|(HDd & _ & Hend)]]; [done|..]; subst D.
  - destruct Hshape as [Hall|(_ & _ & Hend' & _)]; [|congruence].
    by rewrite Hall, andb_false_r.
  - destruct Hshape as [Hall|(_ & Hall & _ & Hstrip)].
    + rewrite (endswith_all_sep d Hd Hall) in Hend. done.
    + rewrite all_char_app, Hall. cbn [andb negb].
      destruct (String.eqb (d ++ "/") "") eqn:He.
      { apply String.eqb_eq in He. by destruct d. }
      cbn [negb andb]. replace (d ++ "/") with (d ++ String sep "") by done.
      by rewrite rstrip_app_sep.
Qed.

Section WithEnv.
Context (E : Env).

(** Everything [choose_output] can do. *)
Lemma choose_output_inv w p filename st r st2 :
  choose_output E w p filename st = Some (r, st2) ->
  let d := if use_same_folder w then dirname p else output_dir w in
  saved st2 = saved st /\ fs st ⊆ fs st2 /\
  match r with
  | inl e => st2 = st /\ os_makedirs E d st = Some (inl e, st)
  | inr (fn, out) =>
      out = join d fn /\ (out ∉ fs st2) /\ d ∈ fs st2 /\
      endswith ".webp" fn = true /\
      (contains sep filename = false -> contains sep fn = false) /\
      (renamed_files st2 = renamed_files st \/
       renamed_files st2 = (renamed_files st ++ [(filename ++ " -> " ++ fn)%string])%list) /\
      (fn = fst (splitext filename) ++ ".webp" \/
       exists k, 1 <= k /\
         fn = numbered (fst (splitext (fst (splitext filename) ++ ".webp"))) k) /\
      exists st1, os_makedirs E d st = Some (inr tt, st1) /\ fs st2 = fs st1
  end.
Proof.
  intros Hc d. rewrite choose_output_unfold in Hc. cbv zeta in Hc. fold d in Hc.
  set (first := fst (splitext filename) ++ ".webp") in *.
  destruct (os_makedirs_inv E d st) as [[e He]|(st1 & He & Hd & Hsub & Hren & Hsaved)];
    rewrite He in Hc.
  - injection Hc as <- <-. done.
  - destruct (resolve_output_spec filename d first (join d first) st1)
      as (fn & out & st2' & Hr & Hfs & Hsv & Hfree & Hno & Hyes).
    rewrite Hr in Hc. injection Hc as <- <-.
    rewrite Hsv, Hfs, Hsaved. split; [done|]. split; [done|].
    destruct (decide (join d first ∈ fs st1)) as [Hin|Hout].
    + destruct (Hyes Hin) as (Hrn & k & Hk & -> & -> & _).
      split; [done|]. split; [done|]. split; [done|].
      split; [apply numbered_webp|]. split.
      { intros Hf. apply contains_numbered.
        apply splitext_name. unfold first. rewrite contains_app.
        by rewrite (proj1 (splitext_name filename Hf)). }
      split; [right; by rewrite Hrn, Hren|]. split; [right; by exists k|]. by exists st1.
    + destruct (Hno Hout) as (-> & -> & ->).
      split; [done|]. split; [done|]. split; [done|].
      split; [unfold first; apply endswith_app, endswith_refl|]. split.
      { intros Hf. unfold first. rewrite contains_app.
        by rewrite (proj1 (splitext_name filename Hf)). }
      split; [left; by rewrite Hren|]. split; [by left|]. by exists st1.
Qed.

(** Everything a task can do to the shared state. *)
Lemma task_step w p st r st' :
  task_of E w p st = Some (r, st') ->
  fs st ⊆ fs st' /\
  (renamed_files st' = renamed_files st \/
   exists fn, endswith ".webp" fn = true /\
     renamed_files st' = (renamed_files st ++ [(basename p ++ " -> " ++ fn)%string])%list) /\
  match r with
  | inl _ => saved st' = saved st
  | inr out =>
      (out ∉ fs st) /\ out ∈ fs st' /\ endswith ".webp" out = true /\
      exists call,
        saved st' = (saved st ++ [call])%list /\
        save_path call = out /\ save_quality call = quality w /\
        (if keep_workflow w
         then exists text, save_exif call = Some ("Workflow:" ++ text)
         else save_exif call = None)
  end.
Proof.
  unfold task_of, convert_single_image, convert_single_image_with_metadata.
  destruct (keep_workflow w);
    (destruct (image_open E (fs st) p) as [e|img]; [by intros [= <- <-]; auto|]);
    unfold try_except, bind;
    destruct (choose_output E w p (basename p) st) as [[[e|[fn out]] st2]|] eqn:Hc;
    try done;
    apply choose_output_inv in Hc; cbv zeta in Hc.
  - destruct Hc as (Hsv & Hsub & -> & _). by intros [= <- <-]; auto.
  - destruct Hc as (Hsv & Hsub & -> & Hfree & Hd & Hfn & _ & Hren & _ & _).
    assert (renamed_files st2 = renamed_files st \/
            exists fn0, endswith ".webp" fn0 = true /\
              renamed_files st2 =
                (renamed_files st ++ [(basename p ++ " -> " ++ fn0)%string])%list) as Hren'.
    { destruct Hren as [?|?]; [by left|right; by exists fn]. }
    destruct (endswith ".png" (lower (basename p))); [|by intros [= <- <-]].
    destruct (user_comment E (info_workflow E img)) as [comment|]; [|done].
    unfold save_webp_exif, ret.
    destruct (save_exif_error _ _ _ _ _ _); intros [= <- <-]; [done|].
    simpl. split; [etrans; [exact Hsub|apply union_subseteq_r]|]. split; [done|].
    split; [intros Hin; by apply Hfree, Hsub|].
    split; [by apply elem_of_union_l, elem_of_singleton|].
    split; [by apply endswith_join|].
    eexists. rewrite Hsv. repeat split; try done. by exists comment.
  - destruct Hc as (Hsv & Hsub & -> & _). by intros [= <- <-]; auto.
  - destruct Hc as (Hsv & Hsub & -> & Hfree & Hd & Hfn & _ & Hren & _ & _).
    assert (renamed_files st2 = renamed_files st \/
            exists fn0, endswith ".webp" fn0 = true /\
              renamed_files st2 =
                (renamed_files st ++ [(basename p ++ " -> " ++ fn0)%string])%list) as Hren'.
    { destruct Hren as [?|?]; [by left|right; by exists fn]. }
    unfold save_webp, ret.
    destruct (save_error _ _ _ _ _); intros [= <- <-]; [done|].
    simpl. split; [etrans; [exact Hsub|apply union_subseteq_r]|]. split; [done|].
    split; [intros Hin; by apply Hfree, Hsub|].
    split; [by apply elem_of_union_l, elem_of_singleton|].
    split; [by apply endswith_join|].
    eexists. rewrite Hsv. repeat split; try done.
Qed.


(** A task that returns went through [choose_output]. *)
Lemma task_returns_inv w p st out st' :
  task_of E w p st = Some (inr out, st') ->
  exists fn st2,
    choose_output E w p (basename p) st = Some (inr (fn, out), st2) /\
    fs st' = {[ out ]} ∪ fs st2.
Proof.
  unfold task_of, convert_single_image, convert_single_image_with_metadata.
  destruct (keep_workflow w);
    (destruct (image_open E (fs st) p) as [e|img]; [done|]);
    unfold try_except, bind;
    destruct (choose_output E w p (basename p) st) as [[[e|[fn out']] st2]|]; try done.
  - destruct (endswith ".png" (lower (basename p))); [|done].
    destruct (user_comment E (info_workflow E img)) as [comment|]; [|done].
    unfold save_webp_exif, ret.
    destruct (save_exif_error _ _ _ _ _ _); intros [= <- <-]; by eexists _, _.
  - unfold save_webp, ret.
    destruct (save_error _ _ _ _ _); intros [= <- <-]; by eexists _, _.
Qed.

Lemma os_makedirs_nonempty d st st1 : os_makedirs E d st = Some (inr tt, st1) -> d <> "".
Proof. unfold os_makedirs. intros H ->. done. Qed.

(** The tasks in turn, as a pool of one worker runs them: the paths
    returned are pairwise distinct, and the saves are in their order. *)
Lemma in_turn_effects w paths st futures st' :
  run_tasks E (keep_workflow w) w [] paths st = Some (futures, st') ->
  fs st ⊆ fs st' /\
  NoDup (returned futures) /\
  Forall (fun out => (out ∉ fs st) /\ out ∈ fs st') (returned futures) /\
  exists calls,
    saved st' = (saved st ++ calls)%list /\ map save_path calls = returned futures.
Proof.
  unfold run_tasks. cbn [pool_steps].
  revert st futures st'. induction paths as [|p paths IH]; intros st futures st';
    cbn [map drain].
  - intros [= <- <-]. split; [done|]. split; [constructor|]. split; [constructor|].
    exists []. by rewrite app_nil_r.
  - rewrite finish_alone.
    destruct (task_of E w p st) as [[r st1]|] eqn:Htask; [|done].
    destruct (drain E (keep_workflow w) w paths (map (fun _ => AtOpen) paths) st1)
      as [[rs st2]|] eqn:Hrest; [|done].
    intros [= <- <-].
    apply task_step in Htask as (Hsub & _ & Hr).
    apply IH in Hrest as (Hsub' & Hnd & Hall & calls & Hsaved & Hpaths).
    split; [by etrans|].
    destruct r as [e|out]; unfold returned in *; cbn [omap]; fold (returned rs).
    + rewrite Hsaved, Hr. split; [done|]. split; [|by exists calls].
      eapply Forall_impl; [exact Hall|]. intros out (Hout & Hin).
      split; [intros ?; by apply Hout, Hsub|done].
    + destruct Hr as (Hfresh & Hin & _ & call & Hcall & Hpath & _).
      split.
      { constructor; [|done]. intros Hdup.
        apply (proj1 (Forall_forall _ _) Hall) in Hdup as (Hout & _). by apply Hout. }
      split.
      { constructor; [split; [done|by apply Hsub']|].
        eapply Forall_impl; [exact Hall|]. intros out' (Hout & Hin').
        split; [intros ?; by apply Hout, Hsub|done]. }
      exists (call :: calls). rewrite Hsaved, Hcall, <- app_assoc.
      split; [done|]. simpl. by rewrite Hpath, Hpaths.
Qed.

End WithEnv.

Section Properties.
Context (E : Env).

(** X1.  In a run, whatever the schedule of the threads, none of the paths
    in [success] existed when the run started, all of them exist when it
    ends and all end in [.webp]; no path that existed is gone.  With one
    worker the paths in [success] are pairwise distinct. *)
Theorem run_outputs_fresh (w : ConversionWorker) (schedule : list nat) (st : state) :
  exists signals success st',
    run E w schedule st =
      Some ((signals ++ [finished_signal (renamed_files st') success])%list, st') /\
    Forall (fun out => (out ∉ fs st) /\ out ∈ fs st' /\ endswith ".webp" out = true)
      success /\
    fs st ⊆ fs st' /\
    (max_workers w <= 1 -> NoDup success).
Proof.
  destruct (run_tasks_effects E (keep_workflow w) w schedule (file_paths w) st)
    as (futures & st' & Hrun & _ & Hsub & Hall & _).
  exists (snd (collect (length futures) 0 futures)), (returned futures), st'.
  rewrite run_unfold. unfold futures_of. rewrite Hrun, collect_success.
  split; [done|]. split; [done|]. split; [done|].
  intros Hone. rewrite one_worker in Hrun by done.
  by apply in_turn_effects in Hrun as (_ & Hnd & _).
Qed.

(** X2.  When a run ends, whatever the schedule of the threads, the calls
    of [save] that returned are as many as the paths in [success] and have
    the same paths, each with the quality of the worker and none at a path
    that existed when the run started.  In plain mode no call carries an
    EXIF comment; in metadata mode every call carries one that starts with
    ["Workflow:"].  With one worker the calls are in the order of
    [success]. *)
Theorem run_saves_one_file_per_success (w : ConversionWorker) (schedule : list nat)
    (st : state) :
  exists signals success st' calls,
    run E w schedule st =
      Some ((signals ++ [finished_signal (renamed_files st') success])%list, st') /\
    saved st' = (saved st ++ calls)%list /\
    map save_path calls ≡ₚ success /\
    Forall (fun call =>
              save_quality call = quality w /\
              (if keep_workflow w
               then exists text, save_exif call = Some ("Workflow:" ++ text)
               else save_exif call = None) /\
              (save_path call ∉ fs st)) calls /\
    (max_workers w <= 1 -> map save_path calls = success).
Proof.
  destruct (run_tasks_effects E (keep_workflow w) w schedule (file_paths w) st)
    as (futures & st' & Hrun & _ & _ & _ & (calls & Hsaved & Hperm & Hcalls) & _).
  exists (snd (collect (length futures) 0 futures)), (returned futures), st', calls.
  rewrite run_unfold. unfold futures_of. rewrite Hrun, collect_success.
  split; [done|]. split; [done|]. split; [done|]. split; [exact Hcalls|].
  intros Hone. rewrite one_worker in Hrun by done.
  apply in_turn_effects in Hrun as (_ & _ & _ & calls' & Hsaved' & Hpaths).
  rewrite Hsaved in Hsaved'. by apply app_inv_head in Hsaved' as ->.
Qed.

(** X3.  A run only appends to [renamed_files], whatever the schedule of
    the threads: at most one entry for each input, each of them the name of
    an input file, [" -> "], and a name that ends in [.webp].  The list
    [finished_signal] carries is the whole list, whether the renamed files
    were saved or not. *)
Theorem run_rename_log_grows (w : ConversionWorker) (schedule : list nat) (st : state) :
  exists signals success st' entries,
    run E w schedule st =
      Some ((signals ++ [finished_signal (renamed_files st ++ entries) success])%list, st') /\
    renamed_files st' = (renamed_files st ++ entries)%list /\
    length entries <= length (file_paths w) /\
    Forall (fun entry => exists p fn, p ∈ file_paths w /\ endswith ".webp" fn = true /\
                                      entry = basename p ++ " -> " ++ fn) entries.
Proof.
  destruct (run_tasks_effects E (keep_workflow w) w schedule (file_paths w) st)
    as (futures & st' & Hrun & _ & _ & _ & _ & (entries & Hentries & Hlen & Hshape)).
  exists (snd (collect (length futures) 0 futures)), (returned futures), st', entries.
  rewrite run_unfold. unfold futures_of. by rewrite Hrun, collect_success, Hentries.
Qed.


(** X4.  The path a task returns is the output directory (the directory of
    the input in same-folder mode, [output_dir] otherwise) joined with a
    file name that ends in [.webp]; that directory exists afterwards.  In
    same-folder mode [os.path.dirname] of the output is that of the
    input. *)
Theorem output_in_chosen_directory (w : ConversionWorker) (p : string) (st : state)
    (out : string) (st' : state) :
  task_of E w p st = Some (inr out, st') ->
  let d := if use_same_folder w then dirname p else output_dir w in
  d ∈ fs st' /\
  out = join d (basename out) /\
  endswith ".webp" (basename out) = true /\
  (use_same_folder w = true -> dirname out = dirname p).
Proof.
  intros Htask d.
  apply task_returns_inv in Htask as (fn & st2 & Hc & Hfs).
  apply choose_output_inv in Hc as (_ & _ & Hout & _ & Hd & Hfn & Hsep & _ & _ & st1 & Hmk & _).
  fold d in Hout, Hd, Hmk.
  specialize (Hsep (rsplit_after_tail sep p)).
  apply os_makedirs_nonempty in Hmk.
  assert (basename out = fn) as Hbase by (rewrite Hout; by apply basename_join).
  rewrite Hbase, Hfs. split; [by apply elem_of_union_r|]. split; [done|]. split; [done|].
  intros Hsame. unfold d in *. rewrite Hsame in *. rewrite Hout. by apply dirname_join.
Qed.

(** X5.  The output keeps the stem of the input: unless the name of the
    input consists of dots only, the file name of the path a task returns
    is the input's name up to its last extension, followed by [.webp] or by
    [_k.webp] for some [k >= 1]. *)
Theorem output_name_keeps_stem (w : ConversionWorker) (p : string) (st : state)
    (out : string) (st' : state) :
  task_of E w p st = Some (inr out, st') ->
  all_char extsep (basename p) = false ->
  let stem := fst (splitext (basename p)) in
  basename out = stem ++ ".webp" \/
  exists k, 1 <= k /\ basename out = stem ++ "_" ++ pretty k ++ ".webp".
Proof.
  intros Htask Hdots stem.
  apply task_returns_inv in Htask as (fn & st2 & Hc & _).
  apply choose_output_inv in Hc as (_ & _ & Hout & _ & _ & _ & Hsep & _ & Hshape & _).
  specialize (Hsep (rsplit_after_tail sep p)).
  assert (basename out = fn) as -> by (rewrite Hout; by apply basename_join).
  destruct Hshape as [->|(k & Hk & ->)]; [by left|].
  right. exists k. split; [done|]. by rewrite (base_name_stem p Hdots).
Qed.

Lemma dirname_bare p : contains sep p = false -> dirname p = "" /\ basename p = p.
Proof.
  intros Hp. unfold dirname, basename, split. by rewrite (rsplit_after_absent sep p Hp).
Qed.

(** X6.  In same-folder mode an input path without a directory part is
    never converted: [os.path.dirname] gives the empty path, on which
    [os.makedirs] raises, so the task raises and changes nothing.  When the
    image opened, the reason is the [FileNotFoundError] text. *)
Theorem same_folder_bare_name_fails (w : ConversionWorker) (p : string) (st : state) :
  use_same_folder w = true ->
  contains sep p = false ->
  exists msg,
    task_of E w p st = Some (inl msg, st) /\
    (forall img, image_open E (fs st) p = inr img ->
       msg = "Failed to convert " ++ p ++ ": [Errno 2] No such file or directory: ''").
Proof.
  intros Hsame Hp. destruct (dirname_bare p Hp) as [Hdir Hbase].
  unfold task_of, convert_single_image, convert_single_image_with_metadata.
  destruct (keep_workflow w);
    (destruct (image_open E (fs st) p) as [e|img]; [by eexists|]);
    unfold try_except, bind; rewrite choose_output_unfold; cbv zeta;
    rewrite Hsame, Hdir, Hbase; cbn [os_makedirs String.eqb];
    eexists; (split; [reflexivity|]); by intros ? _.
Qed.

(** X7.  Every way a task can raise.  When [Image.open] raised, the reason
    is the [UnboundLocalError] text, which says nothing of the file or of
    the cause, and nothing has changed.  Otherwise the reason is
    ["Failed to convert <name>: "] followed by the text of the error of
    [os.makedirs], of [save], of [save] wrapped once more in metadata mode,
    or by the PNG-only message.  A task that raises has saved nothing. *)
Theorem task_failure_reasons (w : ConversionWorker) (p : string) (st : state)
    (msg : string) (st' : state) :
  task_of E w p st = Some (inl msg, st') ->
  let d := if use_same_folder w then dirname p else output_dir w in
  saved st' = saved st /\
  ((exists e, image_open E (fs st) p = inl e /\ msg = unbound_filename E /\ st' = st) \/
   (exists img e,
      image_open E (fs st) p = inr img /\
      msg = "Failed to convert " ++ basename p ++ ": " ++ e /\
      ((os_makedirs E d st = Some (inl e, st) /\ st' = st) \/
       (keep_workflow w = false /\
        exists out, save_error E (fs st') img out (quality w) = Some e) \/
       (keep_workflow w = true /\ endswith ".png" (lower (basename p)) = false /\
        e = png_only_message (basename p)) \/
       (keep_workflow w = true /\ endswith ".png" (lower (basename p)) = true /\
        exists out text e',
          save_exif_error E (fs st') img out (quality w) ("Workflow:" ++ text) = Some e' /\
          e = "Failed to convert " ++ basename p ++ " with ComfyUI workflow: " ++ e')))).
Proof.
  intros Htask d. unfold task_of, convert_single_image, convert_single_image_with_metadata
    in Htask.
  destruct (keep_workflow w) eqn:Hkeep;
    (destruct (image_open E (fs st) p) as [e0|img] eqn:Hopen;
     [injection Htask as <- <-; split; [done|]; left; by exists e0|]);
    unfold try_except, bind in Htask;
    destruct (choose_output E w p (basename p) st) as [[[e|[fn out]] st2]|] eqn:Hc;
    try done; apply choose_output_inv in Hc; cbv zeta in Hc; fold d in Hc.
  - destruct Hc as (Hsv & _ & -> & Hmk). injection Htask as <- <-.
    split; [done|]. right. exists img, e. split; [done|]. split; [done|]. by left.
  - destruct Hc as (Hsv & _).
    destruct (endswith ".png" (lower (basename p))) eqn:Hpng.
    + destruct (user_comment E (info_workflow E img)) as [text|]; [|done].
      unfold save_webp_exif, ret in Htask.
      destruct (save_exif_error E (fs st2) img out (quality w) ("Workflow:" ++ text))
        as [e'|] eqn:Hsave; [|done].
      injection Htask as <- <-. split; [done|]. right. eexists img, _.
      split; [done|]. split; [done|]. do 3 right. split; [done|]. split; [done|].
      by exists out, text, e'.
    + injection Htask as <- <-. split; [done|]. right. eexists img, _.
      split; [done|]. split; [done|]. do 2 right. left. done.
  - destruct Hc as (Hsv & _ & -> & Hmk). injection Htask as <- <-.
    split; [done|]. right. exists img, e. split; [done|]. split; [done|]. by left.
  - destruct Hc as (Hsv & _). unfold save_webp, ret in Htask.
    destruct (save_error E (fs st2) img out (quality w)) as [e|] eqn:Hsave; [|done].
    injection Htask as <- <-. split; [done|]. right. exists img, e.
    split; [done|]. split; [done|]. right. left. split; [done|]. by exists out.
Qed.

End Properties.

End TaskFacts.

(** ** The filter: what it takes out and what it leaves *)

Module FilterFacts.

Import Path Json Engine Metadata Filter Dropping.

Lemma removes_refl P l : removes P l l.
Proof. induction l; by constructor. Qed.

Lemma removes_trans P l1 l2 l3 : removes P l1 l2 -> removes P l2 l3 -> removes P l1 l3.
Proof.
  intros H12. revert l3. induction H12 as [|x l l' H IH|x l l' HP H IH]; intros l3 H23.
  - done.
  - inversion H23; subst.
    + constructor. by apply IH.
    + apply removes_drop; [done|]. by apply IH.
  - apply removes_drop; [done|]. by apply IH.
Qed.

Lemma removes_sublist P l l' : removes P l l' -> sublist l' l.
Proof. induction 1; by constructor. Qed.

Lemma removes_length P l l' : removes P l l' -> length l' <= length l.
Proof. induction 1; simpl; lia. Qed.

(** A node cannot have the type [tag] and another type. *)
Lemma has_type_not_other tag n : has_type tag n -> ~ has_other_type tag n.
Proof. intros (t & Ht & Heq) (t' & Ht' & Hne). congruence. Qed.

(** [nodes.remove(n)] takes out one node, and not one of another type. *)
Lemma list_remove_removes idx n nodes :
  nodes !! idx = Some n -> has_type "LoraInfo" n ->
  removes (fun x => ~ has_other_type "LoraInfo" x) nodes (list_remove idx n nodes) /\
  S (length (list_remove idx n nodes)) = length nodes.
Proof.
  intros Hidx Hn. revert idx Hidx.
  induction nodes as [|x nodes IH]; intros idx Hidx; [done|].
  destruct idx as [|idx]; simpl in *.
  - injection Hidx as ->. split; [|done].
    apply removes_drop; [by apply has_type_not_other|apply removes_refl].
  - destruct (py_eq x n) eqn:Heq.
    + split; [|done]. apply removes_drop; [|apply removes_refl].
      intros Hx. by rewrite (py_eq_other_type "LoraInfo" x n Hx Hn) in Heq.
    + destruct (IH idx Hidx) as [Hrem Hlen]. split; [by constructor|simpl; lia].
Qed.

(** X8.  The loop of lines 134-136 only takes nodes out: what it returns is
    the list it was given, in the same order, less some nodes, and no node
    that has a type other than ['LoraInfo'] is ever among those taken
    out. *)
Theorem filter_never_drops_other_types (nodes nodes' : list json) :
  for_nodes (length nodes) 0 nodes = Returns nodes' ->
  removes (fun x => ~ has_other_type "LoraInfo" x) nodes nodes' /\
  sublist nodes' nodes.
Proof.
  assert (forall fuel i l l', for_nodes fuel i l = Returns l' ->
            removes (fun x => ~ has_other_type "LoraInfo" x) l l') as Hgen.
  { induction fuel as [|fuel IH]; intros i l l'; simpl.
    - destruct (l !! i); [done|]. intros [= <-]. apply removes_refl.
    - destruct (l !! i) as [n|] eqn:Hn; [|intros [= <-]; apply removes_refl].
      destruct (subscript_type n) as [t|] eqn:Ht; [|done].
      destruct (py_eq t (JStr "LoraInfo")) eqn:Heq.
      + intros Hrest. apply IH in Hrest.
        eapply removes_trans; [|exact Hrest].
        apply list_remove_removes; [done|by exists t].
      + apply IH. }
  intros H. apply Hgen in H. split; [done|by eapply removes_sublist].
Qed.

(** The loop on a list whose nodes all have type ['LoraInfo']: each turn
    takes one node out and steps over the next. *)
Lemma for_nodes_all_lora fuel i nodes :
  Forall (has_type "LoraInfo") nodes ->
  (length nodes - i + 1) / 2 <= fuel ->
  exists nodes',
    for_nodes fuel i nodes = Returns nodes' /\
    Forall (has_type "LoraInfo") nodes' /\
    length nodes' = length nodes - (length nodes - i + 1) / 2.
Proof.
  revert i nodes. induction fuel as [|fuel IH]; intros i nodes Hall Hfuel.
  - assert (length nodes <= i) as Hi.
    { destruct (decide (length nodes <= i)); [done|].
      assert (1 <= (length nodes - i + 1) / 2); [|lia].
      apply Nat.div_le_lower_bound; lia. }
    exists nodes. cbn [for_nodes]. rewrite lookup_ge_None_2 by lia.
    split; [done|]. split; [done|].
    replace (length nodes - i) with 0 by lia. cbn. lia.
  - cbn [for_nodes]. destruct (nodes !! i) as [n|] eqn:Hn.
    + pose proof (lookup_lt_Some _ _ _ Hn) as Hlt.
      assert (has_type "LoraInfo" n) as Hty.
      { apply (proj1 (Forall_forall _ _) Hall). by eapply list_elem_of_lookup_2. }
      destruct Hty as (t & Ht & Heq). rewrite Ht, Heq.
      destruct (list_remove_removes i n nodes Hn) as [Hrem Hlen]; [by exists t|].
      assert (Forall (has_type "LoraInfo") (list_remove i n nodes)) as Hall'.
      { apply removes_sublist in Hrem. apply Forall_forall. intros x Hx.
        apply (proj1 (Forall_forall _ _) Hall). by eapply elem_of_sublist. }
      assert ((length nodes - i + 1) / 2 =
              S ((length (list_remove i n nodes) - S i + 1) / 2)) as Hdiv.
      { destruct (decide (S i = length nodes)) as [Hlast|Hmore].
        - replace (length nodes - i + 1) with 2 by lia.
          replace (length (list_remove i n nodes) - S i + 1) with 1 by lia.
          reflexivity.
        - replace (length nodes - i + 1) with
            (length (list_remove i n nodes) - S i + 1 + 1 * 2) by lia.
          rewrite Nat.div_add by lia. lia. }
      destruct (IH (S i) (list_remove i n nodes) Hall') as (nodes' & -> & Hall'' & Hlen');
        [lia|].
      exists nodes'. split; [done|]. split; [done|].
      rewrite Hdiv, Hlen'.
      generalize ((length (list_remove i n nodes) - S i + 1) / 2). intros q. lia.
    + apply lookup_ge_None in Hn. exists nodes. split; [done|]. split; [done|].
      replace (length nodes - i) with 0 by lia. cbn. lia.
Qed.

(** X9.  How far the loop falls short.  On a node list whose [k] nodes all
    have type ['LoraInfo'] the loop returns, and [k / 2] of them (rounded
    down) are still in the list: the list is empty afterwards only for
    [k <= 1]. *)
Theorem filter_leaves_half_of_a_run (nodes : list json) :
  Forall (has_type "LoraInfo") nodes ->
  exists nodes',
    filter_nodes (JArr nodes) = Returns (JArr nodes') /\
    length nodes' = length nodes / 2 /\
    Forall (has_type "LoraInfo") nodes' /\
    (nodes' = [] <-> length nodes <= 1).
Proof.
  intros Hall.
  destruct (for_nodes_all_lora (length nodes) 0 nodes Hall) as (nodes' & Hrun & Hall' & Hlen).
  { rewrite Nat.sub_0_r. destruct (length nodes) as [|k]; [done|].
    apply Nat.Div0.div_le_upper_bound. lia. }
  exists nodes'. simpl. rewrite Hrun. split; [done|].
  rewrite Nat.sub_0_r in Hlen.
  assert (length nodes' = length nodes / 2) as Hhalf.
  { rewrite Hlen. pose proof (Nat.div_mod_eq (length nodes) 2) as H1.
    pose proof (Nat.div_mod_eq (length nodes + 1) 2) as H2.
    pose proof (Nat.mod_upper_bound (length nodes) 2 ltac:(lia)).
    pose proof (Nat.mod_upper_bound (length nodes + 1) 2 ltac:(lia)).
    lia. }
  split; [done|]. split; [done|]. split.
  - intros ->. cbn [length] in Hhalf.
    destruct (decide (length nodes <= 1)); [done|].
    assert (1 <= length nodes / 2); [apply Nat.div_le_lower_bound; lia|lia].
  - intros Hk. destruct nodes' as [|x nodes']; [done|]. cbn [length] in Hhalf.
    assert (length nodes / 2 = 0); [apply Nat.div_small; lia|lia].
Qed.

Section WithEnv.
Context (E : Env).

(** X10.  A workflow that parses to an object whose node list holds no
    node of type ['LoraInfo'] (every node has some other type) goes through
    the filter unchanged, and the text put after ["Workflow:"] is
    [json.dumps] of the parsed document, not the text of the chunk. *)
Theorem workflow_without_lora_is_reserialized (s : string) (kvs : list (string * json))
    (nodes : list json) :
  json_loads E s = Some (JObj kvs) ->
  assoc "nodes" kvs = Some (JArr nodes) ->
  Forall (has_other_type "LoraInfo") nodes ->
  filter_document (JObj kvs) = Returns (JObj kvs) /\
  user_comment E (Some s) = Some (json_dumps E (JObj kvs)).
Proof.
  intros Hloads Hnodes Hall.
  assert (filter_document (JObj kvs) = Returns (JObj kvs)) as Hfilter.
  { simpl. rewrite Hnodes. simpl.
    rewrite for_nodes_no_lora; [|intros k x _ Hk|lia].
    - by rewrite assoc_set_same.
    - apply (proj1 (Forall_forall _ _) Hall). by eapply list_elem_of_lookup_2. }
  split; [done|]. unfold user_comment, filter_workflow. by rewrite Hloads, Hfilter.
Qed.

End WithEnv.

End FilterFacts.

(** ** The range of the percentage *)

Module ProgressRange.

Import Double DoubleFacts.

Local Open Scope Q_scope.

(** The exponent depends on the value alone, not on the fraction that
    stands for it. *)
Lemma exponent_unique (x : Q) (e : Z) :
  0 < x -> 2 ^ e <= x -> x < 2 ^ (e + 1) -> exponent x = e.
Proof.
  intros Hx Hlo Hhi. destruct (exponent_spec x Hx) as [Hlo' Hhi'].
  assert (exponent x < e + 1)%Z.
  { apply (Qpower_lt_compat_l_inv 2); [lra | reflexivity]. }
  assert (e < exponent x + 1)%Z.
  { apply (Qpower_lt_compat_l_inv 2); [lra | reflexivity]. }
  lia.
Qed.

Lemma round_half_even_comp (x y : Q) : x == y -> round_half_even x = round_half_even y.
Proof.
  intros H. unfold round_half_even. rewrite (Qfloor_comp _ _ H).
  assert (Qcompare (x - inject_Z (Qfloor y)) (1 # 2) =
          Qcompare (y - inject_Z (Qfloor y)) (1 # 2)) as ->; [|reflexivity].
  apply Qcompare_comp; [|reflexivity]. rewrite H. reflexivity.
Qed.

Lemma round53_comp (x y : Q) : x == y -> round53 x == round53 y.
Proof.
  intros H. destruct (Qlt_le_dec 0 x) as [Hx|Hx].
  - assert (0 < y) as Hy by lra.
    rewrite (round53_pos x Hx), (round53_pos y Hy).
    destruct (exponent_spec y Hy) as [Hlo Hhi].
    assert (exponent x = exponent y) as ->.
    { apply exponent_unique; lra. }
    rewrite (round_half_even_comp (x / 2 ^ (exponent y - 52)) (y / 2 ^ (exponent y - 52))).
    + reflexivity.
    + rewrite H. reflexivity.
  - assert (y <= 0) as Hy by lra.
    unfold round53. apply Qle_bool_iff in Hx, Hy. rewrite Hx, Hy. reflexivity.
Qed.

(** [n / n * 100] is [100.0]. *)
Lemma percent_at_last (n : nat) : (0 < n)%nat -> percent (n - 1) n = 100%Z.
Proof.
  intros Hn. unfold percent, int_of, mul_int, truediv.
  replace (Z.of_nat (n - 1) + 1)%Z with (Z.of_nat n) by lia.
  assert (inject_Z (Z.of_nat n) / inject_Z (Z.of_nat n) == 1) as H1.
  { field. intros H0. assert (inject_Z (Z.of_nat n) == inject_Z 0) as H0' by exact H0.
    rewrite inject_Z_injective in H0'. lia. }
  assert (round53 (inject_Z (Z.of_nat n) / inject_Z (Z.of_nat n)) == 1) as H2.
  { rewrite (round53_comp _ _ H1). vm_compute. reflexivity. }
  assert (round53 (round53 (inject_Z (Z.of_nat n) / inject_Z (Z.of_nat n)) * inject_Z 100)
          == 100) as H3.
  { rewrite (round53_comp _ (1 * inject_Z 100)).
    - vm_compute. reflexivity.
    - rewrite H2. reflexivity. }
  rewrite (Qfloor_comp _ _ H3). reflexivity.
Qed.

Lemma percent_nonneg (i total : nat) : (0 <= percent i total)%Z.
Proof.
  unfold percent, int_of, mul_int. rewrite <- (Qfloor_Z 0).
  apply Qfloor_resp_le, round53_nonneg.
Qed.

Lemma percent_range (i total : nat) :
  (i < total)%nat -> (0 <= percent i total <= 100)%Z.
Proof.
  intros Hi. split; [apply percent_nonneg|].
  rewrite <- (percent_at_last total) by lia. apply percent_mono. lia.
Qed.

End ProgressRange.

Module ProgressFacts.

Import Double DoubleFacts Engine Batch ProgressRange.

Lemma returned_at_app i (a b : list (string + string)) :
  returned_at i (a ++ b) = (returned_at i a ++ returned_at (i + length a) b)%list.
Proof.
  revert i. induction a as [|[e|r] a IH]; intros i; simpl.
  - by rewrite Nat.add_0_r.
  - rewrite IH. by replace (S i + length a) with (i + S (length a)) by lia.
  - rewrite IH. by replace (S i + length a) with (i + S (length a)) by lia.
Qed.

(** X11.  Whatever the futures hold, every value the loop emits with
    [progress] lies between 0 and 100, and when the last task returned the
    last value emitted is 100 exactly, in the arithmetic of Python
    floats. *)
Theorem progress_in_range_and_ends_at_100 (futures : list (string + string)) :
  Forall (fun v => (0 <= v <= 100)%Z)
    (progress_values (snd (collect (length futures) 0 futures))) /\
  (forall rest r, futures = (rest ++ [inr r])%list ->
     last (progress_values (snd (collect (length futures) 0 futures))) = Some 100%Z).
Proof.
  rewrite collect_progress. split.
  - apply Forall_map. eapply Forall_impl; [apply returned_at_bounds|].
    intros k Hk. simpl in Hk. apply percent_range. lia.
  - intros rest r ->. rewrite returned_at_app. simpl. rewrite map_app. simpl.
    rewrite last_snoc. f_equal. rewrite length_app. simpl.
    replace (length rest) with (length rest + 1 - 1) at 1 by lia.
    apply percent_at_last. lia.
Qed.

End ProgressFacts.

(** ** The window *)

Module ShellFacts.

Import Path Engine Gui Shell PathFacts Batch TaskFacts.

(** X12.  Choosing a folder selects exactly the files of the walk whose
    name, in lower case, ends in one of the five image extensions, each
    joined to its directory, and the label counts them; when the names of
    the walk hold no separator, the base name of every selected path is
    such a name.  A cancelled folder dialog changes nothing. *)
Theorem folder_selection_is_the_images (folder : string)
    (walk : list (string * list string * list string)) (win : Window) :
  select_folder "" walk win = win /\
  (folder <> "" ->
   let paths := gui_file_paths (widgets (select_folder folder walk win)) in
   (forall p, p ∈ paths <->
      exists root dirs files file,
        (root, dirs, files) ∈ walk /\ file ∈ files /\
        is_image_name file = true /\ p = join root file) /\
   file_label (select_folder folder walk win) =
     "Selected " ++ pretty (length paths) ++ " image(s) from folder and subfolders" /\
   (Forall (fun '(_, _, files) => Forall (fun file => contains sep file = false) files) walk ->
    Forall (fun p => is_image_name (basename p) = true) paths)).
Proof.
  split; [reflexivity|]. intros Hfolder. unfold select_folder.
  apply String.eqb_neq in Hfolder. rewrite Hfolder. cbn [widgets set_file_label set_widgets
    gui_file_paths set_file_paths file_label].
  split; [|split; [done|]].
  - intros p. rewrite list_elem_of_In, in_flat_map. split.
    + intros ([[root dirs] files] & Hin & Hp). apply in_map_iff in Hp as (file & <- & Hfile).
      apply list_elem_of_In, list_elem_of_filter in Hfile as [Hok Hfile].
      exists root, dirs, files, file. repeat split; try done.
      * by apply list_elem_of_In.
      * by apply Is_true_true.
    + intros (root & dirs & files & file & Hin & Hfile & Hok & ->).
      exists (root, dirs, files). split; [by apply list_elem_of_In|].
      apply in_map_iff. exists file. split; [done|].
      apply list_elem_of_In, list_elem_of_filter. split; [by apply Is_true_true|done].
  - intros Hnames. apply Forall_forall. intros p Hp.
    apply list_elem_of_In, in_flat_map in Hp as ([[root dirs] files] & Hin & Hp).
    apply in_map_iff in Hp as (file & <- & Hfile).
    apply list_elem_of_In, list_elem_of_filter in Hfile as [Hok Hfile].
    apply list_elem_of_In in Hin.
    pose proof (proj1 (Forall_forall _ _) Hnames _ Hin) as Hfiles. simpl in Hfiles.
    rewrite basename_join; [by apply Is_true_true|].
    by apply (proj1 (Forall_forall _ _) Hfiles).
Qed.

Lemma convert_images_ready hardware win :
  ready (widgets win) ->
  convert_images hardware win =
    {| widgets := widgets win;
       file_label := file_label win; output_label := output_label win;
       quality_label := quality_label win;
       progress_label := "Converting...";
       output_button_enabled := output_button_enabled win;
       output_label_enabled := output_label_enabled win;
       convert_button_enabled := false;
       worker := Some (ConversionWorker_init hardware (gui_file_paths (widgets win))
                         (gui_output_dir (widgets win)) (quality_slider (widgets win))
                         (checkbox (widgets win)) (same_folder_checkbox (widgets win)));
       boxes := boxes win |}.
Proof.
  intros ([Hq1 Hq2] & Hfiles & Hout). unfold convert_images. cbv zeta.
  replace (quality_slider (widgets win) <? 1)%Z with false by (symmetry; lia).
  replace (100 <? quality_slider (widgets win))%Z with false by (symmetry; lia).
  cbn [orb]. rewrite bool_decide_eq_false_2 by done.
  destruct Hout as [->|Hout]; [done|].
  apply String.eqb_neq in Hout. rewrite Hout. by rewrite andb_false_r.
Qed.

(** X13.  'Convert to WebP' starts a worker exactly when the quality is
    between 1 and 100, at least one path is selected, and either the
    same-folder box is ticked or an output directory is set.  Then the
    worker gets the paths, directory, quality and the two check boxes of
    the window, the button is disabled, the progress label reads
    ['Converting...'] and no box is shown.  Otherwise one warning box is
    shown and nothing else changes: no worker is started. *)
Theorem convert_starts_exactly_when_ready (hardware : nat) (win : Window) :
  let g := widgets win in
  let win' := convert_images hardware win in
  (ready g ->
   exists w,
     worker win' = Some w /\ Gui.convert_images hardware g = Some w /\
     file_paths w = gui_file_paths g /\ output_dir w = gui_output_dir g /\
     quality w = quality_slider g /\ keep_workflow w = checkbox g /\
     use_same_folder w = same_folder_checkbox g /\
     convert_button_enabled win' = false /\ progress_label win' = "Converting..." /\
     boxes win' = boxes win /\ widgets win' = g) /\
  (~ ready g ->
   Gui.convert_images hardware g = None /\
   exists text, win' = show_box Warning "Error" text win).
Proof.
  intros g win'. split.
  - intros Hready. unfold win'. rewrite (convert_images_ready hardware win Hready).
    eexists. split; [reflexivity|]. split; [|done].
    destruct Hready as ([Hq1 Hq2] & Hfiles & Hout). unfold Gui.convert_images. fold g.
    replace (quality_slider g <? 1)%Z with false by (symmetry; lia).
    replace (100 <? quality_slider g)%Z with false by (symmetry; lia).
    cbn [orb]. rewrite bool_decide_eq_false_2 by done.
    destruct Hout as [->|Hout]; [done|].
    apply String.eqb_neq in Hout. rewrite Hout. by rewrite andb_false_r.
  - intros Hnot. unfold win', convert_images, Gui.convert_images, ready in *. fold g in Hnot |- *.
    destruct ((quality_slider g <? 1)%Z || (100 <? quality_slider g)%Z) eqn:Hq;
      [split; [done|by eexists]|].
    destruct (bool_decide (gui_file_paths g = [])) eqn:Hf; [split; [done|by eexists]|].
    destruct (negb (same_folder_checkbox g) && String.eqb (gui_output_dir g) "") eqn:Ho;
      [split; [done|by eexists]|].
    exfalso. apply Hnot. apply orb_false_elim in Hq as [Hq1 Hq2].
    apply bool_decide_eq_false in Hf.
    split; [lia|]. split; [done|].
    apply andb_false_iff in Ho as [Ho|Ho].
    + left. by destruct (same_folder_checkbox g).
    + right. by apply String.eqb_neq.
Qed.

(** X14.  A cancelled image dialog empties the selection while the label
    keeps its text, so the next 'Convert to WebP' only shows the warning
    that no image is selected, whatever was selected before. *)
Theorem cancelled_image_dialog_discards_selection (hardware : nat) (win : Window) :
  (1 <= quality_slider (widgets win) <= 100)%Z ->
  let win' := select_images [] win in
  gui_file_paths (widgets win') = [] /\
  file_label win' = file_label win /\
  convert_images hardware win' =
    show_box Warning "Error" "Please select at least one image file or folder." win'.
Proof.
  intros [Hq1 Hq2] win'. split; [done|]. split; [done|].
  unfold convert_images. cbn.
  replace (quality_slider (widgets win) <? 1)%Z with false by (symmetry; lia).
  replace (100 <? quality_slider (widgets win))%Z with false by (symmetry; lia).
  reflexivity.
Qed.

(** X15.  A cancelled output-directory dialog empties [output_dir] while
    the label keeps its text: unless the same-folder box is ticked, the
    next 'Convert to WebP' with images selected only shows the warning that
    no output directory is selected. *)
Theorem cancelled_output_dialog_discards_directory (hardware : nat) (win : Window) :
  (1 <= quality_slider (widgets win) <= 100)%Z ->
  gui_file_paths (widgets win) <> [] ->
  same_folder_checkbox (widgets win) = false ->
  let win' := select_output_directory "" win in
  gui_output_dir (widgets win') = "" /\
  output_label win' = output_label win /\
  convert_images hardware win' =
    show_box Warning "Error" "Please select an output directory." win'.
Proof.
  intros [Hq1 Hq2] Hfiles Hsame win'. split; [done|]. split; [done|].
  unfold convert_images. cbn.
  replace (quality_slider (widgets win) <? 1)%Z with false by (symmetry; lia).
  replace (100 <? quality_slider (widgets win))%Z with false by (symmetry; lia).
  cbn [orb]. rewrite bool_decide_eq_false_2 by done. by rewrite Hsame.
Qed.

(** The window after the signals of the collecting loop: one warning per
    exception, the labels and the button as the last signal left them. *)
Lemma after_collect total i futures win :
  let win' := fold_left on_signal (snd (collect total i futures)) win in
  boxes win' = (boxes win ++ map error_box (raised futures))%list /\
  widgets win' = widgets win /\ file_label win' = file_label win /\
  worker win' = worker win /\
  (raised futures <> [] -> convert_button_enabled win' = true).
Proof.
  revert i win. induction futures as [|[e|r] rest IH]; intros i win; cbn [collect].
  - cbn. by rewrite app_nil_r.
  - destruct (collect total (S i) rest) as [success signals] eqn:Hc. cbn [snd fold_left].
    specialize (IH (S i) (on_signal win (error_signal e))). rewrite Hc in IH.
    cbn [snd] in IH. destruct IH as (Hb & Hw & Hf & Hk & Hen).
    unfold raised in *. cbn [omap]. fold (raised rest). cbn [map].
    rewrite Hb, Hw, Hf, Hk. cbn. rewrite <- app_assoc.
    split; [done|]. split; [done|]. split; [done|]. split; [done|]. intros _.
    destruct (decide (raised rest = [])) as [Hnil|Hne]; [|by apply Hen].
    clear -Hc Hnil.
    assert (forall total i rest success signals win0,
              collect total i rest = (success, signals) -> raised rest = [] ->
              convert_button_enabled (fold_left on_signal signals win0) =
                convert_button_enabled win0) as Hkeep.
    { clear. intros total i rest. revert i.
      induction rest as [|[e|r] rest IH]; intros i success signals win0; cbn [collect].
      - by intros [= <- <-].
      - done.
      - destruct (collect total (S i) rest) as [s1 s2] eqn:Hc. intros [= <- <-] Hnil.
        cbn [fold_left]. by rewrite (IH _ _ _ _ Hc Hnil). }
    by rewrite (Hkeep _ _ _ _ _ _ Hc Hnil).
  - destruct (collect total (S i) rest) as [success signals] eqn:Hc. cbn [snd fold_left].
    specialize (IH (S i) (on_signal win (progress (Double.percent i total)))).
    rewrite Hc in IH. cbn [snd] in IH. destruct IH as (Hb & Hw & Hf & Hk & Hen).
    unfold raised in *. cbn [omap]. fold (raised rest).
    rewrite Hb, Hw, Hf, Hk. done.
Qed.

Section WithEnv.
Context (E : Env).

(** X16.  The window after all the signals of a run, whatever the
    schedule of the threads.  It has shown one
    warning box for each task that raised, in order, with text
    ['Conversion failed: '] and the reason, then one information box that
    starts with the number of tasks that returned; the progress label is
    empty, the file label is back to its first text, the selection is
    empty and the button is enabled, so that 'Convert to WebP' pressed
    again only warns that no image is selected. *)
Theorem finished_run_resets_window (hardware : nat) (w : ConversionWorker)
    (schedule : list nat) (st : state) (win : Window) :
  exists signals st' futures,
    run E w schedule st = Some (signals, st') /\
    futures_of E w schedule st = Some (futures, st') /\
    let win' := fold_left on_signal signals win in
    (exists rest,
       boxes win' =
         (boxes win ++ map error_box (raised futures) ++
          [ {| box_icon := Information; box_title := "Process Completed";
               box_text := "Converted " ++ pretty (length (returned futures)) ++
                           " image(s)." ++ rest |} ])%list) /\
    progress_label win' = "" /\
    file_label win' = "Select Images to Convert:" /\
    gui_file_paths (widgets win') = [] /\
    convert_button_enabled win' = true /\
    ((1 <= quality_slider (widgets win) <= 100)%Z ->
     convert_images hardware win' =
       show_box Warning "Error" "Please select at least one image file or folder." win').
Proof.
  destruct (futures_of_total E w schedule st) as (futures & st' & Hrun & _).
  pose proof (after_collect (length futures) 0 futures win) as Hafter. cbv zeta in Hafter.
  destruct Hafter as (Hb & Hw & _).
  set (mid := fold_left on_signal (snd (collect (length futures) 0 futures)) win) in *.
  eexists _, st', futures. rewrite run_unfold, Hrun. split; [reflexivity|].
  split; [reflexivity|]. cbv zeta. rewrite fold_left_app. fold mid.
  rewrite collect_success. cbn [fold_left on_signal].
  split.
  { unfold conversion_finished. destruct (renamed_files st') as [|r rs].
    - exists "". cbn. by rewrite Hb, <- app_assoc.
    - eexists. cbn. by rewrite Hb, <- app_assoc. }
  split; [by destruct (renamed_files st')|].
  split; [by destruct (renamed_files st')|].
  split; [by destruct (renamed_files st')|].
  split; [by destruct (renamed_files st')|].
  intros [Hq1 Hq2]. unfold convert_images.
  assert (quality_slider (widgets (conversion_finished (renamed_files st')
                                     (returned futures) mid)) =
          quality_slider (widgets win)) as Hq.
  { destruct (renamed_files st'); cbn; by rewrite Hw. }
  assert (gui_file_paths (widgets (conversion_finished (renamed_files st')
                                     (returned futures) mid)) = []) as Hp.
  { by destruct (renamed_files st'). }
  cbv zeta. rewrite Hq, Hp.
  replace (quality_slider (widgets win) <? 1)%Z with false by (symmetry; lia).
  replace (100 <? quality_slider (widgets win))%Z with false by (symmetry; lia).
  reflexivity.
Qed.

(** X17.  Once an [error_signal] has been handled the 'Convert to WebP'
    button is enabled again, whatever signals came before and whatever
    signals follow: a task that fails re-enables the button while the
    batch is still running.  If the window was ready when the batch was
    started and [finished_signal] has not arrived, it still is, so a
    press of the button then starts the same batch once more. *)
Theorem failed_task_reenables_convert (hardware : nat) (win : Window)
    (before after_ : list signal) (msg : string) :
  let win' := fold_left on_signal (before ++ error_signal msg :: after_)%list win in
  convert_button_enabled win' = true /\
  (Forall (fun s => forall renamed success, s <> finished_signal renamed success)
     (before ++ after_)%list ->
   widgets win' = widgets win /\
   worker (convert_images hardware win') = worker (convert_images hardware win)).
Proof.
  assert (forall signals win0,
            convert_button_enabled win0 = true ->
            convert_button_enabled (fold_left on_signal signals win0) = true) as Hstay.
  { induction signals as [|s signals IH]; intros win0 H0; [done|].
    cbn [fold_left]. apply IH. by destruct s as [v|e|renamed success];
      [|done|unfold on_signal, conversion_finished; destruct renamed]. }
  assert (forall signals win0,
            Forall (fun s => forall renamed success, s <> finished_signal renamed success)
              signals ->
            widgets (fold_left on_signal signals win0) = widgets win0) as Hwidgets.
  { induction signals as [|s signals IH]; intros win0 Hall; [done|].
    inversion Hall as [|? ? Hs Hrest]; subst. cbn [fold_left]. rewrite (IH _ Hrest).
    destruct s as [v|e|renamed success]; [done|done|]. by destruct (Hs renamed success). }
  intros win'. unfold win'. rewrite fold_left_app. cbn [fold_left]. split.
  - by apply Hstay.
  - intros Hall. apply Forall_app in Hall as [Hb Ha].
    assert (widgets (fold_left on_signal after_
                       (on_signal (fold_left on_signal before win) (error_signal msg))) =
            widgets win) as Hw.
    { rewrite (Hwidgets _ _ Ha).
      transitivity (widgets (fold_left on_signal before win)); [reflexivity|].
      by apply Hwidgets. }
    assert (forall signals win0, worker (fold_left on_signal signals win0) = worker win0)
      as Hworker.
    { induction signals as [|s signals IH]; intros win0; [done|].
      cbn [fold_left]. rewrite IH. destruct s as [v|e|renamed success]; [done|done|].
      unfold on_signal, conversion_finished. by destruct renamed. }
    assert (worker (fold_left on_signal after_
                      (on_signal (fold_left on_signal before win) (error_signal msg))) =
            worker win) as Hk.
    { rewrite Hworker.
      transitivity (worker (fold_left on_signal before win)); [reflexivity|].
      apply Hworker. }
    split; [exact Hw|]. unfold convert_images. cbv zeta. rewrite Hw.
    repeat case_match; try done; cbn [worker show_box]; exact Hk.
Qed.

End WithEnv.

(** X18.  In every window reached from [initUI] by any events, the quality
    label shows the value of the slider, and the button and label of the
    output directory are enabled exactly when the same-folder box is not
    ticked. *)
Theorem window_labels_follow_widgets (hardware : nat) (events : list event) :
  let win := fold_left (step hardware) events (initUI hardware) in
  quality_label win = "Enter WebP Quality (1-100): " ++ pretty (quality_slider (widgets win)) /\
  output_button_enabled win = negb (same_folder_checkbox (widgets win)) /\
  output_label_enabled win = negb (same_folder_checkbox (widgets win)).
Proof.
  cbv zeta. induction events as [|ev events IH] using rev_ind; [done|].
  rewrite fold_left_app. cbn [fold_left].
  set (win := fold_left (step hardware) events (initUI hardware)) in *.
  destruct IH as (Hq & Hb & Hl).
  destruct ev as [b|b|n|v|chosen|folder walk|dir| |s]; cbn [step].
  - done.
  - by destruct b.
  - done.
  - done.
  - unfold select_images. by destruct chosen.
  - unfold select_folder. by destruct (String.eqb folder "").
  - unfold select_output_directory. by destruct (String.eqb dir "").
  - unfold convert_images. cbv zeta. repeat case_match; done.
  - destruct s as [v|e|renamed success]; [done|done|].
    unfold on_signal, conversion_finished. by destruct renamed.
Qed.

(** X19.  As long as the slider reports values between 1 and 100, its
    value stays in that range in every window reached from [initUI], and
    the warning about an invalid quality is never shown: the first test of
    [convert_images] cannot fail. *)
Theorem quality_warning_never_shown (hardware : nat) (events : list event) :
  Forall slider_in_range events ->
  let win := fold_left (step hardware) events (initUI hardware) in
  (1 <= quality_slider (widgets win) <= 100)%Z /\
  Forall (fun box => box_text box <> quality_warning) (boxes win).
Proof.
  cbv zeta. induction events as [|ev events IH] using rev_ind; intros Hall.
  { split; [done|constructor]. }
  apply Forall_app in Hall as [Hall Hev]. inversion Hev as [|? ? Hev' _]; subst.
  rewrite fold_left_app. cbn [fold_left].
  set (win := fold_left (step hardware) events (initUI hardware)) in *.
  destruct (IH Hall) as (Hq & Hboxes).
  destruct ev as [b|b|n|v|chosen|folder walk|dir| |s]; cbn [step].
  - done.
  - by destruct b.
  - done.
  - split; [exact Hev'|done].
  - unfold select_images. by destruct chosen.
  - unfold select_folder. by destruct (String.eqb folder "").
  - unfold select_output_directory. by destruct (String.eqb dir "").
  - unfold convert_images. cbv zeta.
    replace (quality_slider (widgets win) <? 1)%Z with false by (symmetry; lia).
    replace (100 <? quality_slider (widgets win))%Z with false by (symmetry; lia).
    cbn [orb]. repeat case_match; (split; [done|]); try done;
      cbn [boxes show_box]; apply Forall_app; (split; [done|]);
      constructor; [|constructor| |constructor]; by cbn.
  - destruct s as [v|e|renamed success]; [done| |].
    + split; [done|]. cbn. apply Forall_app. split; [done|].
      constructor; [|constructor]. by cbn.
    + unfold on_signal, conversion_finished.
      destruct renamed; (split; [done|]); cbn; apply Forall_app; (split; [done|]);
        constructor; try constructor; by cbn.
Qed.

End ShellFacts.

(** ** The added theorems that have hypotheses, at concrete inputs *)

Module ExtraWitnesses.

Import Path Json Engine Gui Shell Dropping Sample SampleMore.

(** X4 in same-folder mode: [/in/X.png] goes to [/in/X.webp]. *)
Lemma output_in_chosen_directory_witness :
  exists out st',
    task_of (env [] []) (same_folder_worker false) "/in/X.png" (state_of ["/in/X.png"]) =
      Some (inr out, st') /\
    dirname "/in/X.png" ∈ fs st' /\
    out = join (dirname "/in/X.png") (basename out) /\
    endswith ".webp" (basename out) = true /\
    (use_same_folder (same_folder_worker false) = true -> dirname out = dirname "/in/X.png").
Proof.
  assert (exists out st',
            task_of (env [] []) (same_folder_worker false) "/in/X.png"
              (state_of ["/in/X.png"]) = Some (inr out, st')) as (out & st' & H).
  { vm_compute. eexists _, _. reflexivity. }
  exists out, st'. split; [exact H|].
  exact (TaskFacts.output_in_chosen_directory (env [] []) (same_folder_worker false)
           "/in/X.png" (state_of ["/in/X.png"]) out st' H).
Defined.

(** X5 with the first name taken. *)
Lemma output_name_keeps_stem_witness :
  all_char extsep (basename "/in/X.tar.png") = false /\
  exists out st',
    task_of (env [] []) (worker [] "/out" false) "/in/X.tar.png"
      (state_of ["/in/X.tar.png"; "/out/X.tar.webp"]) = Some (inr out, st') /\
    (basename out = fst (splitext (basename "/in/X.tar.png")) ++ ".webp" \/
     exists k, 1 <= k /\
       basename out = fst (splitext (basename "/in/X.tar.png")) ++ "_" ++ pretty k ++ ".webp").
Proof.
  split; [reflexivity|].
  assert (exists out st',
            task_of (env [] []) (worker [] "/out" false) "/in/X.tar.png"
              (state_of ["/in/X.tar.png"; "/out/X.tar.webp"]) = Some (inr out, st'))
    as (out & st' & H).
  { vm_compute. eexists _, _. reflexivity. }
  exists out, st'. split; [exact H|].
  exact (TaskFacts.output_name_keeps_stem (env [] []) (worker [] "/out" false)
           "/in/X.tar.png" (state_of ["/in/X.tar.png"; "/out/X.tar.webp"]) out st' H eq_refl).
Defined.

(** X6 on the bare name [X.png]. *)
Lemma same_folder_bare_name_fails_witness :
  use_same_folder (same_folder_worker true) = true /\
  contains sep "X.png" = false /\
  exists msg,
    task_of (env [] []) (same_folder_worker true) "X.png" (state_of ["X.png"]) =
      Some (inl msg, state_of ["X.png"]) /\
    (forall img, image_open (env [] []) (fs (state_of ["X.png"])) "X.png" = inr img ->
       msg = "Failed to convert " ++ "X.png" ++ ": [Errno 2] No such file or directory: ''").
Proof.
  split; [reflexivity|]. split; [reflexivity|].
  exact (TaskFacts.same_folder_bare_name_fails (env [] []) (same_folder_worker true)
           "X.png" (state_of ["X.png"]) eq_refl eq_refl).
Defined.

(** X7 on the JPEG of [worker1], in metadata mode. *)
Lemma task_failure_reasons_witness :
  exists msg st',
    task_of env1 worker1 "/in/X.jpg" state1 = Some (inl msg, st') /\
    saved st' = saved state1 /\
    ((exists e, image_open env1 (fs state1) "/in/X.jpg" = inl e /\
                msg = unbound_filename env1 /\ st' = state1) \/
     (exists img e,
        image_open env1 (fs state1) "/in/X.jpg" = inr img /\
        msg = "Failed to convert " ++ basename "/in/X.jpg" ++ ": " ++ e /\
        ((os_makedirs env1 "/out" state1 = Some (inl e, state1) /\ st' = state1) \/
         (keep_workflow worker1 = false /\
          exists out, save_error env1 (fs st') img out (quality worker1) = Some e) \/
         (keep_workflow worker1 = true /\
          endswith ".png" (lower (basename "/in/X.jpg")) = false /\
          e = png_only_message (basename "/in/X.jpg")) \/
         (keep_workflow worker1 = true /\
          endswith ".png" (lower (basename "/in/X.jpg")) = true /\
          exists out text e',
            save_exif_error env1 (fs st') img out (quality worker1) ("Workflow:" ++ text) =
              Some e' /\
            e = "Failed to convert " ++ basename "/in/X.jpg" ++
                " with ComfyUI workflow: " ++ e')))).
Proof.
  assert (exists msg st', task_of env1 worker1 "/in/X.jpg" state1 = Some (inl msg, st'))
    as (msg & st' & H).
  { vm_compute. eexists _, _. reflexivity. }
  exists msg, st'. split; [exact H|].
  exact (TaskFacts.task_failure_reasons env1 worker1 "/in/X.jpg" state1 msg st' H).
Defined.

(** X8 on four nodes, three of them of type ['LoraInfo']. *)
Lemma filter_never_drops_other_types_witness :
  for_nodes 4 0 [lora; ksampler; lora; lora] = Returns [ksampler; lora] /\
  removes (fun x => ~ has_other_type "LoraInfo" x)
    [lora; ksampler; lora; lora] [ksampler; lora] /\
  sublist [ksampler; lora] [lora; ksampler; lora; lora].
Proof.
  split; [reflexivity|].
  exact (FilterFacts.filter_never_drops_other_types
           [lora; ksampler; lora; lora] [ksampler; lora] eq_refl).
Defined.

(** X9 on three nodes of type ['LoraInfo']: one is left. *)
Lemma filter_leaves_half_of_a_run_witness :
  Forall (has_type "LoraInfo") [lora; lora; lora] /\
  exists nodes',
    filter_nodes (JArr [lora; lora; lora]) = Returns (JArr nodes') /\
    length nodes' = length [lora; lora; lora] / 2 /\
    Forall (has_type "LoraInfo") nodes' /\
    (nodes' = [] <-> length [lora; lora; lora] <= 1).
Proof.
  assert (Forall (has_type "LoraInfo") [lora; lora; lora]) as H.
  { repeat constructor; exists (JStr "LoraInfo"); split; reflexivity. }
  split; [exact H|].
  exact (FilterFacts.filter_leaves_half_of_a_run [lora; lora; lora] H).
Defined.

(** X10 on the workflow of [env2]. *)
Lemma workflow_without_lora_is_reserialized_witness :
  json_loads env2 (dumps plain_workflow) = Some plain_workflow /\
  filter_document plain_workflow = Returns plain_workflow /\
  user_comment env2 (Some (dumps plain_workflow)) = Some (json_dumps env2 plain_workflow).
Proof.
  assert (json_loads env2 (dumps plain_workflow) = Some plain_workflow) as Hloads
    by (vm_compute; reflexivity).
  split; [exact Hloads|].
  refine (FilterFacts.workflow_without_lora_is_reserialized env2 (dumps plain_workflow)
            [("nodes", JArr [ksampler; JObj [("type", JStr "VAEDecode"); ("id", JInt 7)]])]
            [ksampler; JObj [("type", JStr "VAEDecode"); ("id", JInt 7)]]
            Hloads eq_refl _).
  repeat constructor.
  - exists (JStr "KSampler"). split; reflexivity.
  - exists (JStr "VAEDecode"). split; reflexivity.
Defined.

(** X14 and X15 on a window with two images and an output directory. *)
Lemma cancelled_image_dialog_discards_selection_witness :
  (1 <= quality_slider (widgets window1) <= 100)%Z /\
  gui_file_paths (widgets (select_images [] window1)) = [] /\
  file_label (select_images [] window1) = file_label window1 /\
  Shell.convert_images 8 (select_images [] window1) =
    show_box Warning "Error" "Please select at least one image file or folder."
      (select_images [] window1).
Proof.
  assert (1 <= quality_slider (widgets window1) <= 100)%Z as H by (cbn; lia).
  split; [exact H|].
  exact (ShellFacts.cancelled_image_dialog_discards_selection 8 window1 H).
Defined.

Lemma cancelled_output_dialog_discards_directory_witness :
  (1 <= quality_slider (widgets window1) <= 100)%Z /\
  gui_file_paths (widgets window1) <> [] /\
  same_folder_checkbox (widgets window1) = false /\
  gui_output_dir (widgets (select_output_directory "" window1)) = "" /\
  output_label (select_output_directory "" window1) = output_label window1 /\
  Shell.convert_images 8 (select_output_directory "" window1) =
    show_box Warning "Error" "Please select an output directory."
      (select_output_directory "" window1).
Proof.
  assert (1 <= quality_slider (widgets window1) <= 100)%Z as H by (cbn; lia).
  assert (gui_file_paths (widgets window1) <> []) as Hfiles by (cbn; discriminate).
  split; [exact H|]. split; [exact Hfiles|]. split; [reflexivity|].
  exact (ShellFacts.cancelled_output_dialog_discards_directory 8 window1 H Hfiles eq_refl).
Defined.

(** X19 on three events. *)
Lemma quality_warning_never_shown_witness :
  Forall slider_in_range [SliderMoved 50; ImagesChosen ["/in/a.png"]; ConvertClicked] /\
  (1 <= quality_slider (widgets (fold_left (step 8)
          [SliderMoved 50; ImagesChosen ["/in/a.png"]; ConvertClicked] (initUI 8))) <= 100)%Z /\
  Forall (fun box => box_text box <> quality_warning)
    (boxes (fold_left (step 8)
              [SliderMoved 50; ImagesChosen ["/in/a.png"]; ConvertClicked] (initUI 8))).
Proof.
  assert (Forall slider_in_range
            [SliderMoved 50; ImagesChosen ["/in/a.png"]; ConvertClicked]) as H.
  { repeat constructor; cbn; lia. }
  split; [exact H|].
  exact (ShellFacts.quality_warning_never_shown 8
           [SliderMoved 50; ImagesChosen ["/in/a.png"]; ConvertClicked] H).
Defined.

(** X11 on a batch whose first task raised and whose last returned. *)
Lemma progress_in_range_and_ends_at_100_witness :
  let futures : list (string + string) := [inl "boom"; inr "/out/a.webp"] in
  futures = ([inl "boom"] ++ [inr "/out/a.webp"])%list /\
  Forall (fun v => (0 <= v <= 100)%Z)
    (progress_values (snd (collect (length futures) 0 futures))) /\
  last (progress_values (snd (collect (length futures) 0 futures))) = Some 100%Z.
Proof.
  intros futures. split; [reflexivity|].
  pose proof (ProgressFacts.progress_in_range_and_ends_at_100 futures) as [Hrange Hlast].
  split; [exact Hrange|].
  exact (Hlast [inl "boom"] "/out/a.webp" eq_refl).
Defined.

(** X12 on a folder with one sub-directory. *)
Lemma folder_selection_is_the_images_witness :
  "/pics" <> "" /\
  Forall (fun '(_, _, files) => Forall (fun file => contains sep file = false) files) walk1 /\
  file_label (select_folder "/pics" walk1 (initUI 8)) =
    "Selected " ++
    pretty (length (gui_file_paths (widgets (select_folder "/pics" walk1 (initUI 8))))) ++
    " image(s) from folder and subfolders" /\
  Forall (fun p => is_image_name (basename p) = true)
    (gui_file_paths (widgets (select_folder "/pics" walk1 (initUI 8)))).
Proof.
  assert (Hfolder : "/pics" <> "") by discriminate.
  assert (Hwalk : Forall (fun '(_, _, files) =>
                            Forall (fun file => contains sep file = false) files) walk1).
  { repeat (constructor; try reflexivity). }
  split; [exact Hfolder|]. split; [exact Hwalk|].
  pose proof (proj2 (ShellFacts.folder_selection_is_the_images "/pics" walk1 (initUI 8)) Hfolder)
    as (_ & Hlabel & Hnames).
  split; [exact Hlabel|exact (Hnames Hwalk)].
Defined.

(** X13 on a window that is ready and on the first window, which is not. *)
Lemma convert_starts_exactly_when_ready_witness :
  ready (widgets window1) /\
  ~ ready (widgets (initUI 8)) /\
  (exists w,
     Shell.worker (convert_images 8 window1) = Some w /\
     file_paths w = gui_file_paths (widgets window1) /\
     convert_button_enabled (convert_images 8 window1) = false) /\
  Gui.convert_images 8 (widgets (initUI 8)) = None /\
  exists text, convert_images 8 (initUI 8) = show_box Warning "Error" text (initUI 8).
Proof.
  assert (Hready : ready (widgets window1)).
  { split; [split; discriminate|]. split; [discriminate|]. right. discriminate. }
  assert (Hnot : ~ ready (widgets (initUI 8))).
  { intros (_ & Hpaths & _). apply Hpaths. reflexivity. }
  split; [exact Hready|]. split; [exact Hnot|].
  destruct (proj1 (ShellFacts.convert_starts_exactly_when_ready 8 window1) Hready)
    as (w & Hw & _ & Hpaths & _ & _ & _ & _ & Hbutton & _).
  split; [exists w; split; [exact Hw|split; [exact Hpaths|exact Hbutton]]|].
  exact (proj2 (ShellFacts.convert_starts_exactly_when_ready 8 (initUI 8)) Hnot).
Defined.

(** X16 on the run of [worker1]: one task is renamed, the other raises. *)
Lemma finished_run_resets_window_witness :
  (1 <= quality_slider (widgets (convert_images 8 window1)) <= 100)%Z /\
  exists signals st',
    run env1 worker1 [1; 0; 1] state1 = Some (signals, st') /\
    let win' := fold_left on_signal signals (convert_images 8 window1) in
    progress_label win' = "" /\
    gui_file_paths (widgets win') = [] /\
    convert_button_enabled win' = true /\
    convert_images 8 win' =
      show_box Warning "Error" "Please select at least one image file or folder." win'.
Proof.
  assert (Hquality : (1 <= quality_slider (widgets (convert_images 8 window1)) <= 100)%Z).
  { split; discriminate. }
  split; [exact Hquality|].
  destruct (ShellFacts.finished_run_resets_window env1 8 worker1 [1; 0; 1] state1
              (convert_images 8 window1))
    as (signals & st' & futures & Hrun & _ & _ & Hprogress & _ & Hpaths & Hbutton & Hnext).
  exists signals, st'. split; [exact Hrun|].
  split; [exact Hprogress|]. split; [exact Hpaths|]. split; [exact Hbutton|].
  exact (Hnext Hquality).
Defined.

(** X17 with an error between two progress signals. *)
Lemma failed_task_reenables_convert_witness :
  let before := [progress 50] in
  let after_ := [progress 100] in
  let win := convert_images 8 window1 in
  let win' := fold_left on_signal (before ++ error_signal "boom" :: after_)%list win in
  Forall (fun s => forall renamed success, s <> finished_signal renamed success)
    (before ++ after_)%list /\
  convert_button_enabled win = false /\
  convert_button_enabled win' = true /\
  widgets win' = widgets win /\
  Shell.worker (convert_images 8 win') = Shell.worker (convert_images 8 win).
Proof.
  intros before after_ win win'.
  assert (Hsignals : Forall (fun s => forall renamed success,
                               s <> finished_signal renamed success)
                       (before ++ after_)%list).
  { repeat constructor; discriminate. }
  split; [exact Hsignals|]. split; [reflexivity|].
  pose proof (ShellFacts.failed_task_reenables_convert 8 win before after_ "boom")
    as [Hbutton Hsame].
  split; [exact Hbutton|]. exact (Hsame Hsignals).
Defined.

(** X1 with one worker, on the schedule that makes two workers collide:
    the two paths differ. *)
Lemma run_outputs_fresh_witness :
  max_workers single_worker <= 1 /\
  (fst <$> run (env [] []) single_worker racing_schedule racing_state) =
    Some [progress 50; progress 100;
          finished_signal ["X.jpg -> X_1.webp"] ["/out/X.webp"; "/out/X_1.webp"]] /\
  exists signals success st',
    run (env [] []) single_worker racing_schedule racing_state =
      Some ((signals ++ [finished_signal (renamed_files st') success])%list, st') /\
    NoDup success.
Proof.
  split; [exact (le_n 1)|]. split; [vm_compute; reflexivity|].
  destruct (TaskFacts.run_outputs_fresh (env [] []) single_worker racing_schedule racing_state)
    as (signals & success & st' & Hrun & _ & _ & Hnd).
  exists signals, success, st'. split; [exact Hrun|]. exact (Hnd (le_n 1)).
Defined.

(** X2 with one worker: the saves are in the order of [success]. *)
Lemma run_saves_one_file_per_success_witness :
  max_workers single_worker <= 1 /\
  exists signals success st' calls,
    run (env [] []) single_worker racing_schedule racing_state =
      Some ((signals ++ [finished_signal (renamed_files st') success])%list, st') /\
    saved st' = (saved racing_state ++ calls)%list /\
    map save_path calls = success.
Proof.
  split; [exact (le_n 1)|].
  destruct (TaskFacts.run_saves_one_file_per_success (env [] []) single_worker
              racing_schedule racing_state)
    as (signals & success & st' & calls & Hrun & Hsaved & _ & _ & Horder).
  exists signals, success, st', calls. split; [exact Hrun|]. split; [exact Hsaved|].
  exact (Horder (le_n 1)).
Defined.

End ExtraWitnesses.
